(** * libknet compression dispatcher (libknet/compress.c)

    A shallow embedding of the pluggable compression dispatcher of
    kronosnet: the static model table [compress_modules_cmds], the
    ensure-init protocol [check_init_lib], the configurator
    [compress_cfg], the teardown [compress_fini] and the two transform
    entry points [compress] and [decompress].

    The C functions mutate the handle and the process-wide globals and call
    into code that lives outside the file (codec back-ends, pthread, the
    monotonic clock).  They are written here in a state-and-fault monad:
    the state is the handle plus the globals, a fault is a behaviour C
    leaves undefined (a call through a NULL slot, an array index out of
    range). *)

From Stdlib Require Import ZArith String List Lia Bool.
From stdpp Require Import base list.
Import ListNotations.

Local Open Scope string_scope.
Local Open Scope Z_scope.

(** ** Plain data *)

(** [struct timespec]. *)
Record timespec := mk_timespec { tv_sec : Z; tv_nsec : Z }.

(** A [void *] as the dispatcher uses it: NULL, the address of the string
    literal ["1"] (the fake reference of [check_init_lib]), or some other
    address owned by a back-end. *)
Inductive ptr := NULL | FakeRef | Addr (a : Z).

Definition is_null (p : ptr) : bool :=
  match p with NULL => true | _ => false end.

(** The part of [struct knet_handle] the dispatcher reads and writes. *)
Record knet_handle := mk_handle {
  compress_model : Z;
  compress_level : Z;
  compress_threshold : Z;
  compress_int_data : list ptr
}.

(** [struct knet_handle_compress_cfg], the argument of [compress_cfg]. *)
Record knet_handle_compress_cfg := mk_cfg {
  cfg_compress_model : string;
  cfg_compress_level : Z;
  cfg_compress_threshold : Z
}.

(** The function-pointer slots of a table row. *)
Inductive op_slot :=
  LoadLib | UnloadLib | IsInit | Init | Fini | ValLevel | Compress | Decompress.

(** The messages the dispatcher hands to [log_err] and [log_debug], one
    constructor per format string, carrying the formatted arguments. *)
Inductive log_msg :=
| UnableReadLock (e : Z)
| UnableWriteLock (e : Z)
| TooManyMethods
| InitCompressModule (model : string) (level threshold : Z)
| ModelNotSupported (model : string)
| ModelNotBuiltIn (model : string)
| UnableLoadInit (model : string) (e : Z)
| LevelNotSupported (level : Z) (model : string)
| ThresholdTooHigh (max : Z)
| ResetThreshold (default : Z)
| UnloadingLibrary (model : option string)
| UnableLoadInitCompress (model : option string) (e : Z)
| UnknownModel (id : Z)
| PacketNotBuiltIn (model : option string)
| UnableLoadInitDecompress (model : option string) (e : Z).

(** What the dispatcher does to the outside, most recent first. *)
Inductive event :=
| EvErr (m : log_msg)
| EvDebug (m : log_msg)
| EvRdLock (r : Z)
| EvWrLock (r : Z)
| EvUnlock
| EvCall (s : op_slot) (idx : Z).

(** Behaviours C leaves undefined. *)
Inductive fault :=
| NullCall (s : op_slot) (idx : Z)
| OutOfBounds (idx : Z).

(** The build flags of config.h. *)
Record build_config := mk_build {
  BUILDCOMPZLIB : bool;
  BUILDCOMPLZ4 : bool;
  BUILDCOMPLZO2 : bool;
  BUILDCOMPLZMA : bool;
  BUILDCOMPBZIP2 : bool
}.

(** errno.h, Linux values. *)
Definition EAGAIN : Z := 11.
Definition EINVAL : Z := 22.

(** Modelled from the spec: [timespec_diff] is declared in a header that is
    not part of the sources; the spec calls its result the elapsed
    monotonic time, which [check_init_lib] compares with 10000000000, so it
    is the distance from [start] to [stop] in nanoseconds, stored in an
    [unsigned long long]. *)
Definition timespec_diff (start stop : timespec) : Z :=
  ((tv_sec stop - tv_sec start) * 1000000000 + tv_nsec stop - tv_nsec start)
    mod 2 ^ 64.

(** pthread and the clock, and the constants of internals.h and libknet.h,
    none of which is part of the sources.  [W] is everything outside the
    dispatcher: the dynamic loader, the codecs' private state, caller
    buffers, the lock and the clock.  The integer type of [libref] is
    declared in compress.h, which is not part of the sources either:
    [libref_t z] is [z] converted to that type. *)
Class platform (W : Type) := mk_platform {
  pthread_rwlock_rdlock : W -> Z * W;
  pthread_rwlock_wrlock : W -> Z * W;
  pthread_rwlock_unlock : W -> W;
  clock_gettime : W -> timespec;
  KNET_MAX_COMPRESS_METHODS : Z;
  KNET_MAX_PACKET_SIZE : Z;
  KNET_COMPRESS_THRESHOLD : Z;
  libref_t : Z -> Z
}.

Section Dispatcher.

Context {W : Type} {P : platform W}.

(** [errno] together with the outside world; this is what a back-end or a
    libc call can change besides the handle. *)
Record os_state := mk_os { errno : Z; ext : W }.

(** A back-end entry point once its arguments other than the handle are
    given: it returns an [int] (ignored for [void] functions) and may
    change the handle and the outside. *)
Definition bop : Type := knet_handle -> os_state -> Z * knet_handle * os_state.

(** [compress_model_t]: one row of the table.  The three slots whose names
    the entry points of the file also carry are prefixed with [slot_]. *)
Record compress_model_t := mk_model {
  model_name : option string;
  model_id : Z;
  built_in : Z;
  load_lib : option bop;
  unload_lib : option bop;
  libref : Z;
  loaded : Z;
  is_init : option (Z -> bop);
  init : option (Z -> bop);
  fini : option (Z -> bop);
  slot_val_level : option (Z -> bop);
  slot_compress : option (list Byte.byte -> Z -> Z -> Z -> bop);
  slot_decompress : option (list Byte.byte -> Z -> Z -> Z -> bop)
}.

(** The globals of compress.c, [errno] and the outside, and the record of
    what was logged and called. *)
Record global := mk_global {
  compress_modules_cmds : list compress_model_t;
  max_model : Z;
  last_load_failure : timespec;
  os : os_state;
  trace : list event
}.

(** ** The monad *)

Inductive result (A : Type) :=
| Ok (a : A) (h : knet_handle) (g : global)
| Fault (f : fault).
Arguments Ok {A} a h g.
Arguments Fault {A} f.

Definition M (A : Type) : Type := knet_handle -> global -> result A.

Definition ret {A} (a : A) : M A := fun h g => Ok a h g.

Definition bind {A B} (m : M A) (k : A -> M B) : M B :=
  fun h g => match m h g with
             | Ok a h' g' => k a h' g'
             | Fault f => Fault f
             end.

Notation "x <- m ;; k" := (bind m (fun x => k))
  (at level 100, m at next level, right associativity).
Notation "m ;; k" := (bind m (fun _ => k))
  (at level 100, right associativity).

Definition crash {A} (f : fault) : M A := fun _ _ => Fault f.

Definition get_handle : M knet_handle := fun h g => Ok h h g.
Definition put_handle (h' : knet_handle) : M unit := fun _ g => Ok tt h' g.

(** Field updates. *)
Definition with_table (t : list compress_model_t) (g : global) : global :=
  mk_global t (max_model g) (last_load_failure g) (os g) (trace g).
Definition with_max_model (m : Z) (g : global) : global :=
  mk_global (compress_modules_cmds g) m (last_load_failure g) (os g) (trace g).
Definition with_last_load_failure (t : timespec) (g : global) : global :=
  mk_global (compress_modules_cmds g) (max_model g) t (os g) (trace g).
Definition with_os (o : os_state) (g : global) : global :=
  mk_global (compress_modules_cmds g) (max_model g) (last_load_failure g) o (trace g).
Definition with_event (e : event) (g : global) : global :=
  mk_global (compress_modules_cmds g) (max_model g) (last_load_failure g) (os g)
            (e :: trace g).

Definition with_libref (n : Z) (r : compress_model_t) : compress_model_t :=
  mk_model (model_name r) (model_id r) (built_in r) (load_lib r) (unload_lib r)
           n (loaded r) (is_init r) (init r) (fini r)
           (slot_val_level r) (slot_compress r) (slot_decompress r).
Definition with_loaded (n : Z) (r : compress_model_t) : compress_model_t :=
  mk_model (model_name r) (model_id r) (built_in r) (load_lib r) (unload_lib r)
           (libref r) n (is_init r) (init r) (fini r)
           (slot_val_level r) (slot_compress r) (slot_decompress r).

Definition with_compress_model (m : Z) (h : knet_handle) : knet_handle :=
  mk_handle m (compress_level h) (compress_threshold h) (compress_int_data h).
Definition with_compress_level (l : Z) (h : knet_handle) : knet_handle :=
  mk_handle (compress_model h) l (compress_threshold h) (compress_int_data h).
Definition with_compress_threshold (t : Z) (h : knet_handle) : knet_handle :=
  mk_handle (compress_model h) (compress_level h) t (compress_int_data h).
Definition with_compress_int_data (d : list ptr) (h : knet_handle) : knet_handle :=
  mk_handle (compress_model h) (compress_level h) (compress_threshold h) d.

(** ** Primitive steps *)

Definition emit (e : event) : M unit := fun h g => Ok tt h (with_event e g).
Definition log_err (m : log_msg) : M unit := emit (EvErr m).
Definition log_debug (m : log_msg) : M unit := emit (EvDebug m).

Definition get_errno : M Z := fun h g => Ok (errno (os g)) h g.
Definition set_errno (e : Z) : M unit :=
  fun h g => Ok tt h (with_os (mk_os e (ext (os g))) g).

Definition rdlock : M Z :=
  fun h g => let '(r, w) := pthread_rwlock_rdlock (ext (os g)) in
             Ok r h (with_event (EvRdLock r) (with_os (mk_os (errno (os g)) w) g)).
Definition wrlock : M Z :=
  fun h g => let '(r, w) := pthread_rwlock_wrlock (ext (os g)) in
             Ok r h (with_event (EvWrLock r) (with_os (mk_os (errno (os g)) w) g)).
Definition unlock : M unit :=
  fun h g => Ok tt h (with_event EvUnlock
               (with_os (mk_os (errno (os g)) (pthread_rwlock_unlock (ext (os g)))) g)).
Definition clock_now : M timespec :=
  fun h g => Ok (clock_gettime (ext (os g))) h g.

(** The two scalar globals, read and written. *)
Definition get_last_load_failure : M timespec :=
  fun h g => Ok (last_load_failure g) h g.
Definition set_last_load_failure (t : timespec) : M unit :=
  fun h g => Ok tt h (with_last_load_failure t g).
Definition get_max_model_var : M Z := fun h g => Ok (max_model g) h g.
Definition set_max_model (m : Z) : M unit :=
  fun h g => Ok tt h (with_max_model m g).
Definition table_length : M nat :=
  fun h g => Ok (length (compress_modules_cmds g)) h g.

(** [compress_modules_cmds[idx]], read and written. *)
Definition get_row (idx : Z) : M compress_model_t :=
  fun h g => if idx <? 0 then Fault (OutOfBounds idx) else
             match compress_modules_cmds g !! Z.to_nat idx with
             | Some r => Ok r h g
             | None => Fault (OutOfBounds idx)
             end.
Definition set_row (idx : Z) (r : compress_model_t) : M unit :=
  fun h g => Ok tt h (with_table (<[Z.to_nat idx := r]> (compress_modules_cmds g)) g).

(** [knet_h->compress_int_data[idx]], read and written. *)
Definition get_int_data (idx : Z) : M ptr :=
  fun h g => if idx <? 0 then Fault (OutOfBounds idx) else
             match compress_int_data h !! Z.to_nat idx with
             | Some p => Ok p h g
             | None => Fault (OutOfBounds idx)
             end.
Definition set_int_data (idx : Z) (p : ptr) : M unit :=
  fun h g => if idx <? 0 then Fault (OutOfBounds idx) else
             match compress_int_data h !! Z.to_nat idx with
             | Some _ => Ok tt (with_compress_int_data
                                  (<[Z.to_nat idx := p]> (compress_int_data h)) h) g
             | None => Fault (OutOfBounds idx)
             end.

(** A call through slot [s] of row [idx]. *)
Definition invoke (s : op_slot) (idx : Z) (f : option bop) : M Z :=
  fun h g => match f with
             | None => Fault (NullCall s idx)
             | Some f => let '(r, h', o') := f h (os g) in
                         Ok r h' (with_event (EvCall s idx) (with_os o' g))
             end.

(** ** The static helpers *)

(** The scan of [get_model]: rows from the current one on. *)
Fixpoint get_model_scan (rows : list compress_model_t) (model : string) : option Z :=
  match rows with
  | [] => None
  | r :: rest =>
      match model_name r with
      | None => Some (-1)
      | Some n => if String.eqb n model then Some (model_id r)
                  else get_model_scan rest model
      end
  end.

Definition get_model (model : string) : M Z :=
  fun h g => match get_model_scan (compress_modules_cmds g) model with
             | Some v => Ok v h g
             | None => Fault (OutOfBounds (Z.of_nat (length (compress_modules_cmds g))))
             end.

(** The scan of [get_max_model]: [idx] rows are behind. *)
Fixpoint get_max_model_scan (rows : list compress_model_t) (idx : Z) : option Z :=
  match rows with
  | [] => None
  | r :: rest =>
      match model_name r with
      | None => Some (idx - 1)
      | Some _ => get_max_model_scan rest (idx + 1)
      end
  end.

Definition get_max_model : M Z :=
  fun h g => match get_max_model_scan (compress_modules_cmds g) 0 with
             | Some v => Ok v h g
             | None => Fault (OutOfBounds (Z.of_nat (length (compress_modules_cmds g))))
             end.

(** The scan of [is_valid_model]. *)
Fixpoint is_valid_model_scan (rows : list compress_model_t) (cm : Z) : option Z :=
  match rows with
  | [] => None
  | r :: rest =>
      match model_name r with
      | None => Some (-1)
      | Some _ => if (cm =? model_id r) && (built_in r =? 1) then Some 0
                  else is_valid_model_scan rest cm
      end
  end.

Definition is_valid_model (cm : Z) : M Z :=
  fun h g => match is_valid_model_scan (compress_modules_cmds g) cm with
             | Some v => Ok v h g
             | None => Fault (OutOfBounds (Z.of_nat (length (compress_modules_cmds g))))
             end.

Definition val_level (cm level : Z) : M Z :=
  row <- get_row cm ;;
  invoke ValLevel cm (option_map (fun f => f level) (slot_val_level row)).

(** ** check_init_lib *)

(** [compress_modules_cmds[cmp_model].libref++]. *)
Definition libref_incr (cmp_model : Z) : M unit :=
  row <- get_row cmp_model ;;
  set_row cmp_model (with_libref (libref_t (libref row + 1)) row).

(** [compress_modules_cmds[idx].libref--]. *)
Definition libref_decr (idx : Z) : M unit :=
  row <- get_row idx ;;
  set_row idx (with_libref (libref_t (libref row - 1)) row).

(** [compress_modules_cmds[idx].loaded = v]. *)
Definition set_loaded (idx v : Z) : M unit :=
  row <- get_row idx ;;
  set_row idx (with_loaded v row).

(** The per-handle init and the charge, with the write lock held. *)
Definition check_init_lib_init (cmp_model : Z) : M Z :=
  row <- get_row cmp_model ;;
  match init row with
  | Some f =>
      r <- invoke Init cmp_model (Some (f cmp_model)) ;;
      if r <? 0 then
        unlock ;; ret (-1)
      else
        libref_incr cmp_model ;; ret 0
  | None =>
      set_int_data cmp_model FakeRef ;;
      libref_incr cmp_model ;; ret 0
  end.

(** The switch to the write lock and the load. *)
Definition check_init_lib_load (cmp_model : Z) : M Z :=
  unlock ;;
  savederrno <- wrlock ;;
  if negb (savederrno =? 0) then
    log_err (UnableWriteLock savederrno) ;;
    set_errno savederrno ;;
    ret (-1)
  else
    row <- get_row cmp_model ;;
    if loaded row =? 0 then
      r <- invoke LoadLib cmp_model (load_lib row) ;;
      if r <? 0 then
        now <- clock_now ;;
        set_last_load_failure now ;;
        unlock ;;
        ret (-1)
      else
        set_loaded cmp_model 1 ;;
        check_init_lib_init cmp_model
    else
      check_init_lib_init cmp_model.

(** The rate limit of the decompress path. *)
Definition check_init_lib_limit (cmp_model rate_limit : Z) : M Z :=
  if negb (rate_limit =? 0) then
    llf <- get_last_load_failure ;;
    if negb (tv_sec llf =? 0) || negb (tv_nsec llf =? 0) then
      now <- clock_now ;;
      if timespec_diff llf now <? 10000000000 then
        unlock ;;
        set_errno EAGAIN ;;
        ret (-1)
      else
        check_init_lib_load cmp_model
    else
      check_init_lib_load cmp_model
  else
    check_init_lib_load cmp_model.

(** Is the module already loaded and init for this handle?  When it is,
    [check_init_lib] returns 0 with the read lock held. *)
Definition check_init_lib_ready (cmp_model : Z) : M bool :=
  row <- get_row cmp_model ;;
  if loaded row =? 1 then
    match is_init row with
    | None =>
        p <- get_int_data cmp_model ;;
        ret (negb (is_null p))
    | Some f =>
        r <- invoke IsInit cmp_model (Some (f cmp_model)) ;;
        ret (r =? 1)
    end
  else ret false.

Definition check_init_lib (cmp_model rate_limit : Z) : M Z :=
  savederrno <- rdlock ;;
  if negb (savederrno =? 0) then
    log_err (UnableReadLock savederrno) ;;
    set_errno savederrno ;;
    ret (-1)
  else
    ready <- check_init_lib_ready cmp_model ;;
    if ready then ret 0
    else check_init_lib_limit cmp_model rate_limit.

(** ** compress_init *)

Definition compress_init : M Z :=
  mm <- get_max_model ;;
  set_max_model mm ;;
  if mm >? KNET_MAX_COMPRESS_METHODS then
    log_err TooManyMethods ;;
    set_errno EINVAL ;;
    ret (-1)
  else
    set_last_load_failure (mk_timespec 0 0) ;;
    ret 0.

(** ** compress_cfg *)

(** From the call of [check_init_lib] to the label [out_unlock]; the result
    is the pair of [savederrno] and [err]. *)
Definition compress_cfg_locked (cfg : knet_handle_compress_cfg) (cmp_model : Z)
  : M (Z * Z) :=
  r <- check_init_lib cmp_model 0 ;;
  if r <? 0 then
    e <- get_errno ;;
    log_err (UnableLoadInit (cfg_compress_model cfg) e) ;;
    ret (e, -1)
  else
    r <- val_level cmp_model (cfg_compress_level cfg) ;;
    if r <? 0 then
      log_err (LevelNotSupported (cfg_compress_level cfg) (cfg_compress_model cfg)) ;;
      ret (EINVAL, -1)
    else if cfg_compress_threshold cfg >? KNET_MAX_PACKET_SIZE then
      log_err (ThresholdTooHigh KNET_MAX_PACKET_SIZE) ;;
      ret (EINVAL, -1)
    else if cfg_compress_threshold cfg =? 0 then
      h <- get_handle ;;
      put_handle (with_compress_threshold KNET_COMPRESS_THRESHOLD h) ;;
      log_debug (ResetThreshold KNET_COMPRESS_THRESHOLD) ;;
      ret (0, 0)
    else
      h <- get_handle ;;
      put_handle (with_compress_threshold (cfg_compress_threshold cfg) h) ;;
      ret (0, 0).

(** From the label [out] on. *)
Definition compress_cfg_out (cfg : knet_handle_compress_cfg) (cmp_model : Z)
    (se : Z * Z) : M Z :=
  let '(savederrno, err) := se in
  (if err =? 0 then
     h <- get_handle ;;
     put_handle (with_compress_level (cfg_compress_level cfg)
                   (with_compress_model cmp_model h))
   else ret tt) ;;
  set_errno savederrno ;;
  ret err.

Definition compress_cfg (cfg : knet_handle_compress_cfg) : M Z :=
  log_debug (InitCompressModule (cfg_compress_model cfg) (cfg_compress_level cfg)
               (cfg_compress_threshold cfg)) ;;
  cmp_model <- get_model (cfg_compress_model cfg) ;;
  if cmp_model <? 0 then
    log_err (ModelNotSupported (cfg_compress_model cfg)) ;;
    set_errno EINVAL ;;
    ret (-1)
  else if cmp_model >? 0 then
    row <- get_row cmp_model ;;
    if built_in row =? 0 then
      log_err (ModelNotBuiltIn (cfg_compress_model cfg)) ;;
      compress_cfg_out cfg cmp_model (EINVAL, -1)
    else
      se <- compress_cfg_locked cfg cmp_model ;;
      unlock ;;
      compress_cfg_out cfg cmp_model se
  else
    compress_cfg_out cfg cmp_model (0, 0).

(** ** compress_fini *)

(** The body of the loop of [compress_fini] for a row whose name is not
    NULL. *)
Definition compress_fini_row (idx : Z) : M unit :=
  row <- get_row idx ;;
  if (built_in row =? 1) && (loaded row =? 1) && (idx <? KNET_MAX_COMPRESS_METHODS)
  then
    match fini row with
    | Some f => invoke Fini idx (Some (f idx)) ;; ret tt
    | None => set_int_data idx NULL
    end ;;
    libref_decr idx ;;
    row <- get_row idx ;;
    if (libref row =? 0) && (loaded row =? 1) then
      log_debug (UnloadingLibrary (model_name row)) ;;
      invoke UnloadLib idx (unload_lib row) ;;
      set_loaded idx 0
    else ret tt
  else ret tt.

(** The loop of [compress_fini] from [idx] on; [n] bounds the rows still to
    visit, and running past the array is out of bounds. *)
Fixpoint compress_fini_loop (n : nat) (idx : Z) : M unit :=
  row <- get_row idx ;;
  match model_name row with
  | None => ret tt
  | Some _ =>
      compress_fini_row idx ;;
      match n with
      | O => crash (OutOfBounds (idx + 1))
      | S n' => compress_fini_loop n' (idx + 1)
      end
  end.

Definition compress_fini : M unit :=
  savederrno <- wrlock ;;
  if negb (savederrno =? 0) then
    log_err (UnableWriteLock savederrno)
  else
    n <- table_length ;;
    compress_fini_loop n 0 ;;
    unlock.

(** ** compress and decompress *)

Definition compress (buf_in : list Byte.byte) (buf_in_len buf_out buf_out_len : Z)
  : M Z :=
  h <- get_handle ;;
  r <- check_init_lib (compress_model h) 0 ;;
  if r <? 0 then
    savederrno <- get_errno ;;
    h <- get_handle ;;
    row <- get_row (compress_model h) ;;
    log_err (UnableLoadInitCompress (model_name row) savederrno) ;;
    ret (-1)
  else
    h <- get_handle ;;
    row <- get_row (compress_model h) ;;
    err <- invoke Compress (compress_model h)
             (option_map (fun f => f buf_in buf_in_len buf_out buf_out_len)
                         (slot_compress row)) ;;
    savederrno <- get_errno ;;
    unlock ;;
    set_errno savederrno ;;
    ret err.

Definition decompress (cm : Z) (buf_in : list Byte.byte)
    (buf_in_len buf_out buf_out_len : Z) : M Z :=
  mm <- get_max_model_var ;;
  if cm >? mm then
    log_err (UnknownModel cm) ;;
    set_errno EINVAL ;;
    ret (-1)
  else
    v <- is_valid_model cm ;;
    if v <? 0 then
      row <- get_row cm ;;
      log_err (PacketNotBuiltIn (model_name row)) ;;
      set_errno EINVAL ;;
      ret (-1)
    else
      r <- check_init_lib cm 1 ;;
      if r <? 0 then
        savederrno <- get_errno ;;
        row <- get_row cm ;;
        log_err (UnableLoadInitDecompress (model_name row) savederrno) ;;
        ret (-1)
      else
        row <- get_row cm ;;
        err <- invoke Decompress cm
                 (option_map (fun f => f buf_in buf_in_len buf_out buf_out_len)
                             (slot_decompress row)) ;;
        savederrno <- get_errno ;;
        unlock ;;
        set_errno savederrno ;;
        ret err.

(** ** The table *)

(** A transform entry point of a back-end: input buffer, its length, the
    output buffer and the place of its length. *)
Definition xform : Type := list Byte.byte -> Z -> Z -> Z -> bop.

(** The entry points of the codec adapters (compress_zlib.h and the
    like), which are not part of the sources. *)
Record codecs := mk_codecs {
  zlib_load_lib : bop; zlib_unload_lib : bop;
  zlib_val_level : Z -> bop; zlib_compress : xform; zlib_decompress : xform;
  lz4_load_lib : bop; lz4_unload_lib : bop;
  lz4_val_level : Z -> bop; lz4_compress : xform; lz4_decompress : xform;
  lz4hc_val_level : Z -> bop; lz4hc_compress : xform;
  lzo2_load_lib : bop; lzo2_unload_lib : bop;
  lzo2_is_init : Z -> bop; lzo2_init : Z -> bop; lzo2_fini : Z -> bop;
  lzo2_val_level : Z -> bop; lzo2_compress : xform; lzo2_decompress : xform;
  lzma_load_lib : bop; lzma_unload_lib : bop;
  lzma_val_level : Z -> bop; lzma_compress : xform; lzma_decompress : xform;
  bzip2_load_lib : bop; bzip2_unload_lib : bop;
  bzip2_val_level : Z -> bop; bzip2_compress : xform; bzip2_decompress : xform
}.

(** The macro [empty_module], after a name and an id. *)
Definition empty_module (name : option string) (id : Z) : compress_model_t :=
  mk_model name id 0 None None 0 0 None None None None None None.

(** A row of a codec that is built in. *)
Definition module (name : string) (id : Z) (load unload : bop)
    (isinit ini fin : option (Z -> bop)) (val : Z -> bop) (comp decomp : xform)
  : compress_model_t :=
  mk_model (Some name) id 1 (Some load) (Some unload) 0 0 isinit ini fin
           (Some val) (Some comp) (Some decomp).

(** The initialiser of [compress_modules_cmds], under the build flags [b]
    and with the adapters [c]. *)
Definition compress_modules_cmds_init (b : build_config) (c : codecs)
  : list compress_model_t :=
  [ empty_module (Some "none") 0;
    if BUILDCOMPZLIB b then
      module "zlib" 1 (zlib_load_lib c) (zlib_unload_lib c) None None None
             (zlib_val_level c) (zlib_compress c) (zlib_decompress c)
    else empty_module (Some "zlib") 1;
    if BUILDCOMPLZ4 b then
      module "lz4" 2 (lz4_load_lib c) (lz4_unload_lib c) None None None
             (lz4_val_level c) (lz4_compress c) (lz4_decompress c)
    else empty_module (Some "lz4") 2;
    if BUILDCOMPLZ4 b then
      module "lz4hc" 3 (lz4_load_lib c) (lz4_unload_lib c) None None None
             (lz4hc_val_level c) (lz4hc_compress c) (lz4_decompress c)
    else empty_module (Some "lz4hc") 3;
    if BUILDCOMPLZO2 b then
      module "lzo2" 4 (lzo2_load_lib c) (lzo2_unload_lib c)
             (Some (lzo2_is_init c)) (Some (lzo2_init c)) (Some (lzo2_fini c))
             (lzo2_val_level c) (lzo2_compress c) (lzo2_decompress c)
    else empty_module (Some "lzo2") 4;
    if BUILDCOMPLZMA b then
      module "lzma" 5 (lzma_load_lib c) (lzma_unload_lib c) None None None
             (lzma_val_level c) (lzma_compress c) (lzma_decompress c)
    else empty_module (Some "lzma") 5;
    if BUILDCOMPBZIP2 b then
      module "bzip2" 6 (bzip2_load_lib c) (bzip2_unload_lib c) None None None
             (bzip2_val_level c) (bzip2_compress c) (bzip2_decompress c)
    else empty_module (Some "bzip2") 6;
    empty_module None 255 ].

(** The globals as the loader leaves them: the table as initialised,
    [max_model] and [last_load_failure] zero. *)
Definition initial_global (b : build_config) (c : codecs) (o : os_state) : global :=
  mk_global (compress_modules_cmds_init b c) 0 (mk_timespec 0 0) o [].

(** Two tables with the same rows up to the bookkeeping fields [libref] and
    [loaded]: names, ids and build flags agree. *)
Definition same_static (r1 r2 : compress_model_t) : Prop :=
  model_name r1 = model_name r2 /\ model_id r1 = model_id r2 /\
  built_in r1 = built_in r2.

(** ** Invariants *)

(** Invariant 2 of the data model on one row, with [loaded] a flag. *)
Definition row_inv (r : compress_model_t) : Prop :=
  (loaded r = 0 \/ loaded r = 1) /\ (0 < libref r -> loaded r = 1).

Definition table_inv (t : list compress_model_t) : Prop :=
  forall (i : nat) (r : compress_model_t), t !! i = Some r -> row_inv r.

(** Every row before the sentinel sits at the index that is its id. *)
Definition ids_are_indices (t : list compress_model_t) : Prop :=
  forall (i : nat) (r : compress_model_t),
    t !! i = Some r -> model_name r <> None -> model_id r = Z.of_nat i.

(** From the table [t0] to the table [t], a row that was loaded and no
    longer is has a [libref] of zero. *)
Definition unloaded_at_zero (t0 t : list compress_model_t) : Prop :=
  forall (i : nat) (r0 r1 : compress_model_t),
    t0 !! i = Some r0 -> t !! i = Some r1 ->
    loaded r0 = 1 -> loaded r1 <> 1 -> libref r1 = 0.

(** The table is closed by a row whose name is NULL. *)
Definition has_sentinel (t : list compress_model_t) : Prop :=
  exists (i : nat) (r : compress_model_t), t !! i = Some r /\ model_name r = None.

(** The globals after a call that only logged [m] as an error and set
    [errno] to [e]. *)
Definition rejected (m : log_msg) (e : Z) (g : global) : global :=
  with_os (mk_os e (ext (os g))) (with_event (EvErr m) g).

(** The globals after the transform of slot [s] of row [idx] left [o], from
    the globals [g] in which it was called: the call, the unlock, and
    [errno] as the transform left it. *)
Definition transformed (s : op_slot) (idx : Z) (o : os_state) (g : global) : global :=
  with_os (mk_os (errno o) (pthread_rwlock_unlock (ext o)))
          (with_event EvUnlock (with_event (EvCall s idx) (with_os o g))).

(** The handle holds a charge on row [idx] in the sense of the comment in
    [check_init_lib]: for a row without [is_init], the fake reference (or
    any non-NULL pointer) sits in its slot. *)
Definition holds_charge (h : knet_handle) (idx : Z) : bool :=
  match compress_int_data h !! Z.to_nat idx with
  | Some p => negb (is_null p)
  | None => false
  end.

(** The row after a charge: [libref] one up, [loaded] set. *)
Definition charged (r0 r1 : compress_model_t) : Prop :=
  r1 = with_libref (libref_t (libref r0 + 1)) r0 \/
  r1 = with_libref (libref_t (libref r0 + 1)) (with_loaded 1 r0).

(** Row [m] of [t0] took a charge, which gave [t]. *)
Definition charge_taken (m : Z) (t0 t : list compress_model_t) : Prop :=
  exists r0 r1, t0 !! Z.to_nat m = Some r0 /\ charged r0 r1 /\
                t = <[Z.to_nat m := r1]> t0.

(** The table after the write-lock part of [check_init_lib m] from the
    table [t0]: on success row [m] took a charge; on failure either nothing
    changed or row [m] was loaded and not charged. *)
Definition ensured_load (m : Z) (t0 : list compress_model_t) (r : Z)
    (t : list compress_model_t) : Prop :=
  (r = 0 /\ charge_taken m t0 t) \/
  (r = -1 /\ (t = t0 \/
              exists r0, t0 !! Z.to_nat m = Some r0 /\ loaded r0 = 0 /\
                         t = <[Z.to_nat m := with_loaded 1 r0]> t0)).

(** The table after [check_init_lib m] from the table [t0]: as above, or
    success with nothing changed. *)
Definition ensured (m : Z) (t0 : list compress_model_t) (r : Z)
    (t : list compress_model_t) : Prop :=
  (r = 0 /\ t = t0) \/ ensured_load m t0 r t.

(** The globals after the debug line that opens [compress_cfg]. *)
Definition cfg_logged (cfg : knet_handle_compress_cfg) (g : global) : global :=
  with_event (EvDebug (InitCompressModule (cfg_compress_model cfg)
                         (cfg_compress_level cfg) (cfg_compress_threshold cfg))) g.

(** The globals after [check_init_lib] refused a call because of the rate
    limit: the read lock released and [errno] set to EAGAIN. *)
Definition limited (g : global) : global :=
  with_os (mk_os EAGAIN (pthread_rwlock_unlock (ext (os g)))) (with_event EvUnlock g).

(** Two rows that differ in the bookkeeping fields [libref] and [loaded]
    at most. *)
Definition static_eq (r1 r2 : compress_model_t) : Prop :=
  with_libref 0 (with_loaded 0 r1) = with_libref 0 (with_loaded 0 r2).

(** Two tables of the same length whose rows differ in the bookkeeping
    fields at most. *)
Definition static_table (t0 t : list compress_model_t) : Prop :=
  Forall2 static_eq t0 t.

(** Every row that is built in carries the five slots that every codec
    provides. *)
Definition complete_rows (t : list compress_model_t) : Prop :=
  forall (i : nat) (r : compress_model_t),
    t !! i = Some r -> built_in r <> 0 ->
    load_lib r <> None /\ unload_lib r <> None /\ slot_val_level r <> None /\
    slot_compress r <> None /\ slot_decompress r <> None.

(** Row [m], if there is one, is built in. *)
Definition usable (m : Z) (t : list compress_model_t) : Prop :=
  forall r : compress_model_t, t !! Z.to_nat m = Some r -> built_in r <> 0.

(** Row [idx] as one pass of the loop of [compress_fini] leaves it. *)
Definition finalised (idx : Z) (r : compress_model_t) : compress_model_t :=
  if (built_in r =? 1) && (loaded r =? 1) && (idx <? KNET_MAX_COMPRESS_METHODS) then
    if libref_t (libref r - 1) =? 0 then
      with_loaded 0 (with_libref (libref_t (libref r - 1)) r)
    else with_libref (libref_t (libref r - 1)) r
  else r.

(** The rows from index [idx] on, each as the loop leaves it. *)
Fixpoint finalise_from (idx : Z) (rows : list compress_model_t)
  : list compress_model_t :=
  match rows with
  | [] => []
  | r :: rest => finalised idx r :: finalise_from (idx + 1) rest
  end.

End Dispatcher.

Arguments Ok {W A} a h g.
Arguments Fault {W A} f.

(** ** Reasoning about the table across a call

    [tbl_hoare P m Q]: from a table that satisfies [P], whenever [m]
    returns, the result and the table it leaves satisfy [Q]. *)
Definition tbl_hoare {W : Type} {A : Type}
    (P : list (@compress_model_t W) -> Prop) (m : @M W A)
    (Q : A -> list (@compress_model_t W) -> Prop) : Prop :=
  forall h g, P (compress_modules_cmds g) ->
    match m h g with
    | Ok a _ g' => Q a (compress_modules_cmds g')
    | Fault _ => True
    end.

(** [m] leaves the table alone. *)
Definition tbl_keep {W : Type} {A : Type} (m : @M W A) : Prop :=
  forall h g,
    match m h g with
    | Ok _ _ g' => compress_modules_cmds g' = compress_modules_cmds g
    | Fault _ => True
    end.

(** ** Reasoning about a view of the globals across a call

    [view_hoare view bad Pre m Q]: from globals whose view satisfies [Pre],
    a return of [m] leaves a result and a view that satisfy [Q], and [m]
    does not end in a fault that is [bad]. *)
Definition view_hoare {W V A : Type} (view : @global W -> V) (bad : fault -> Prop)
    (Pre : V -> Prop) (m : @M W A) (Q : A -> V -> Prop) : Prop :=
  forall h g, Pre (view g) ->
    match m h g with
    | Ok a _ g' => Q a (view g')
    | Fault f => ~ bad f
    end.

(** [m] leaves the view alone and does not end in a [bad] fault. *)
Definition view_keep {W V A : Type} (view : @global W -> V) (bad : fault -> Prop)
    (m : @M W A) : Prop :=
  forall h g,
    match m h g with
    | Ok _ _ g' => view g' = view g
    | Fault f => ~ bad f
    end.

(** What an event does to the number of holds on [shlib_rwlock]: a lock
    call that returned 0 adds one, a call of [pthread_rwlock_unlock] takes
    one away. *)
Definition lock_delta (e : event) : Z :=
  match e with
  | EvRdLock r | EvWrLock r => if r =? 0 then 1 else 0
  | EvUnlock => -1
  | _ => 0
  end.

(** Locks taken minus unlock calls, over a trace. *)
Fixpoint held (t : list event) : Z :=
  match t with
  | [] => 0
  | e :: t' => lock_delta e + held t'
  end.

Definition lock_balance {W : Type} (g : @global W) : Z := held (trace g).

(** No fault is excluded. *)
Definition any_fault (f : fault) : Prop := False.

(** The fault of a call through a NULL slot. *)
Definition is_null_call (f : fault) : Prop :=
  match f with
  | NullCall _ _ => True
  | OutOfBounds _ => False
  end.

(** ** A simulated platform

    A clock that the test moves by hand, a lock that is always free, and
    codecs that do nothing but report success; [sim_lib] says whether the
    shared libraries can be loaded. *)
Module Sim.

Record world := mk_world { sim_now : timespec; sim_lib : bool }.

#[global] Instance sim : platform world := {|
  pthread_rwlock_rdlock := fun w => (0, w);
  pthread_rwlock_wrlock := fun w => (0, w);
  pthread_rwlock_unlock := fun w => w;
  clock_gettime := sim_now;
  KNET_MAX_COMPRESS_METHODS := 255;
  KNET_MAX_PACKET_SIZE := 65536;
  KNET_COMPRESS_THRESHOLD := 100;
  libref_t := fun z => z mod 256
|}.

(** The same platform with room for six methods only. *)
Definition sim6 : platform world := {|
  pthread_rwlock_rdlock := fun w => (0, w);
  pthread_rwlock_wrlock := fun w => (0, w);
  pthread_rwlock_unlock := fun w => w;
  clock_gettime := sim_now;
  KNET_MAX_COMPRESS_METHODS := 6;
  KNET_MAX_PACKET_SIZE := 65536;
  KNET_COMPRESS_THRESHOLD := 100;
  libref_t := fun z => z mod 256
|}.

Definition ENOENT : Z := 2.

Definition load : @bop world :=
  fun h o => if sim_lib (ext o) then (0, h, o) else (-1, h, mk_os ENOENT (ext o)).
Definition nop : @bop world := fun h o => (0, h, o).
Definition level_1_9 (level : Z) : @bop world :=
  fun h o => if (1 <=? level) && (level <=? 9) then (0, h, o)
             else (-1, h, mk_os EINVAL (ext o)).
Definition copy : @xform world := fun _ _ _ _ => nop.
Definition slot_is_set (idx : Z) : @bop world :=
  fun h o => match compress_int_data h !! Z.to_nat idx with
             | Some (Addr _) => (1, h, o)
             | _ => (0, h, o)
             end.
Definition slot_alloc (idx : Z) : @bop world :=
  fun h o => (0, with_compress_int_data
                   (<[Z.to_nat idx := Addr 4096]> (compress_int_data h)) h, o).
Definition slot_free (idx : Z) : @bop world :=
  fun h o => (0, with_compress_int_data
                   (<[Z.to_nat idx := NULL]> (compress_int_data h)) h, o).

Definition adapters : @codecs world :=
  mk_codecs load nop level_1_9 copy copy
            load nop level_1_9 copy copy level_1_9 copy
            load nop slot_is_set slot_alloc slot_free level_1_9 copy copy
            load nop level_1_9 copy copy
            load nop level_1_9 copy copy.

Definition all_built : build_config := mk_build true true true true true.
Definition only_zlib : build_config := mk_build true false false false false.

(** A handle that was never configured. *)
Definition fresh_handle : knet_handle := mk_handle 0 0 0 (replicate 255 NULL).

(** The process at start, at time [t] seconds. *)
Definition start (b : build_config) (t : Z) (lib : bool) : @global world :=
  initial_global b adapters (mk_os 0 (mk_world (mk_timespec t 0) lib)).

(** Row [i] of the table with everything built, as initialised. *)
Definition start_row (i : nat) : @compress_model_t world :=
  default (empty_module None 255) (compress_modules_cmds_init all_built adapters !! i).

(** Move the clock to [t] seconds. *)
Definition at_time (t : Z) (g : @global world) : @global world :=
  with_os (mk_os (errno (os g)) (mk_world (mk_timespec t 0) (sim_lib (ext (os g))))) g.

(** Run [m] and keep going with the handle and globals it leaves; a fault
    leaves the inputs in place. *)
Definition after {A} (m : @M world A) (hg : knet_handle * @global world)
  : knet_handle * @global world :=
  match m (fst hg) (snd hg) with
  | Ok _ h' g' => (h', g')
  | Fault _ => hg
  end.

(** Make the shared libraries loadable or not. *)
Definition with_lib (lib : bool) (g : @global world) : @global world :=
  with_os (mk_os (errno (os g)) (mk_world (sim_now (ext (os g))) lib)) g.

(** What a call returned and the [errno] it left. *)
Definition returned {A} (r : @result world A) : option (A * Z) :=
  match r with
  | Ok a _ g => Some (a, errno (os g))
  | Fault _ => None
  end.

Definition zlib_cfg (level threshold : Z) : knet_handle_compress_cfg :=
  mk_cfg "zlib" level threshold.

(** A process in which [compress_init] has run at time 1. *)
Definition booted (b : build_config) (lib : bool) : knet_handle * @global world :=
  after compress_init (fresh_handle, start b 1 lib).

(** A handle configured for zlib at level 5 in a process where the library
    loads. *)
Definition zlib_user : knet_handle * @global world :=
  after (compress_cfg (zlib_cfg 5 0)) (booted all_built true).

(** Later the libraries are gone, and at time 5 a packet tagged lzma (5)
    arrives for [zlib_user]: the load of lzma fails. *)
Definition lzma_failed : knet_handle * @global world :=
  after (decompress 5 [] 0 0 0)
        (fst zlib_user, at_time 5 (with_lib false (snd zlib_user))).

(** A process without loadable libraries in which a packet tagged zlib (1)
    arrived at time 5 for a handle that was never configured. *)
Definition zlib_failed : knet_handle * @global world :=
  after (decompress 1 [] 0 0 0)
        (fst (booted all_built false), at_time 5 (snd (booted all_built false))).

(** [libref] and [loaded] of row [idx]. *)
Definition bookkeeping (g : @global world) (idx : nat) : option (Z * Z) :=
  match compress_modules_cmds g !! idx with
  | Some r => Some (libref r, loaded r)
  | None => None
  end.

Definition EDEADLK : Z := 35.

(** The same platform with a lock whose calls return [rd] and [wr]. *)
Definition locked_out (rd wr : Z) : platform world := {|
  pthread_rwlock_rdlock := fun w => (rd, w);
  pthread_rwlock_wrlock := fun w => (wr, w);
  pthread_rwlock_unlock := fun w => w;
  clock_gettime := sim_now;
  KNET_MAX_COMPRESS_METHODS := 255;
  KNET_MAX_PACKET_SIZE := 65536;
  KNET_COMPRESS_THRESHOLD := 100;
  libref_t := fun z => z mod 256
|}.

Definition ENOMEM : Z := 12.

(** An [init] hook that fails. *)
Definition slot_refuse (idx : Z) : @bop world :=
  fun h o => (-1, h, mk_os ENOMEM (ext o)).

(** The adapters with an lzo2 whose per-handle init fails. *)
Definition refusing : @codecs world :=
  mk_codecs load nop level_1_9 copy copy
            load nop level_1_9 copy copy level_1_9 copy
            load nop slot_is_set slot_refuse slot_free level_1_9 copy copy
            load nop level_1_9 copy copy
            load nop level_1_9 copy copy.

(** A process with these adapters in which [compress_init] has run at
    time 1; the libraries load. *)
Definition booted_refusing : knet_handle * @global world :=
  after compress_init
        (fresh_handle,
         initial_global all_built refusing (mk_os 0 (mk_world (mk_timespec 1 0) true))).

(** A handle that asked for lzo2 there: the library loaded and the init
    of the handle failed. *)
Definition lzo2_refused : knet_handle * @global world :=
  after (compress_cfg (mk_cfg "lzo2" 5 0)) booted_refusing.

(** Row 4 of the table with these adapters, as initialised. *)
Definition lzo2_row : @compress_model_t world :=
  default (empty_module None 255)
          (compress_modules_cmds_init all_built refusing !! 4%nat).

(** With a cap of six methods: a handle configured for bzip2 (id 6) at
    level 5 after [compress_init]. *)
Definition bzip2_user6 : knet_handle * @global world :=
  after (@compress_cfg world sim6 (mk_cfg "bzip2" 5 0))
        (after (@compress_init world sim6) (fresh_handle, start all_built 1 true)).

End Sim.

(** * Properties *)

Section Properties.

Context {W : Type} {P : platform W}.

Local Abbreviation row := (@compress_model_t W).
Local Abbreviation table := (list (@compress_model_t W)).

(** ** Rules for [tbl_hoare] *)

Lemma hoare_ret {A} (Pre : table -> Prop) (a : A) (Q : A -> table -> Prop) :
  (forall t, Pre t -> Q a t) -> tbl_hoare Pre (ret a) Q.
Proof. intros HQ h g Hg. simpl. auto. Qed.

Lemma hoare_bind {A B} (Pre : table -> Prop) (R : A -> table -> Prop)
    (Q : B -> table -> Prop) (m : M A) (k : A -> M B) :
  tbl_hoare Pre m R -> (forall a, tbl_hoare (R a) (k a) Q) ->
  tbl_hoare Pre (bind m k) Q.
Proof.
  intros Hm Hk h g Hg. unfold bind. specialize (Hm h g Hg).
  destruct (m h g) as [a h' g'|f]; [|exact I].
  apply (Hk a h' g' Hm).
Qed.

Lemma hoare_post {A} (Pre : table -> Prop) (R Q : A -> table -> Prop) (m : M A) :
  tbl_hoare Pre m R -> (forall a t, R a t -> Q a t) -> tbl_hoare Pre m Q.
Proof.
  intros Hm HQ h g Hg. specialize (Hm h g Hg).
  destruct (m h g); auto.
Qed.

Lemma hoare_pre {A} (Pre Pre' : table -> Prop) (Q : A -> table -> Prop) (m : M A) :
  tbl_hoare Pre' m Q -> (forall t, Pre t -> Pre' t) -> tbl_hoare Pre m Q.
Proof. intros Hm HP h g Hg. apply Hm. auto. Qed.

Lemma hoare_assoc {A B C} (Pre : table -> Prop) (Q : C -> table -> Prop)
    (m : M A) (k1 : A -> M B) (k2 : B -> M C) :
  tbl_hoare Pre (bind m (fun a => bind (k1 a) k2)) Q ->
  tbl_hoare Pre (bind (bind m k1) k2) Q.
Proof.
  intros H h g Hg. specialize (H h g Hg). unfold bind in *.
  destruct (m h g); exact H.
Qed.

Lemma hoare_crash {A} (Pre : table -> Prop) (Q : A -> table -> Prop) (f : fault) :
  tbl_hoare Pre (crash f) Q.
Proof. intros h g _. exact I. Qed.

Lemma hoare_keep {A} (Pre : table -> Prop) (m : M A) :
  tbl_keep m -> tbl_hoare Pre m (fun _ t => Pre t).
Proof.
  intros Hk h g Hg. specialize (Hk h g).
  destruct (m h g); [rewrite Hk; exact Hg | exact I].
Qed.

Lemma hoare_get_row (Pre : table -> Prop) (idx : Z) :
  tbl_hoare Pre (get_row idx)
            (fun r t => Pre t /\ t !! Z.to_nat idx = Some r).
Proof.
  intros h g Hg. unfold get_row.
  destruct (idx <? 0); [exact I|].
  destruct (compress_modules_cmds g !! Z.to_nat idx) eqn:E; [|exact I].
  split; assumption.
Qed.

Lemma hoare_set_row (Pre : table -> Prop) (idx : Z) (r : row) :
  tbl_hoare Pre (set_row idx r)
            (fun _ t => exists t0, Pre t0 /\ t = <[Z.to_nat idx := r]> t0).
Proof. intros h g Hg. simpl. eauto. Qed.

(** The steps that leave the table alone. *)
Lemma keep_emit e : tbl_keep (W:=W) (emit e).
Proof. intros h g. reflexivity. Qed.
Lemma keep_log_err m : tbl_keep (W:=W) (log_err m).
Proof. intros h g. reflexivity. Qed.
Lemma keep_log_debug m : tbl_keep (W:=W) (log_debug m).
Proof. intros h g. reflexivity. Qed.
Lemma keep_get_errno : tbl_keep (W:=W) get_errno.
Proof. intros h g. reflexivity. Qed.
Lemma keep_set_errno e : tbl_keep (W:=W) (set_errno e).
Proof. intros h g. reflexivity. Qed.
Lemma keep_rdlock : tbl_keep (W:=W) rdlock.
Proof. intros h g. unfold rdlock. destruct (pthread_rwlock_rdlock _). reflexivity. Qed.
Lemma keep_wrlock : tbl_keep (W:=W) wrlock.
Proof. intros h g. unfold wrlock. destruct (pthread_rwlock_wrlock _). reflexivity. Qed.
Lemma keep_unlock : tbl_keep (W:=W) unlock.
Proof. intros h g. reflexivity. Qed.
Lemma keep_clock_now : tbl_keep (W:=W) clock_now.
Proof. intros h g. reflexivity. Qed.
Lemma keep_get_last_load_failure : tbl_keep (W:=W) get_last_load_failure.
Proof. intros h g. reflexivity. Qed.
Lemma keep_set_last_load_failure t : tbl_keep (W:=W) (set_last_load_failure t).
Proof. intros h g. reflexivity. Qed.
Lemma keep_get_max_model_var : tbl_keep (W:=W) get_max_model_var.
Proof. intros h g. reflexivity. Qed.
Lemma keep_set_max_model m : tbl_keep (W:=W) (set_max_model m).
Proof. intros h g. reflexivity. Qed.
Lemma keep_table_length : tbl_keep (W:=W) table_length.
Proof. intros h g. reflexivity. Qed.
Lemma keep_get_handle : tbl_keep (W:=W) get_handle.
Proof. intros h g. reflexivity. Qed.
Lemma keep_put_handle h' : tbl_keep (W:=W) (put_handle h').
Proof. intros h g. reflexivity. Qed.
Lemma keep_get_int_data idx : tbl_keep (W:=W) (get_int_data idx).
Proof.
  intros h g. unfold get_int_data.
  destruct (idx <? 0); [exact I|]. destruct (_ !! _); [reflexivity|exact I].
Qed.
Lemma keep_set_int_data idx p : tbl_keep (W:=W) (set_int_data idx p).
Proof.
  intros h g. unfold set_int_data.
  destruct (idx <? 0); [exact I|]. destruct (_ !! _); [reflexivity|exact I].
Qed.
Lemma keep_invoke s idx f : tbl_keep (W:=W) (invoke s idx f).
Proof.
  intros h g. unfold invoke. destruct f as [f|]; [|exact I].
  destruct (f h (os g)) as [[r h'] o']. reflexivity.
Qed.
Lemma keep_get_model m : tbl_keep (W:=W) (get_model m).
Proof. intros h g. unfold get_model. destruct (get_model_scan _ _); [reflexivity|exact I]. Qed.
Lemma keep_get_max_model : tbl_keep (W:=W) get_max_model.
Proof. intros h g. unfold get_max_model. destruct (get_max_model_scan _ _); [reflexivity|exact I]. Qed.
Lemma keep_is_valid_model m : tbl_keep (W:=W) (is_valid_model m).
Proof. intros h g. unfold is_valid_model. destruct (is_valid_model_scan _ _); [reflexivity|exact I]. Qed.

Create HintDb keep discriminated.
#[local] Hint Resolve keep_emit keep_log_err keep_log_debug keep_get_errno
  keep_set_errno keep_rdlock keep_wrlock keep_unlock keep_clock_now
  keep_get_last_load_failure keep_set_last_load_failure keep_get_max_model_var
  keep_set_max_model keep_table_length keep_get_handle keep_put_handle
  keep_get_int_data keep_set_int_data keep_invoke keep_get_model
  keep_get_max_model keep_is_valid_model : keep.

(** One step of a forward walk through a monadic program: the rule for the
    head of a [bind], a case split, or the implication at a [ret]. *)
Ltac hoare_head :=
  first [ apply hoare_get_row
        | apply hoare_set_row
        | apply hoare_keep; solve [auto with keep] ].

Ltac hoare_step :=
  lazymatch goal with
  | |- tbl_hoare _ (bind (bind _ _) _) _ => apply hoare_assoc
  | |- tbl_hoare _ (bind (if ?b then _ else _) _) _ => destruct b eqn:?
  | |- tbl_hoare _ (bind (match ?o with Some _ => _ | None => _ end) _) _ =>
      destruct o eqn:?
  | |- tbl_hoare _ (bind _ _) _ =>
      eapply hoare_bind; [hoare_head | intros; cbv beta]
  | |- tbl_hoare _ (ret _) _ => apply hoare_ret; intros; cbv beta in *
  | |- tbl_hoare _ (crash _) _ => apply hoare_crash
  | |- tbl_hoare _ (if ?b then _ else _) _ => destruct b eqn:?
  | |- tbl_hoare _ (match ?o with Some _ => _ | None => _ end) _ =>
      destruct o eqn:?
  | |- tbl_hoare _ _ _ =>
      eapply hoare_post; [hoare_head | intros; cbv beta in *]
  end.

(** ** The invariant [libref > 0 -> loaded = 1] *)

Lemma table_inv_insert (t : table) (i : nat) (r : row) :
  table_inv t -> row_inv r -> table_inv (<[i := r]> t).
Proof.
  intros Ht Hr j r' Hj.
  apply list_lookup_insert_Some in Hj as [(-> & -> & _) | (_ & Hj)]; eauto.
Qed.

Lemma row_inv_loaded (r : row) (n : Z) : loaded r = 1 -> row_inv (with_libref n r).
Proof. intros H. split; simpl; auto. Qed.

Lemma row_inv_set_loaded (r : row) : row_inv (with_loaded 1 r).
Proof. split; simpl; auto. Qed.

Lemma row_inv_unloaded (r : row) : libref r = 0 -> row_inv (with_loaded 0 r).
Proof. intros H. split; simpl; auto. rewrite H. lia. Qed.

Ltac unpack :=
  repeat match goal with
         | H : _ /\ _ |- _ => destruct H
         | H : exists _, _ |- _ => destruct H
         end; subst.

Lemma inv_check_init_lib_init (m : Z) :
  tbl_hoare (fun t => table_inv t /\ forall r : row, t !! Z.to_nat m = Some r -> loaded r = 1)
            (check_init_lib_init m) (fun _ t => table_inv t).
Proof.
  unfold check_init_lib_init, libref_incr.
  repeat hoare_step; unpack.
  all: try assumption.
  all: try (apply table_inv_insert; [assumption | apply row_inv_loaded; auto]).
Qed.

Lemma inv_check_init_lib_load (m : Z) :
  tbl_hoare table_inv (check_init_lib_load m) (fun _ t => table_inv t).
Proof.
  unfold check_init_lib_load, set_loaded.
  repeat hoare_step; unpack; try assumption.
  - eapply hoare_pre; [apply inv_check_init_lib_init|].
    intros t Ht; unpack. split.
    + apply table_inv_insert; [assumption | apply row_inv_set_loaded].
    + intros r Hr.
      apply list_lookup_insert_Some in Hr as [(_ & <- & _) | (Hne & _)];
        [reflexivity | congruence].
  - eapply hoare_pre; [apply inv_check_init_lib_init|].
    intros t Ht; unpack. split; [assumption|].
    intros r Hr.
    match goal with
    | Hi : table_inv t, Ha : t !! _ = Some ?a, Hb : (loaded ?a =? 0) = false |- _ =>
        assert (r = a) by congruence; subst r;
        destruct (Hi _ _ Ha) as [[Hl0|Hl1] _];
        [rewrite Hl0 in Hb; discriminate | exact Hl1]
    end.
Qed.

Lemma inv_check_init_lib_limit (m rl : Z) :
  tbl_hoare table_inv (check_init_lib_limit m rl) (fun _ t => table_inv t).
Proof.
  unfold check_init_lib_limit.
  repeat hoare_step; unpack; try assumption.
  all: eapply hoare_pre; [apply inv_check_init_lib_load | intros; unpack; assumption].
Qed.

Lemma inv_check_init_lib (m rl : Z) :
  tbl_hoare table_inv (check_init_lib m rl) (fun _ t => table_inv t).
Proof.
  unfold check_init_lib, check_init_lib_ready.
  repeat hoare_step; unpack; try assumption.
  all: eapply hoare_pre; [apply inv_check_init_lib_limit | intros; unpack; assumption].
Qed.

Ltac by_inv lem :=
  eapply hoare_pre; [apply lem | intros; unpack; assumption].

Lemma inv_compress_init :
  tbl_hoare (W:=W) table_inv compress_init (fun _ t => table_inv t).
Proof.
  unfold compress_init.
  repeat hoare_step; unpack; assumption.
Qed.

Lemma inv_compress_cfg_out (cfg : knet_handle_compress_cfg) (m : Z) (se : Z * Z) :
  tbl_hoare (W:=W) table_inv (compress_cfg_out cfg m se) (fun _ t => table_inv t).
Proof.
  unfold compress_cfg_out. destruct se as [savederrno err].
  repeat hoare_step; unpack; assumption.
Qed.

Lemma inv_compress_cfg_locked (cfg : knet_handle_compress_cfg) (m : Z) :
  tbl_hoare (W:=W) table_inv (compress_cfg_locked cfg m) (fun _ t => table_inv t).
Proof.
  unfold compress_cfg_locked, val_level.
  eapply hoare_bind; [apply inv_check_init_lib | intros; cbv beta].
  repeat hoare_step; unpack; assumption.
Qed.

Lemma inv_compress_cfg (cfg : knet_handle_compress_cfg) :
  tbl_hoare (W:=W) table_inv (compress_cfg cfg) (fun _ t => table_inv t).
Proof.
  unfold compress_cfg.
  repeat hoare_step; unpack; try assumption.
  eapply hoare_bind; [by_inv inv_compress_cfg_locked | intros; cbv beta].
  repeat hoare_step; unpack; try assumption.
  by_inv inv_compress_cfg_out.
Qed.

Lemma inv_compress (buf_in : list Byte.byte) (buf_in_len buf_out buf_out_len : Z) :
  tbl_hoare (W:=W) table_inv (compress buf_in buf_in_len buf_out buf_out_len)
            (fun _ t => table_inv t).
Proof.
  unfold compress.
  hoare_step.
  eapply hoare_bind; [by_inv inv_check_init_lib | intros; cbv beta].
  repeat hoare_step; unpack; assumption.
Qed.

Lemma inv_decompress (cm : Z) (buf_in : list Byte.byte)
    (buf_in_len buf_out buf_out_len : Z) :
  tbl_hoare (W:=W) table_inv (decompress cm buf_in buf_in_len buf_out buf_out_len)
            (fun _ t => table_inv t).
Proof.
  unfold decompress.
  repeat hoare_step; unpack; try assumption.
  eapply hoare_bind; [by_inv inv_check_init_lib | intros; cbv beta].
  repeat hoare_step; unpack; assumption.
Qed.

Lemma inv_compress_fini_row (idx : Z) :
  tbl_hoare (W:=W) table_inv (compress_fini_row idx) (fun _ t => table_inv t).
Proof.
  unfold compress_fini_row, libref_decr, set_loaded.
  repeat hoare_step; unpack; try assumption.
  all: repeat match goal with
         | H : (_ && _) = true |- _ => apply andb_prop in H; destruct H
         | H : (_ =? _) = true |- _ => apply Z.eqb_eq in H
         end.
  all: repeat match goal with
         | H : <[_ := _]> _ !! _ = Some _ |- _ =>
             apply list_lookup_insert_Some in H as [(_ & <- & _) | (Hne & _)];
             [| congruence]
         end.
  all: repeat match goal with
         | H1 : ?t !! ?i = Some ?a, H2 : ?t !! ?i = Some ?b |- _ =>
             assert (b = a) by congruence; subst b; clear H2
         end.
  all: simpl in *.
  all: try (apply table_inv_insert; [| apply row_inv_unloaded; simpl; assumption]).
  all: try (apply table_inv_insert; [assumption | apply row_inv_loaded; assumption]).
Qed.

Lemma inv_compress_fini_loop (n : nat) (idx : Z) :
  tbl_hoare (W:=W) table_inv (compress_fini_loop n idx) (fun _ t => table_inv t).
Proof.
  revert idx. induction n as [|n IH]; intros idx; simpl.
  - repeat hoare_step; unpack; try assumption.
    eapply hoare_bind; [by_inv inv_compress_fini_row | intros; cbv beta].
    apply hoare_crash.
  - repeat hoare_step; unpack; try assumption.
    eapply hoare_bind; [by_inv inv_compress_fini_row | intros; cbv beta].
    apply IH.
Qed.

Lemma inv_compress_fini :
  tbl_hoare (W:=W) table_inv compress_fini (fun _ t => table_inv t).
Proof.
  unfold compress_fini.
  repeat hoare_step; unpack; try assumption.
  eapply hoare_bind; [by_inv inv_compress_fini_loop | intros; cbv beta].
  repeat hoare_step; unpack; assumption.
Qed.

(** What [tbl_hoare] says of a call that returns. *)
Lemma hoare_returns {A} (Pre : table -> Prop) (Q : A -> table -> Prop) (m : M A)
    (h h' : knet_handle) (g g' : global) (a : A) :
  tbl_hoare Pre m Q -> Pre (compress_modules_cmds g) -> m h g = Ok a h' g' ->
  Q a (compress_modules_cmds g').
Proof. intros Hm Hg E. specialize (Hm h g Hg). rewrite E in Hm. exact Hm. Qed.

(** A precondition fixes the table the call starts from. *)
Lemma hoare_from_pre {A} (Pre : table -> Prop) (Q : A -> table -> Prop) (m : M A) :
  (forall t, Pre t -> tbl_hoare (fun t' => t' = t) m Q) -> tbl_hoare Pre m Q.
Proof. intros H h g Hg. apply (H _ Hg h g eq_refl). Qed.

(** ** What [check_init_lib] does to the table *)

Ltac same_row :=
  repeat match goal with
         | H1 : ?t !! ?i = Some ?a, H2 : ?t !! ?i = Some ?b |- _ =>
             assert (b = a) by congruence; subst b; clear H2
         end.

Lemma spec_check_init_lib_init (m : Z) (t0 : table) (r0 : row) :
  t0 !! Z.to_nat m = Some r0 ->
  tbl_hoare (fun t => t = t0) (check_init_lib_init m)
    (fun r t => (r = 0 /\ t = <[Z.to_nat m := with_libref (libref_t (libref r0 + 1)) r0]> t0)
                \/ (r = -1 /\ t = t0)).
Proof.
  intros H0. unfold check_init_lib_init, libref_incr.
  repeat hoare_step; unpack.
  all: same_row; auto.
Qed.

Lemma spec_check_init_lib_load (m : Z) (t0 : table) :
  tbl_hoare (fun t => t = t0) (check_init_lib_load m) (ensured_load m t0).
Proof.
  unfold check_init_lib_load, set_loaded.
  repeat hoare_step; unpack.
  all: try (right; split; [reflexivity | left; reflexivity]).
  - apply hoare_from_pre; intros t Ht; unpack.
    same_row.
    eapply hoare_post; [eapply spec_check_init_lib_init|].
    + apply list_lookup_insert_eq. eapply lookup_lt_Some; eassumption.
    + intros r t [[-> ->] | [-> ->]].
      * left. split; [reflexivity|]. eexists _, _.
        split; [eassumption|]. split; [right; reflexivity|].
        rewrite list_insert_insert_eq. reflexivity.
      * right. split; [reflexivity|]. right. eexists. split; [eassumption|].
        split; [|reflexivity]. apply Z.eqb_eq. assumption.
  - apply hoare_from_pre; intros t Ht; unpack.
    eapply hoare_post; [eapply spec_check_init_lib_init; eassumption|].
    intros r t [[-> ->] | [-> ->]].
    + left. split; [reflexivity|]. eexists _, _.
      split; [eassumption|]. split; [left; reflexivity|reflexivity].
    + right. split; [reflexivity|]. left. reflexivity.
Qed.

Lemma spec_check_init_lib (m rl : Z) (t0 : table) :
  tbl_hoare (fun t => t = t0) (check_init_lib m rl) (ensured m t0).
Proof.
  unfold check_init_lib, check_init_lib_ready, check_init_lib_limit.
  repeat hoare_step; unpack.
  all: try (left; split; reflexivity).
  all: try (right; right; split; [reflexivity | left; reflexivity]).
  all: eapply hoare_post;
    [ eapply hoare_pre; [apply spec_check_init_lib_load | intros; unpack; reflexivity]
    | intros r t Hl; right; exact Hl ].
Qed.

(** ** decompress: ids that are refused *)

Lemma is_valid_model_scan_refuses (t : table) (cm : Z) :
  has_sentinel t ->
  (forall (i : nat) (r : row),
      t !! i = Some r -> model_name r <> None -> model_id r = cm -> built_in r <> 1) ->
  is_valid_model_scan t cm = Some (-1).
Proof.
  induction t as [|r t IH]; intros (i & s & Hs & Hn) Hb.
  - discriminate.
  - simpl. destruct (model_name r) as [n|] eqn:En; [|reflexivity].
    assert (Hr : (cm =? model_id r) && (built_in r =? 1) = false).
    { destruct (Z.eqb_spec cm (model_id r)) as [Hc|]; [|reflexivity].
      destruct (Z.eqb_spec (built_in r) 1) as [Hbi|]; [|reflexivity].
      exfalso. apply (Hb 0%nat r); [reflexivity | congruence | congruence | exact Hbi]. }
    rewrite Hr. apply IH.
    + destruct i as [|i]; [simpl in Hs; congruence|]. exists i, s. split; assumption.
    + intros j r' Hj. apply (Hb (S j) r' Hj).
Qed.

Lemma decompress_unknown (cm : Z) (buf_in : list Byte.byte)
    (buf_in_len buf_out buf_out_len : Z) (h : knet_handle) (g : global) :
  max_model g < cm ->
  decompress cm buf_in buf_in_len buf_out buf_out_len h g =
    Ok (-1) h (rejected (UnknownModel cm) EINVAL g).
Proof.
  intros Hm. unfold decompress, bind, get_max_model_var.
  replace (cm >? max_model g) with true by (symmetry; apply Z.gtb_lt; exact Hm).
  reflexivity.
Qed.

Lemma decompress_not_built_in (cm : Z) (buf_in : list Byte.byte)
    (buf_in_len buf_out buf_out_len : Z) (h : knet_handle) (g : global) (r : row) :
  cm <= max_model g -> 0 <= cm ->
  compress_modules_cmds g !! Z.to_nat cm = Some r -> built_in r = 0 ->
  ids_are_indices (compress_modules_cmds g) -> has_sentinel (compress_modules_cmds g) ->
  decompress cm buf_in buf_in_len buf_out buf_out_len h g =
    Ok (-1) h (rejected (PacketNotBuiltIn (model_name r)) EINVAL g).
Proof.
  intros Hm H0 Hr Hb Hids Hsent.
  unfold decompress, bind, get_max_model_var, is_valid_model.
  replace (cm >? max_model g) with false
    by (symmetry; rewrite Z.gtb_ltb; apply Z.ltb_ge; exact Hm).
  rewrite (is_valid_model_scan_refuses _ cm Hsent).
  - simpl. unfold get_row.
    replace (cm <? 0) with false by (symmetry; apply Z.ltb_ge; exact H0).
    rewrite Hr. reflexivity.
  - intros i r' Hi Hn Hid.
    pose proof (Hids i r' Hi Hn) as Hidx.
    assert (i = Z.to_nat cm) by lia. subst i.
    assert (r' = r) by congruence. subst r'. lia.
Qed.

(** ** The table of the sources *)

Lemma init_table_shape (b : build_config) (c : codecs) (t : table) :
  Forall2 same_static t (compress_modules_cmds_init b c) ->
  ids_are_indices t /\ has_sentinel t /\
  exists r : row, t !! 0%nat = Some r /\ built_in r = 0 /\ model_name r = Some "none"%string.
Proof.
  unfold compress_modules_cmds_init. intros H.
  repeat match goal with
         | H : Forall2 _ _ (_ :: _) |- _ =>
             apply Forall2_cons_inv_r in H as (? & ? & ? & H & ->)
         | H : Forall2 _ _ [] |- _ => apply Forall2_nil_inv_r in H as ->
         end.
  unfold same_static in *.
  destruct b as [[] [] [] [] []]; simpl in *; unpack.
  all: split; [|split].
  all: try (exists 7%nat; eexists; split; [reflexivity | assumption]).
  all: try (eexists; split; [reflexivity | split; assumption]).
  all: intros i r Hi Hn;
    do 8 (destruct i as [|i]; [simpl in Hi; inversion Hi; subst; first [assumption | congruence]|]);
    discriminate.
Qed.

(** C2: decompress with a model id above [max_model], or with an id whose
    row is not built in, returns -1 with errno EINVAL, logs one error (the
    unknown id in the first case, the name of the row that is not built in
    in the second) and changes nothing else: the handle is the one passed
    in, and the globals differ from those before the call in [errno] and in
    the logged line only, so no back-end was called and no [libref]
    moved. *)
Theorem decompress_rejects_bad_model (cm : Z) (buf_in : list Byte.byte)
    (buf_in_len buf_out buf_out_len : Z) (h : knet_handle) (g : global) :
  (max_model g < cm ->
   decompress cm buf_in buf_in_len buf_out buf_out_len h g =
     Ok (-1) h (rejected (UnknownModel cm) EINVAL g)) /\
  (forall r : row,
      cm <= max_model g -> 0 <= cm ->
      compress_modules_cmds g !! Z.to_nat cm = Some r -> built_in r = 0 ->
      ids_are_indices (compress_modules_cmds g) ->
      has_sentinel (compress_modules_cmds g) ->
      decompress cm buf_in buf_in_len buf_out buf_out_len h g =
        Ok (-1) h (rejected (PacketNotBuiltIn (model_name r)) EINVAL g)) /\
  (forall (m : log_msg) (e : Z),
      compress_modules_cmds (rejected m e g) = compress_modules_cmds g /\
      max_model (rejected m e g) = max_model g /\
      last_load_failure (rejected m e g) = last_load_failure g /\
      ext (os (rejected m e g)) = ext (os g) /\
      errno (os (rejected m e g)) = e /\
      trace (rejected m e g) = EvErr m :: trace g).
Proof.
  split; [|split].
  - apply decompress_unknown.
  - intros r. apply decompress_not_built_in.
  - intros m e. repeat split.
Qed.

(** C10: decompress with model id 0 returns -1 with errno EINVAL through
    the check for rows that are not built in, whatever was built and
    whatever the bookkeeping of the table says, because the row "none" has
    [built_in = 0]; nothing else changes. *)
Theorem decompress_none_is_rejected (b : build_config) (c : codecs)
    (buf_in : list Byte.byte) (buf_in_len buf_out buf_out_len : Z)
    (h : knet_handle) (g : global) :
  Forall2 same_static (compress_modules_cmds g) (compress_modules_cmds_init b c) ->
  0 <= max_model g ->
  decompress 0 buf_in buf_in_len buf_out buf_out_len h g =
    Ok (-1) h (rejected (PacketNotBuiltIn (Some "none"%string)) EINVAL g).
Proof.
  intros Hs Hm.
  destruct (init_table_shape b c _ Hs) as (Hids & Hsent & r & Hr & Hb & Hn).
  rewrite <- Hn.
  apply decompress_not_built_in; auto. lia.
Qed.

(** ** compress *)

(** Case split on the index of a lookup in a table that is written out. *)
Ltac by_rows Hi i :=
  first [ discriminate Hi
        | destruct i as [|i];
          [ simpl in Hi; inversion Hi; subst; clear Hi
          | simpl in Hi; by_rows Hi i ] ].

(** C9: compress does not look at what the handle's model is.  With the
    lock free, a handle whose [compress_model] points at a row that is not
    loaded and has no [load_lib] (model 0, "none", or the placeholder of a
    codec that was not built) makes compress call through the NULL
    [load_lib] slot; and every row of the table of the sources with
    [built_in = 0] is such a row, with no [compress] slot either. *)
Theorem compress_on_placeholder_calls_null (buf_in : list Byte.byte)
    (buf_in_len buf_out buf_out_len : Z) (h : knet_handle) (g : global)
    (w1 w2 : W) (r : row) :
  (pthread_rwlock_rdlock (ext (os g)) = (0, w1) ->
   pthread_rwlock_wrlock (pthread_rwlock_unlock w1) = (0, w2) ->
   0 <= compress_model h ->
   compress_modules_cmds g !! Z.to_nat (compress_model h) = Some r ->
   loaded r = 0 -> load_lib r = None ->
   compress buf_in buf_in_len buf_out buf_out_len h g =
     Fault (NullCall LoadLib (compress_model h))) /\
  (forall (b : build_config) (c : codecs) (i : nat) (p : row),
      compress_modules_cmds_init b c !! i = Some p -> built_in p = 0 ->
      loaded p = 0 /\ load_lib p = None /\ slot_compress p = None).
Proof.
  split.
  - intros Hrd Hwr H0 Hr Hl Hn.
    unfold compress, get_handle, bind, check_init_lib, bind, rdlock.
    rewrite Hrd. simpl.
    unfold check_init_lib_ready, bind, get_row. simpl.
    replace (compress_model h <? 0) with false by (symmetry; apply Z.ltb_ge; exact H0).
    rewrite Hr, Hl. simpl.
    unfold check_init_lib_limit, check_init_lib_load, bind, unlock, wrlock. simpl.
    rewrite Hwr. simpl.
    unfold get_row. simpl.
    replace (compress_model h <? 0) with false by (symmetry; apply Z.ltb_ge; exact H0).
    rewrite Hr, Hl. simpl. unfold invoke. rewrite Hn. reflexivity.
  - intros b c i p Hi Hb. unfold compress_modules_cmds_init in Hi.
    by_rows Hi i.
    all: try (repeat split; reflexivity).
    all: match goal with
         | H : built_in (if ?f then _ else _) = 0 |- _ =>
             destruct f; [discriminate | repeat split; reflexivity]
         end.
Qed.

(** C8: once ensure-init has succeeded, compress calls the [compress] slot
    of the handle's model on the caller's buffer, whatever the length of
    the buffer and whatever the handle's [compress_threshold]: its result
    is the back-end's, and the globals are those the back-end left, with
    the lock released and [errno] kept. *)
Theorem compress_calls_backend (buf_in : list Byte.byte)
    (buf_in_len buf_out buf_out_len : Z) (h h1 h2 : knet_handle) (g g1 : global)
    (r err : Z) (p : row) (f : xform) (o2 : os_state) :
  check_init_lib (compress_model h) 0 h g = Ok r h1 g1 ->
  0 <= r ->
  0 <= compress_model h1 ->
  compress_modules_cmds g1 !! Z.to_nat (compress_model h1) = Some p ->
  slot_compress p = Some f ->
  f buf_in buf_in_len buf_out buf_out_len h1 (os g1) = (err, h2, o2) ->
  compress buf_in buf_in_len buf_out buf_out_len h g =
    Ok err h2 (transformed Compress (compress_model h1) o2 g1).
Proof.
  intros Hc Hr H0 Hp Hf He.
  unfold compress, get_handle, bind at 1 2. rewrite Hc.
  replace (r <? 0) with false by (symmetry; apply Z.ltb_ge; exact Hr).
  unfold bind, get_row. simpl.
  replace (compress_model h1 <? 0) with false by (symmetry; apply Z.ltb_ge; exact H0).
  rewrite Hp, Hf. simpl. unfold invoke. rewrite He. reflexivity.
Qed.

(** ** The rate limit *)

Lemma rdlock_keeps (h h1 : knet_handle) (g g1 : global) (r : Z) :
  rdlock h g = Ok r h1 g1 ->
  h1 = h /\ last_load_failure g1 = last_load_failure g /\
  compress_modules_cmds g1 = compress_modules_cmds g.
Proof.
  unfold rdlock. destruct (pthread_rwlock_rdlock _) as [r' w].
  intros E. inversion E; subst. repeat split.
Qed.

Lemma ready_keeps (m : Z) (h1 h2 : knet_handle) (g1 g2 : @global W) (b : bool) :
  check_init_lib_ready m h1 g1 = Ok b h2 g2 ->
  last_load_failure g2 = last_load_failure g1 /\
  compress_modules_cmds g2 = compress_modules_cmds g1.
Proof.
  unfold check_init_lib_ready, bind, get_row, get_int_data, invoke, ret.
  destruct (m <? 0); [discriminate|].
  destruct (compress_modules_cmds g1 !! Z.to_nat m) as [p|]; [|discriminate].
  destruct (loaded p =? 1).
  - destruct (is_init p) as [f|].
    + destruct (f m h1 (os g1)) as [[r h'] o']. intros E. inversion E; subst.
      split; reflexivity.
    + destruct (compress_int_data h1 !! Z.to_nat m); [|discriminate].
      intros E. inversion E; subst. split; reflexivity.
  - intros E. inversion E; subst. split; reflexivity.
Qed.


(** The first steps of [check_init_lib] when the read lock is taken and the
    handle is not ready yet. *)
Lemma check_init_lib_not_ready (m rl : Z) (h h1 h2 : knet_handle) (g g1 g2 : global) :
  rdlock h g = Ok 0 h1 g1 ->
  check_init_lib_ready m h1 g1 = Ok false h2 g2 ->
  check_init_lib m rl h g = check_init_lib_limit m rl h2 g2.
Proof.
  intros Hrd Hready. unfold check_init_lib, bind at 1. rewrite Hrd. simpl.
  unfold bind at 1. rewrite Hready. reflexivity.
Qed.

(** A failed [load_lib] under the write lock: the time is recorded and the
    table is left alone. *)
Lemma check_init_lib_load_failure (m r : Z) (h2 h3 h4 : knet_handle)
    (g2 g3 : global) (p : row) (f : bop) (o4 : os_state) :
  bind unlock (fun _ => wrlock) h2 g2 = Ok 0 h3 g3 ->
  0 <= m ->
  compress_modules_cmds g3 !! Z.to_nat m = Some p ->
  loaded p = 0 -> load_lib p = Some f ->
  f h3 (os g3) = (r, h4, o4) -> r < 0 ->
  exists g5 : global,
    check_init_lib_load m h2 g2 = Ok (-1) h4 g5 /\
    last_load_failure g5 = clock_gettime (ext o4) /\
    trace g5 = EvUnlock :: EvCall LoadLib m :: trace g3 /\
    compress_modules_cmds g5 = compress_modules_cmds g3.
Proof.
  intros Hwr H0 Hp Hld Hf He Hr.
  unfold check_init_lib_load.
  change (bind unlock (fun _ => bind wrlock ?k) h2 g2)
    with (bind (bind unlock (fun _ => wrlock)) k h2 g2).
  unfold bind at 1. rewrite Hwr. simpl.
  unfold bind, get_row.
  replace (m <? 0) with false by (symmetry; apply Z.ltb_ge; exact H0).
  rewrite Hp, Hld. simpl. unfold invoke. rewrite Hf, He.
  replace (r <? 0) with true by (symmetry; apply Z.ltb_lt; exact Hr).
  simpl. eexists. split; [reflexivity|]. repeat split.
Qed.

(** C1 (amended): on the decompress path ([rate_limit] = 1), with the read
    lock taken and the handle not yet ready for the model, a non-zero
    [last_load_failure] less than 10 seconds old makes [check_init_lib]
    return -1 with errno EAGAIN at once: the lock is released and nothing
    is loaded.  Without a recorded failure, or 10 seconds or more after it,
    the call goes on exactly as a call without rate limit does, to the
    write lock and the load.  Whenever [load_lib] fails there, on either
    path, the time of the monotonic clock is stored in
    [last_load_failure]. *)
Theorem rate_limit_of_check_init_lib (m : Z) (h h1 h2 : knet_handle)
    (g g1 g2 : global) :
  rdlock h g = Ok 0 h1 g1 ->
  check_init_lib_ready m h1 g1 = Ok false h2 g2 ->
  ((tv_sec (last_load_failure g) <> 0 \/ tv_nsec (last_load_failure g) <> 0) ->
   timespec_diff (last_load_failure g) (clock_gettime (ext (os g2))) < 10000000000 ->
   exists g3 : global,
     check_init_lib m 1 h g = Ok (-1) h2 g3 /\
     errno (os g3) = EAGAIN /\
     trace g3 = EvUnlock :: trace g2 /\
     compress_modules_cmds g3 = compress_modules_cmds g2 /\
     last_load_failure g3 = last_load_failure g) /\
  ((tv_sec (last_load_failure g) = 0 /\ tv_nsec (last_load_failure g) = 0) \/
   10000000000 <= timespec_diff (last_load_failure g) (clock_gettime (ext (os g2))) ->
   check_init_lib m 1 h g = check_init_lib_load m h2 g2) /\
  check_init_lib m 0 h g = check_init_lib_load m h2 g2 /\
  (forall (h3 h4 : knet_handle) (g3 : global) (p : row) (f : bop) (r : Z)
          (o4 : os_state),
      bind unlock (fun _ => wrlock) h2 g2 = Ok 0 h3 g3 ->
      0 <= m ->
      compress_modules_cmds g3 !! Z.to_nat m = Some p ->
      loaded p = 0 -> load_lib p = Some f ->
      f h3 (os g3) = (r, h4, o4) -> r < 0 ->
      exists g5 : global,
        check_init_lib_load m h2 g2 = Ok (-1) h4 g5 /\
        last_load_failure g5 = clock_gettime (ext o4) /\
        trace g5 = EvUnlock :: EvCall LoadLib m :: trace g3 /\
        compress_modules_cmds g5 = compress_modules_cmds g3).
Proof.
  intros Hrd Hready.
  pose proof (rdlock_keeps _ _ _ _ _ Hrd) as (-> & Hl1 & _).
  pose proof (ready_keeps _ _ _ _ _ _ Hready) as (Hl2 & _).
  assert (Hl : last_load_failure g2 = last_load_failure g) by congruence.
  repeat split.
  - intros Hnz Hd.
    rewrite (check_init_lib_not_ready m 1 _ _ _ _ _ _ Hrd Hready).
    unfold check_init_lib_limit, bind, get_last_load_failure, clock_now. simpl.
    rewrite Hl.
    replace (negb (tv_sec (last_load_failure g) =? 0)
             || negb (tv_nsec (last_load_failure g) =? 0)) with true.
    + match goal with
      | |- context [?a <? ?b] => destruct (Z.ltb_spec a b); [| lia]
      end.
      simpl. eexists. split; [reflexivity|]. simpl. rewrite Hl. repeat split.
    + symmetry. apply orb_true_iff.
      destruct Hnz as [Hnz|Hnz]; [left|right];
        apply negb_true_iff, Z.eqb_neq; exact Hnz.
  - intros Hz.
    rewrite (check_init_lib_not_ready m 1 _ _ _ _ _ _ Hrd Hready).
    unfold check_init_lib_limit, bind, get_last_load_failure, clock_now. simpl.
    rewrite Hl.
    destruct Hz as [[Hs Hn]|Hd].
    + rewrite Hs, Hn. reflexivity.
    + destruct (negb _ || negb _); [|reflexivity].
      match goal with
      | |- context [?a <? ?b] => destruct (Z.ltb_spec a b); [lia | reflexivity]
      end.
  - rewrite (check_init_lib_not_ready m 0 _ _ _ _ _ _ Hrd Hready). reflexivity.
  - intros h3 h4 g3 p f r o4. apply check_init_lib_load_failure.
Qed.

(** ** compress_cfg *)

Lemma keep_val_level (m level : Z) : tbl_keep (W:=W) (val_level m level).
Proof.
  intros h g. unfold val_level, bind, get_row.
  destruct (m <? 0); [exact I|].
  destruct (compress_modules_cmds g !! Z.to_nat m) as [p|]; [|exact I].
  apply (keep_invoke ValLevel m _ h g).
Qed.

Lemma val_level_keeps (m level v : Z) (h1 h2 : knet_handle) (g1 g2 : @global W) :
  val_level m level h1 g1 = Ok v h2 g2 ->
  compress_modules_cmds g2 = compress_modules_cmds g1.
Proof.
  intros E. pose proof (keep_val_level m level h1 g1) as K.
  rewrite E in K. exact K.
Qed.

(** The configuration call up to [check_init_lib], for a model that is not
    0 and is built in. *)
Lemma compress_cfg_reaches_lock (cfg : knet_handle_compress_cfg) (h : knet_handle)
    (g : global) (m : Z) (p : row) :
  get_model_scan (compress_modules_cmds g) (cfg_compress_model cfg) = Some m ->
  0 < m ->
  compress_modules_cmds g !! Z.to_nat m = Some p ->
  built_in p <> 0 ->
  compress_cfg cfg h g =
    bind (compress_cfg_locked cfg m)
         (fun se => bind unlock (fun _ => compress_cfg_out cfg m se)) h
         (with_event (EvDebug (InitCompressModule (cfg_compress_model cfg)
                                 (cfg_compress_level cfg)
                                 (cfg_compress_threshold cfg))) g).
Proof.
  intros Hm H0 Hp Hb.
  unfold compress_cfg, bind at 1 2, log_debug, emit, get_model. simpl.
  rewrite Hm.
  replace (m <? 0) with false by (symmetry; apply Z.ltb_ge; lia).
  replace (m >? 0) with true by (symmetry; apply Z.gtb_lt; exact H0).
  unfold bind at 1, get_row. simpl.
  replace (m <? 0) with false by (symmetry; apply Z.ltb_ge; lia).
  rewrite Hp.
  replace (built_in p =? 0) with false by (symmetry; apply Z.eqb_neq; exact Hb).
  reflexivity.
Qed.


(** C7 (amended): in a configuration call for a model that is not 0 and
    is built in, once ensure-init has succeeded and [val_level] has
    accepted the level: a threshold above KNET_MAX_PACKET_SIZE makes the
    call return -1 with errno EINVAL; a threshold of zero sets the handle's
    threshold to KNET_COMPRESS_THRESHOLD and logs it; any other threshold
    is stored in the handle as requested.  In the last two cases the call
    returns 0 and the model and the level are stored as well. *)
Theorem compress_cfg_threshold (cfg : knet_handle_compress_cfg)
    (h h1 h2 : knet_handle) (g g1 g2 : global) (m r v : Z) (p : row) :
  get_model_scan (compress_modules_cmds g) (cfg_compress_model cfg) = Some m ->
  0 < m ->
  compress_modules_cmds g !! Z.to_nat m = Some p ->
  built_in p <> 0 ->
  check_init_lib m 0 h
    (with_event (EvDebug (InitCompressModule (cfg_compress_model cfg)
                            (cfg_compress_level cfg)
                            (cfg_compress_threshold cfg))) g) = Ok r h1 g1 ->
  0 <= r ->
  val_level m (cfg_compress_level cfg) h1 g1 = Ok v h2 g2 ->
  0 <= v ->
  (KNET_MAX_PACKET_SIZE < cfg_compress_threshold cfg ->
   exists g3 : global,
     compress_cfg cfg h g = Ok (-1) h2 g3 /\
     errno (os g3) = EINVAL /\
     trace g3 = EvUnlock :: EvErr (ThresholdTooHigh KNET_MAX_PACKET_SIZE) :: trace g2) /\
  (cfg_compress_threshold cfg <= KNET_MAX_PACKET_SIZE ->
   cfg_compress_threshold cfg = 0 ->
   exists g3 : global,
     compress_cfg cfg h g =
       Ok 0 (with_compress_level (cfg_compress_level cfg)
               (with_compress_model m
                  (with_compress_threshold KNET_COMPRESS_THRESHOLD h2))) g3 /\
     errno (os g3) = 0 /\
     trace g3 = EvUnlock :: EvDebug (ResetThreshold KNET_COMPRESS_THRESHOLD) :: trace g2) /\
  (cfg_compress_threshold cfg <= KNET_MAX_PACKET_SIZE ->
   cfg_compress_threshold cfg <> 0 ->
   exists g3 : global,
     compress_cfg cfg h g =
       Ok 0 (with_compress_level (cfg_compress_level cfg)
               (with_compress_model m
                  (with_compress_threshold (cfg_compress_threshold cfg) h2))) g3 /\
     errno (os g3) = 0 /\
     trace g3 = EvUnlock :: trace g2).
Proof.
  intros Hm H0 Hp Hb Hc Hr Hv Hpos.
  assert (Hin : forall k : Z * Z -> M Z,
             bind (compress_cfg_locked cfg m) k h
               (with_event (EvDebug (InitCompressModule (cfg_compress_model cfg)
                                       (cfg_compress_level cfg)
                                       (cfg_compress_threshold cfg))) g) =
             bind (if cfg_compress_threshold cfg >? KNET_MAX_PACKET_SIZE then
                     bind (log_err (ThresholdTooHigh KNET_MAX_PACKET_SIZE))
                          (fun _ => ret (EINVAL, -1))
                   else if cfg_compress_threshold cfg =? 0 then
                     bind get_handle (fun h0 =>
                     bind (put_handle (with_compress_threshold KNET_COMPRESS_THRESHOLD h0))
                          (fun _ =>
                     bind (log_debug (ResetThreshold KNET_COMPRESS_THRESHOLD))
                          (fun _ => ret (0, 0))))
                   else
                     bind get_handle (fun h0 =>
                     bind (put_handle (with_compress_threshold
                                         (cfg_compress_threshold cfg) h0))
                          (fun _ => ret (0, 0)))) k h2 g2).
  { intros k. unfold compress_cfg_locked, bind at 1 2. rewrite Hc.
    replace (r <? 0) with false by (symmetry; apply Z.ltb_ge; exact Hr).
    unfold bind at 1. rewrite Hv.
    replace (v <? 0) with false by (symmetry; apply Z.ltb_ge; exact Hpos).
    reflexivity. }
  rewrite (compress_cfg_reaches_lock cfg h g m p Hm H0 Hp Hb), Hin.
  split; [|split].
  - intros Hgt.
    replace (cfg_compress_threshold cfg >? KNET_MAX_PACKET_SIZE) with true
      by (symmetry; apply Z.gtb_lt; exact Hgt).
    simpl. eexists. repeat split.
  - intros Hle Hz.
    replace (cfg_compress_threshold cfg >? KNET_MAX_PACKET_SIZE) with false
      by (symmetry; rewrite Z.gtb_ltb; apply Z.ltb_ge; exact Hle).
    rewrite Hz. simpl. eexists. repeat split.
  - intros Hle Hnz.
    replace (cfg_compress_threshold cfg >? KNET_MAX_PACKET_SIZE) with false
      by (symmetry; rewrite Z.gtb_ltb; apply Z.ltb_ge; exact Hle).
    replace (cfg_compress_threshold cfg =? 0) with false
      by (symmetry; apply Z.eqb_neq; exact Hnz).
    simpl. eexists. repeat split.
Qed.

(** ** compress_init *)

Lemma get_max_model_scan_named (pre post : table) (s : row) (idx : Z) :
  Forall (fun r : row => model_name r <> None) pre -> model_name s = None ->
  get_max_model_scan (pre ++ s :: post) idx = Some (idx + Z.of_nat (List.length pre) - 1).
Proof.
  intros Hpre Hs. revert idx.
  induction Hpre as [|r pre Hr Hpre IH]; intros idx; simpl.
  - rewrite Hs. f_equal. lia.
  - destruct (model_name r) as [n|]; [|congruence].
    rewrite IH. f_equal. lia.
Qed.

(** What compress_init checks: with [n] rows before the sentinel, it caches
    [max_model = n - 1]; it returns -1 with errno EINVAL and the log line
    about too many methods exactly when [n - 1] is above
    KNET_MAX_COMPRESS_METHODS, that is when [n] exceeds the cap by two or
    more, and returns 0 with [last_load_failure] zeroed otherwise; so on
    success [max_model <= KNET_MAX_COMPRESS_METHODS]. *)
Theorem compress_init_checks_max_model (h : knet_handle) (g : global)
    (pre post : table) (s : row) :
  compress_modules_cmds g = (pre ++ s :: post)%list ->
  Forall (fun r : row => model_name r <> None) pre ->
  model_name s = None ->
  (KNET_MAX_COMPRESS_METHODS + 1 < Z.of_nat (List.length pre) ->
   compress_init h g =
     Ok (-1) h (rejected TooManyMethods EINVAL
                  (with_max_model (Z.of_nat (List.length pre) - 1) g))) /\
  (Z.of_nat (List.length pre) <= KNET_MAX_COMPRESS_METHODS + 1 ->
   compress_init h g =
     Ok 0 h (with_last_load_failure (mk_timespec 0 0)
               (with_max_model (Z.of_nat (List.length pre) - 1) g))) /\
  (forall (h' : knet_handle) (g' : global),
      compress_init h g = Ok 0 h' g' ->
      max_model g' = Z.of_nat (List.length pre) - 1 /\
      max_model g' <= KNET_MAX_COMPRESS_METHODS).
Proof.
  intros Ht Hpre Hs.
  assert (Hscan : get_max_model h g = Ok (Z.of_nat (List.length pre) - 1) h g).
  { unfold get_max_model. rewrite Ht, (get_max_model_scan_named pre post s 0 Hpre Hs).
    f_equal. }
  destruct (Z_lt_le_dec KNET_MAX_COMPRESS_METHODS (Z.of_nat (List.length pre) - 1))
    as [Hgt|Hle].
  - assert (E0 : compress_init h g =
                 Ok (-1) h (rejected TooManyMethods EINVAL
                              (with_max_model (Z.of_nat (List.length pre) - 1) g))).
    { unfold compress_init, bind at 1. rewrite Hscan.
      unfold bind. simpl. replace (Z.of_nat (List.length pre) - 1 >? KNET_MAX_COMPRESS_METHODS)
        with true by (symmetry; apply Z.gtb_lt; exact Hgt).
      reflexivity. }
    rewrite E0. split; [|split].
    + intros _. reflexivity.
    + intros Hn. lia.
    + intros h' g' E. discriminate.
  - assert (E0 : compress_init h g =
                 Ok 0 h (with_last_load_failure (mk_timespec 0 0)
                           (with_max_model (Z.of_nat (List.length pre) - 1) g))).
    { unfold compress_init, bind at 1. rewrite Hscan.
      unfold bind. simpl. replace (Z.of_nat (List.length pre) - 1 >? KNET_MAX_COMPRESS_METHODS)
        with false by (symmetry; rewrite Z.gtb_ltb; apply Z.ltb_ge; exact Hle).
      reflexivity. }
    rewrite E0. split; [|split].
    + intros Hn. lia.
    + intros _. reflexivity.
    + intros h' g' E. inversion E; subst.
      simpl. split; [reflexivity | exact Hle].
Qed.

(** ** The invariant across the entry points *)

Lemma unloaded_at_zero_refl (t : table) : unloaded_at_zero t t.
Proof. intros i r0 r1 H0 H1 Hl Hn. congruence. Qed.

Lemma unloaded_at_zero_insert (t0 t : table) (i : nat) (r : row) :
  unloaded_at_zero t0 t -> loaded r = 1 \/ libref r = 0 ->
  unloaded_at_zero t0 (<[i := r]> t).
Proof.
  intros Ht Hr j r0 r1 H0 H1 Hl Hn.
  apply list_lookup_insert_Some in H1 as [(_ & <- & _) | (_ & H1)].
  - destruct Hr as [Hr|Hr]; [contradiction | exact Hr].
  - eapply Ht; eassumption.
Qed.

Lemma unload_compress_fini_row (t0 : table) (idx : Z) :
  tbl_hoare (unloaded_at_zero t0) (compress_fini_row idx)
            (fun _ t => unloaded_at_zero t0 t).
Proof.
  unfold compress_fini_row, libref_decr, set_loaded.
  repeat hoare_step; unpack; try assumption.
  all: repeat match goal with
         | H : (_ && _) = true |- _ => apply andb_prop in H; destruct H
         | H : (_ =? _) = true |- _ => apply Z.eqb_eq in H
         end.
  all: repeat match goal with
         | H : <[_ := _]> _ !! _ = Some _ |- _ =>
             apply list_lookup_insert_Some in H as [(_ & <- & _) | (Hne & _)];
             [| congruence]
         end.
  all: same_row; simpl in *.
  all: repeat (apply unloaded_at_zero_insert; [| simpl; auto]); assumption.
Qed.

Lemma unload_compress_fini_loop (t0 : table) (n : nat) (idx : Z) :
  tbl_hoare (unloaded_at_zero t0) (compress_fini_loop n idx)
            (fun _ t => unloaded_at_zero t0 t).
Proof.
  revert idx. induction n as [|n IH]; intros idx; simpl.
  - repeat hoare_step; unpack; try assumption.
    eapply hoare_bind; [by_inv (unload_compress_fini_row t0) | intros; cbv beta].
    apply hoare_crash.
  - repeat hoare_step; unpack; try assumption.
    eapply hoare_bind; [by_inv (unload_compress_fini_row t0) | intros; cbv beta].
    apply IH.
Qed.

Lemma unload_compress_fini (t0 : table) :
  tbl_hoare (unloaded_at_zero t0) compress_fini (fun _ t => unloaded_at_zero t0 t).
Proof.
  unfold compress_fini.
  repeat hoare_step; unpack; try assumption.
  eapply hoare_bind; [by_inv (unload_compress_fini_loop t0) | intros; cbv beta].
  repeat hoare_step; unpack; assumption.
Qed.

(** The write-lock part with a row that has an [init] hook: the hook is
    called on the handle as the load left it, and when it fails the call
    returns -1 after an unlock, with the table as it was before the hook
    ran. *)
Lemma check_init_lib_init_failure (m r : Z) (h3 h4 : knet_handle) (g3 : global)
    (p : row) (f : Z -> bop) (o4 : os_state) :
  0 <= m ->
  compress_modules_cmds g3 !! Z.to_nat m = Some p ->
  init p = Some f ->
  f m h3 (os g3) = (r, h4, o4) -> r < 0 ->
  exists g5 : global,
    check_init_lib_init m h3 g3 = Ok (-1) h4 g5 /\
    trace g5 = EvUnlock :: EvCall Init m :: trace g3 /\
    compress_modules_cmds g5 = compress_modules_cmds g3.
Proof.
  intros H0 Hp Hi He Hr.
  unfold check_init_lib_init, bind at 1, get_row.
  replace (m <? 0) with false by (symmetry; apply Z.ltb_ge; exact H0).
  rewrite Hp, Hi. unfold bind at 1, invoke. rewrite He.
  replace (r <? 0) with true by (symmetry; apply Z.ltb_lt; exact Hr).
  simpl. eexists. split; [reflexivity|]. split; reflexivity.
Qed.

Lemma check_init_lib_load_init_failure (m r : Z) (h2 h3 h4 : knet_handle)
    (g2 g3 : global) (p : row) (f : Z -> bop) (o4 : os_state) :
  bind unlock (fun _ => wrlock) h2 g2 = Ok 0 h3 g3 ->
  0 <= m ->
  compress_modules_cmds g3 !! Z.to_nat m = Some p ->
  loaded p <> 0 -> init p = Some f ->
  f m h3 (os g3) = (r, h4, o4) -> r < 0 ->
  exists g5 : global,
    check_init_lib_load m h2 g2 = Ok (-1) h4 g5 /\
    trace g5 = EvUnlock :: EvCall Init m :: trace g3 /\
    compress_modules_cmds g5 = compress_modules_cmds g3.
Proof.
  intros Hwr H0 Hp Hld Hi He Hr.
  unfold check_init_lib_load.
  change (bind unlock (fun _ => bind wrlock ?k) h2 g2)
    with (bind (bind unlock (fun _ => wrlock)) k h2 g2).
  unfold bind at 1. rewrite Hwr. simpl.
  unfold bind at 1, get_row.
  replace (m <? 0) with false by (symmetry; apply Z.ltb_ge; exact H0).
  rewrite Hp.
  replace (loaded p =? 0) with false by (symmetry; apply Z.eqb_neq; exact Hld).
  apply (check_init_lib_init_failure m r h3 h4 g3 p f o4 H0 Hp Hi He Hr).
Qed.

Lemma check_init_lib_load_then_init_failure (m rl r : Z) (h2 h3 h4 h5 : knet_handle)
    (g2 g3 : global) (p : row) (l : bop) (f : Z -> bop) (o4 o5 : os_state) :
  bind unlock (fun _ => wrlock) h2 g2 = Ok 0 h3 g3 ->
  0 <= m ->
  compress_modules_cmds g3 !! Z.to_nat m = Some p ->
  loaded p = 0 -> load_lib p = Some l ->
  l h3 (os g3) = (rl, h4, o4) -> 0 <= rl ->
  init p = Some f ->
  f m h4 o4 = (r, h5, o5) -> r < 0 ->
  exists g5 : global,
    check_init_lib_load m h2 g2 = Ok (-1) h5 g5 /\
    trace g5 = EvUnlock :: EvCall Init m :: EvCall LoadLib m :: trace g3 /\
    compress_modules_cmds g5 = <[Z.to_nat m := with_loaded 1 p]> (compress_modules_cmds g3).
Proof.
  intros Hwr H0 Hp Hld Hl Hle Hrl Hi He Hr.
  unfold check_init_lib_load.
  change (bind unlock (fun _ => bind wrlock ?k) h2 g2)
    with (bind (bind unlock (fun _ => wrlock)) k h2 g2).
  unfold bind at 1. rewrite Hwr. simpl.
  unfold bind at 1, get_row.
  replace (m <? 0) with false by (symmetry; apply Z.ltb_ge; exact H0).
  rewrite Hp, Hld. simpl.
  unfold bind at 1, invoke. rewrite Hl, Hle.
  replace (rl <? 0) with false by (symmetry; apply Z.ltb_ge; exact Hrl).
  unfold bind at 1, set_loaded, bind at 1, get_row. simpl.
  replace (m <? 0) with false by (symmetry; apply Z.ltb_ge; exact H0).
  rewrite Hp. unfold set_row. simpl.
  match goal with
  | |- exists g5, check_init_lib_init m h4 ?g4 = _ /\ _ =>
      destruct (check_init_lib_init_failure m r h4 h5 g4 (with_loaded 1 p) f o5 H0)
        as (g5 & E & Ht & Hc);
        [ simpl; apply list_lookup_insert_eq; eapply lookup_lt_Some; exact Hp
        | exact Hi | exact He | exact Hr |]
  end.
  exists g5. split; [exact E|]. split; [exact Ht | exact Hc].
Qed.

(** C5: for every row, [libref > 0 -> loaded = 1] (with [loaded] a flag)
    holds after each entry point of the dispatcher that returns, when it
    held before: ensure-init, compress_init, compress_cfg, compress,
    decompress and compress_fini.  When ensure-init does not return 0, no
    [libref] has moved: a charge is taken on full success only.  A
    [load_lib] that fails leaves the table alone, so [loaded] is set on a
    successful load only; and a row that compress_fini unloads has a
    [libref] of zero.  An [init] hook that fails makes the call return -1,
    so by the above no [libref] moves: on a row that was loaded already the
    table stays, and after a load that succeeded the row is loaded and not
    charged. *)
Theorem libref_positive_implies_loaded :
  (forall (m rl r : Z) (h h' : knet_handle) (g g' : global),
      table_inv (compress_modules_cmds g) ->
      check_init_lib m rl h g = Ok r h' g' ->
      table_inv (compress_modules_cmds g') /\
      (r <> 0 -> map libref (compress_modules_cmds g') = map libref (compress_modules_cmds g))) /\
  (forall (r : Z) (h h' : knet_handle) (g g' : global),
      table_inv (compress_modules_cmds g) ->
      compress_init h g = Ok r h' g' ->
      table_inv (compress_modules_cmds g')) /\
  (forall (cfg : knet_handle_compress_cfg) (r : Z) (h h' : knet_handle) (g g' : global),
      table_inv (compress_modules_cmds g) ->
      compress_cfg cfg h g = Ok r h' g' ->
      table_inv (compress_modules_cmds g')) /\
  (forall (buf_in : list Byte.byte) (buf_in_len buf_out buf_out_len r : Z)
          (h h' : knet_handle) (g g' : global),
      table_inv (compress_modules_cmds g) ->
      compress buf_in buf_in_len buf_out buf_out_len h g = Ok r h' g' ->
      table_inv (compress_modules_cmds g')) /\
  (forall (cm : Z) (buf_in : list Byte.byte) (buf_in_len buf_out buf_out_len r : Z)
          (h h' : knet_handle) (g g' : global),
      table_inv (compress_modules_cmds g) ->
      decompress cm buf_in buf_in_len buf_out buf_out_len h g = Ok r h' g' ->
      table_inv (compress_modules_cmds g')) /\
  (forall (u : unit) (h h' : knet_handle) (g g' : global),
      compress_fini h g = Ok u h' g' ->
      (table_inv (compress_modules_cmds g) -> table_inv (compress_modules_cmds g')) /\
      unloaded_at_zero (compress_modules_cmds g) (compress_modules_cmds g')) /\
  (forall (m r : Z) (h2 h3 h4 : knet_handle) (g2 g3 : global) (p : row) (f : bop)
          (o4 : os_state),
      bind unlock (fun _ => wrlock) h2 g2 = Ok 0 h3 g3 ->
      0 <= m ->
      compress_modules_cmds g3 !! Z.to_nat m = Some p ->
      loaded p = 0 -> load_lib p = Some f ->
      f h3 (os g3) = (r, h4, o4) -> r < 0 ->
      exists g5 : global,
        check_init_lib_load m h2 g2 = Ok (-1) h4 g5 /\
        compress_modules_cmds g5 = compress_modules_cmds g3) /\
  (forall (m r : Z) (h2 h3 h4 : knet_handle) (g2 g3 : global) (p : row)
          (f : Z -> bop) (o4 : os_state),
      bind unlock (fun _ => wrlock) h2 g2 = Ok 0 h3 g3 ->
      0 <= m ->
      compress_modules_cmds g3 !! Z.to_nat m = Some p ->
      loaded p <> 0 -> init p = Some f ->
      f m h3 (os g3) = (r, h4, o4) -> r < 0 ->
      exists g5 : global,
        check_init_lib_load m h2 g2 = Ok (-1) h4 g5 /\
        compress_modules_cmds g5 = compress_modules_cmds g3) /\
  (forall (m rl r : Z) (h2 h3 h4 h5 : knet_handle) (g2 g3 : global) (p : row)
          (l : bop) (f : Z -> bop) (o4 o5 : os_state),
      bind unlock (fun _ => wrlock) h2 g2 = Ok 0 h3 g3 ->
      0 <= m ->
      compress_modules_cmds g3 !! Z.to_nat m = Some p ->
      loaded p = 0 -> load_lib p = Some l ->
      l h3 (os g3) = (rl, h4, o4) -> 0 <= rl ->
      init p = Some f ->
      f m h4 o4 = (r, h5, o5) -> r < 0 ->
      exists g5 : global,
        check_init_lib_load m h2 g2 = Ok (-1) h5 g5 /\
        compress_modules_cmds g5 =
          <[Z.to_nat m := with_loaded 1 p]> (compress_modules_cmds g3) /\
        map libref (compress_modules_cmds g5) = map libref (compress_modules_cmds g3)).
Proof.
  split; [|split; [|split; [|split; [|split; [|split; [|split; [|split]]]]]]].
  - intros m rl r h h' g g' Hinv E. split.
    + eapply (hoare_returns _ _ _ _ _ _ _ _ (inv_check_init_lib m rl)); eassumption.
    + intros Hr.
      pose proof (hoare_returns _ _ _ _ _ _ _ _
                    (spec_check_init_lib m rl _) eq_refl E) as He.
      destruct He as [[Hz _]|[[Hz _]|[_ [->|(p & Hp & _ & ->)]]]];
        [lia | lia | reflexivity |].
      rewrite list_fmap_insert. apply list_insert_id.
      rewrite list_lookup_fmap, Hp. reflexivity.
  - intros r h h' g g' Hinv E.
    eapply (hoare_returns _ _ _ _ _ _ _ _ inv_compress_init); eassumption.
  - intros cfg r h h' g g' Hinv E.
    eapply (hoare_returns _ _ _ _ _ _ _ _ (inv_compress_cfg cfg)); eassumption.
  - intros buf_in buf_in_len buf_out buf_out_len r h h' g g' Hinv E.
    eapply (hoare_returns _ _ _ _ _ _ _ _ (inv_compress _ _ _ _)); eassumption.
  - intros cm buf_in buf_in_len buf_out buf_out_len r h h' g g' Hinv E.
    eapply (hoare_returns _ _ _ _ _ _ _ _ (inv_decompress _ _ _ _ _)); eassumption.
  - intros u h h' g g' E. split.
    + intros Hinv.
      eapply (hoare_returns _ _ _ _ _ _ _ _ inv_compress_fini); eassumption.
    + eapply (hoare_returns _ _ _ _ _ _ _ _ (unload_compress_fini _));
        [apply unloaded_at_zero_refl | eassumption].
  - intros m r h2 h3 h4 g2 g3 p f o4 Hwr H0 Hp Hld Hf He Hr.
    destruct (check_init_lib_load_failure m r h2 h3 h4 g2 g3 p f o4
                Hwr H0 Hp Hld Hf He Hr) as (g5 & E & _ & _ & Ht).
    exists g5. split; [exact E | exact Ht].
  - intros m r h2 h3 h4 g2 g3 p f o4 Hwr H0 Hp Hld Hi He Hr.
    destruct (check_init_lib_load_init_failure m r h2 h3 h4 g2 g3 p f o4
                Hwr H0 Hp Hld Hi He Hr) as (g5 & E & _ & Ht).
    exists g5. split; [exact E | exact Ht].
  - intros m rl r h2 h3 h4 h5 g2 g3 p l f o4 o5 Hwr H0 Hp Hld Hl Hle Hrl Hi He Hr.
    destruct (check_init_lib_load_then_init_failure m rl r h2 h3 h4 h5 g2 g3 p l f
                o4 o5 Hwr H0 Hp Hld Hl Hle Hrl Hi He Hr) as (g5 & E & _ & Ht).
    exists g5. split; [exact E|]. split; [exact Ht|].
    rewrite Ht, list_fmap_insert. apply list_insert_id.
    rewrite list_lookup_fmap, Hp. reflexivity.
Qed.

(** * Further properties of the dispatcher *)

(** ** The scans of the table *)

(** [get_model] returns the id of the first row that carries the name, and
    -1 when the sentinel comes before any such row. *)
Theorem get_model_finds_first_name (pre post : table) (r : row) (name : string) :
  Forall (fun x : row => exists n, model_name x = Some n /\ n <> name) pre ->
  (model_name r = Some name ->
   get_model_scan (pre ++ r :: post) name = Some (model_id r)) /\
  (model_name r = None ->
   get_model_scan (pre ++ r :: post) name = Some (-1)).
Proof.
  intros Hpre. induction Hpre as [|x pre (n & Hn & Hne) Hpre IH]; simpl.
  - split; intros Hr; rewrite Hr; [|reflexivity].
    rewrite String.eqb_refl. reflexivity.
  - rewrite Hn. replace (String.eqb n name) with false
      by (symmetry; apply String.eqb_neq; exact Hne).
    exact IH.
Qed.

(** [is_valid_model] returns 0 exactly when a row before the sentinel has
    the id and is built in, and -1 otherwise. *)
Theorem is_valid_model_accepts_built_in_ids (pre post : table) (s : row) (cm : Z) :
  Forall (fun x : row => model_name x <> None) pre ->
  model_name s = None ->
  (is_valid_model_scan (pre ++ s :: post) cm = Some 0 <->
   exists r : row, r ∈ pre /\ model_id r = cm /\ built_in r = 1) /\
  (is_valid_model_scan (pre ++ s :: post) cm = Some 0 \/
   is_valid_model_scan (pre ++ s :: post) cm = Some (-1)).
Proof.
  intros Hpre Hs. induction Hpre as [|x pre Hx Hpre [IH1 IH2]]; simpl.
  - rewrite Hs. split; [|right; reflexivity]. split.
    + discriminate.
    + intros (r & Hr & _). inversion Hr.
  - destruct (model_name x) as [n|]; [|congruence].
    destruct (Z.eqb_spec cm (model_id x)) as [Hc|Hc];
      [destruct (Z.eqb_spec (built_in x) 1) as [Hb|Hb]|]; simpl.
    + split; [|left; reflexivity]. split; [|reflexivity].
      intros _. exists x. split; [left | split; [symmetry; exact Hc | exact Hb]].
    + split; [|exact IH2]. rewrite IH1. split.
      * intros (r & Hr & Hid & Hbi). exists r. split; [right; exact Hr | auto].
      * intros (r & Hr & Hid & Hbi).
        apply elem_of_cons in Hr as [->|Hr]; [contradiction|]. exists r. auto.
    + split; [|exact IH2]. rewrite IH1. split.
      * intros (r & Hr & Hid & Hbi). exists r. split; [right; exact Hr | auto].
      * intros (r & Hr & Hid & Hbi).
        apply elem_of_cons in Hr as [->|Hr]; [congruence|]. exists r. auto.
Qed.

Lemma get_model_scan_by_names (t t' : table) (name : string) :
  map model_name t = map model_name t' -> map model_id t = map model_id t' ->
  get_model_scan t name = get_model_scan t' name.
Proof.
  revert t'. induction t as [|x t IH]; intros [|x' t'] Hn Hi;
    try discriminate; [reflexivity|].
  simpl in *. injection Hn as Hn1 Hn2. injection Hi as Hi1 Hi2.
  rewrite Hn1, Hi1, (IH t' Hn2 Hi2). reflexivity.
Qed.

Lemma same_static_names (t t' : table) :
  Forall2 same_static t t' ->
  map model_name t = map model_name t' /\ map model_id t = map model_id t'.
Proof.
  induction 1 as [|x x' t t' (Hn & Hi & _) _ [IHn IHi]]; [split; reflexivity|].
  simpl. rewrite Hn, Hi, IHn, IHi. split; reflexivity.
Qed.

Lemma init_table_names (b : build_config) (c : @codecs W) :
  map model_name (compress_modules_cmds_init b c) =
    [ Some "none"; Some "zlib"; Some "lz4"; Some "lz4hc"; Some "lzo2";
      Some "lzma"; Some "bzip2"; None ]%string /\
  map model_id (compress_modules_cmds_init b c) = [0; 1; 2; 3; 4; 5; 6; 255].
Proof. destruct b as [[] [] [] [] []]; split; reflexivity. Qed.

(** In the table of the sources, whatever was built and whatever the
    bookkeeping says, the name of the row at index [i] is mapped by
    [get_model] to [i], which is also the id of the row: the id that
    [compress_cfg] gets from a name is the index of the row of that name. *)
Theorem get_model_of_row_name_is_index (b : build_config) (c : codecs) (t : table)
    (i : nat) (r : row) (name : string) :
  Forall2 same_static t (compress_modules_cmds_init b c) ->
  t !! i = Some r -> model_name r = Some name ->
  get_model_scan t name = Some (Z.of_nat i) /\ model_id r = Z.of_nat i.
Proof.
  intros H Hi Hn.
  destruct (same_static_names _ _ H) as [Hnames Hids].
  destruct (init_table_names b c) as [Enames Eids].
  rewrite Enames in Hnames. rewrite Eids in Hids.
  assert (Hni : map model_name t !! i = Some (Some name))
    by (rewrite list_lookup_fmap, Hi; simpl; rewrite Hn; reflexivity).
  assert (Hii : map model_id t !! i = Some (model_id r))
    by (rewrite list_lookup_fmap, Hi; reflexivity).
  rewrite (get_model_scan_by_names t
             (compress_modules_cmds_init (mk_build false false false false false) c)
             name)
    by (destruct (init_table_names (mk_build false false false false false) c);
        congruence).
  rewrite Hnames in Hni. rewrite Hids in Hii.
  by_rows Hni i; simpl in Hii; injection Hii as Hii; split;
    solve [reflexivity | symmetry; exact Hii].
Qed.

(** ** compress_cfg before the lock *)


(** Configuring the model of id 0 ("none") returns 0 and stores model 0
    and the level in the handle without looking at either the level or the
    threshold: the handle's threshold stays, no lock is taken, no back-end
    is called and the table is not touched, so a charge the handle holds
    on another model stays where it is. *)
Theorem compress_cfg_none_only_stores (cfg : knet_handle_compress_cfg)
    (h : knet_handle) (g : global) :
  get_model_scan (compress_modules_cmds g) (cfg_compress_model cfg) = Some 0 ->
  compress_cfg cfg h g =
    Ok 0 (mk_handle 0 (cfg_compress_level cfg) (compress_threshold h)
                    (compress_int_data h))
         (with_os (mk_os 0 (ext (os g))) (cfg_logged cfg g)).
Proof.
  intros Hm.
  unfold compress_cfg, bind at 1 2, log_debug, emit, get_model. simpl.
  rewrite Hm. reflexivity.
Qed.

(** ** The transforms around ensure-init *)

(** Once the id has passed the two checks and ensure-init has succeeded,
    decompress calls the [decompress] slot of the row on the caller's
    buffers and returns its result; the lock is released after the call,
    and [errno] is the one the back-end left. *)
Theorem decompress_calls_backend (cm : Z) (buf_in : list Byte.byte)
    (buf_in_len buf_out buf_out_len : Z) (h h1 h2 : knet_handle) (g g1 : global)
    (r err : Z) (p : row) (f : xform) (o2 : os_state) :
  cm <= max_model g ->
  is_valid_model_scan (compress_modules_cmds g) cm = Some 0 ->
  check_init_lib cm 1 h g = Ok r h1 g1 ->
  0 <= r -> 0 <= cm ->
  compress_modules_cmds g1 !! Z.to_nat cm = Some p ->
  slot_decompress p = Some f ->
  f buf_in buf_in_len buf_out buf_out_len h1 (os g1) = (err, h2, o2) ->
  decompress cm buf_in buf_in_len buf_out buf_out_len h g =
    Ok err h2 (transformed Decompress cm o2 g1) /\
  errno (os (transformed Decompress cm o2 g1)) = errno o2 /\
  trace (transformed Decompress cm o2 g1) = EvUnlock :: EvCall Decompress cm :: trace g1.
Proof.
  intros Hm Hv Hc Hr H0 Hp Hf He. split; [|split; reflexivity].
  unfold decompress, bind at 1, get_max_model_var.
  replace (cm >? max_model g) with false
    by (symmetry; rewrite Z.gtb_ltb; apply Z.ltb_ge; exact Hm).
  unfold bind at 1, is_valid_model. rewrite Hv. simpl.
  unfold bind at 1. rewrite Hc.
  replace (r <? 0) with false by (symmetry; apply Z.ltb_ge; exact Hr).
  unfold bind, get_row. simpl.
  replace (cm <? 0) with false by (symmetry; apply Z.ltb_ge; exact H0).
  rewrite Hp, Hf. simpl. unfold invoke. rewrite He. reflexivity.
Qed.

(** When ensure-init fails, neither transform is called: compress and
    decompress return -1, the handle and the globals are those ensure-init
    left, [errno] included, with one more error line that carries the name
    of the model and that [errno]; the lock is not touched again. *)
Theorem transforms_stop_when_ensure_init_fails (buf_in : list Byte.byte)
    (buf_in_len buf_out buf_out_len : Z) (h h1 : knet_handle) (g g1 : global)
    (r : Z) (p : row) :
  r < 0 ->
  (check_init_lib (compress_model h) 0 h g = Ok r h1 g1 ->
   0 <= compress_model h1 ->
   compress_modules_cmds g1 !! Z.to_nat (compress_model h1) = Some p ->
   compress buf_in buf_in_len buf_out buf_out_len h g =
     Ok (-1) h1 (with_event (EvErr (UnableLoadInitCompress (model_name p)
                                      (errno (os g1)))) g1)) /\
  (forall cm : Z,
      cm <= max_model g ->
      is_valid_model_scan (compress_modules_cmds g) cm = Some 0 ->
      check_init_lib cm 1 h g = Ok r h1 g1 ->
      0 <= cm ->
      compress_modules_cmds g1 !! Z.to_nat cm = Some p ->
      decompress cm buf_in buf_in_len buf_out buf_out_len h g =
        Ok (-1) h1 (with_event (EvErr (UnableLoadInitDecompress (model_name p)
                                         (errno (os g1)))) g1)).
Proof.
  intros Hr. split.
  - intros Hc H0 Hp.
    unfold compress, get_handle, bind at 1 2. rewrite Hc.
    replace (r <? 0) with true by (symmetry; apply Z.ltb_lt; exact Hr).
    unfold bind, get_row. simpl.
    replace (compress_model h1 <? 0) with false by (symmetry; apply Z.ltb_ge; exact H0).
    rewrite Hp. reflexivity.
  - intros cm Hm Hv Hc H0 Hp.
    unfold decompress, bind at 1, get_max_model_var.
    replace (cm >? max_model g) with false
      by (symmetry; rewrite Z.gtb_ltb; apply Z.ltb_ge; exact Hm).
    unfold bind at 1, is_valid_model. rewrite Hv. simpl.
    unfold bind at 1. rewrite Hc.
    replace (r <? 0) with true by (symmetry; apply Z.ltb_lt; exact Hr).
    unfold bind, get_row. simpl.
    replace (cm <? 0) with false by (symmetry; apply Z.ltb_ge; exact H0).
    rewrite Hp. reflexivity.
Qed.

(** The refusal of the rate limit, as a value. *)
Lemma check_init_lib_limited (m : Z) (h h1 h2 : knet_handle) (g g1 g2 : global) :
  rdlock h g = Ok 0 h1 g1 ->
  check_init_lib_ready m h1 g1 = Ok false h2 g2 ->
  tv_sec (last_load_failure g) <> 0 \/ tv_nsec (last_load_failure g) <> 0 ->
  timespec_diff (last_load_failure g) (clock_gettime (ext (os g2))) < 10000000000 ->
  check_init_lib m 1 h g = Ok (-1) h2 (limited g2).
Proof.
  intros Hrd Hready Hnz Hd.
  pose proof (rdlock_keeps _ _ _ _ _ Hrd) as (-> & Hl1 & _).
  pose proof (ready_keeps _ _ _ _ _ _ Hready) as (Hl2 & _).
  rewrite (check_init_lib_not_ready m 1 _ _ _ _ _ _ Hrd Hready).
  unfold check_init_lib_limit, bind, get_last_load_failure, clock_now. simpl.
  rewrite Hl2, Hl1.
  replace (negb (tv_sec (last_load_failure g) =? 0)
           || negb (tv_nsec (last_load_failure g) =? 0)) with true.
  - match goal with
    | |- context [?a <? ?b] => destruct (Z.ltb_spec a b); [| lia]
    end.
    reflexivity.
  - symmetry. apply orb_true_iff.
    destruct Hnz as [Hnz|Hnz]; [left|right];
      apply negb_true_iff, Z.eqb_neq; exact Hnz.
Qed.

(** A packet for a built-in model that the handle is not ready for, less
    than 10 seconds after a load failure of any model: decompress returns
    -1 with errno EAGAIN, logs it with the name of the model, and neither
    takes the write lock nor calls any back-end after the readiness check;
    the table and [last_load_failure] stay. *)
Theorem decompress_is_rate_limited (cm : Z) (buf_in : list Byte.byte)
    (buf_in_len buf_out buf_out_len : Z) (h h1 h2 : knet_handle)
    (g g1 g2 : global) (p : row) :
  cm <= max_model g ->
  is_valid_model_scan (compress_modules_cmds g) cm = Some 0 ->
  rdlock h g = Ok 0 h1 g1 ->
  check_init_lib_ready cm h1 g1 = Ok false h2 g2 ->
  tv_sec (last_load_failure g) <> 0 \/ tv_nsec (last_load_failure g) <> 0 ->
  timespec_diff (last_load_failure g) (clock_gettime (ext (os g2))) < 10000000000 ->
  0 <= cm ->
  compress_modules_cmds g2 !! Z.to_nat cm = Some p ->
  exists g3 : global,
    decompress cm buf_in buf_in_len buf_out buf_out_len h g = Ok (-1) h2 g3 /\
    errno (os g3) = EAGAIN /\
    trace g3 = EvErr (UnableLoadInitDecompress (model_name p) EAGAIN)
               :: EvUnlock :: trace g2 /\
    compress_modules_cmds g3 = compress_modules_cmds g /\
    last_load_failure g3 = last_load_failure g.
Proof.
  intros Hm Hv Hrd Hready Hnz Hd H0 Hp.
  pose proof (check_init_lib_limited cm _ _ _ _ _ _ Hrd Hready Hnz Hd) as Hc.
  pose proof (rdlock_keeps _ _ _ _ _ Hrd) as (_ & Hl1 & Ht1).
  pose proof (ready_keeps _ _ _ _ _ _ Hready) as (Hl2 & Ht2).
  exists (with_event (EvErr (UnableLoadInitDecompress (model_name p) EAGAIN))
                     (limited g2)).
  split.
  - unfold decompress, bind at 1, get_max_model_var.
    replace (cm >? max_model g) with false
      by (symmetry; rewrite Z.gtb_ltb; apply Z.ltb_ge; exact Hm).
    unfold bind at 1, is_valid_model. rewrite Hv. simpl.
    unfold bind at 1. rewrite Hc. simpl.
    unfold bind, get_row. simpl.
    replace (cm <? 0) with false by (symmetry; apply Z.ltb_ge; exact H0).
    rewrite Hp. reflexivity.
  - simpl. repeat split; congruence.
Qed.

(** When ensure-init fails inside compress_cfg, the call returns -1 with
    the [errno] ensure-init left and logs it; the model and the level are
    not stored; and on its way out the call goes through [out_unlock], so
    [pthread_rwlock_unlock] is called once more although ensure-init gave
    the lock back before it returned. *)
Theorem compress_cfg_passes_on_ensure_init_failure (cfg : knet_handle_compress_cfg)
    (h h1 : knet_handle) (g g1 : global) (m r : Z) (p : row) :
  get_model_scan (compress_modules_cmds g) (cfg_compress_model cfg) = Some m ->
  0 < m ->
  compress_modules_cmds g !! Z.to_nat m = Some p ->
  built_in p <> 0 ->
  check_init_lib m 0 h (cfg_logged cfg g) = Ok r h1 g1 ->
  r < 0 ->
  exists g3 : global,
    compress_cfg cfg h g = Ok (-1) h1 g3 /\
    errno (os g3) = errno (os g1) /\
    ext (os g3) = pthread_rwlock_unlock (ext (os g1)) /\
    trace g3 = EvUnlock
               :: EvErr (UnableLoadInit (cfg_compress_model cfg) (errno (os g1)))
               :: trace g1 /\
    compress_modules_cmds g3 = compress_modules_cmds g1.
Proof.
  intros Hm H0 Hp Hb Hc Hr.
  rewrite (compress_cfg_reaches_lock cfg h g m p Hm H0 Hp Hb).
  unfold compress_cfg_locked, bind at 1 2. unfold cfg_logged in Hc. rewrite Hc.
  replace (r <? 0) with true by (symmetry; apply Z.ltb_lt; exact Hr).
  simpl. eexists. split; [reflexivity|]. repeat split.
Qed.

(** ** compress_init *)

(** compress_init never touches the handle or the table.  When it returns
    0 it has not logged anything, [errno] is as before, [last_load_failure]
    is zero, and running it again changes nothing; when it fails it
    returns -1 with errno EINVAL and leaves [last_load_failure] as it
    was. *)
Theorem compress_init_is_idempotent (h h' : knet_handle) (g g' : global) (r : Z) :
  compress_init h g = Ok r h' g' ->
  h' = h /\ compress_modules_cmds g' = compress_modules_cmds g /\
  (r = 0 ->
   last_load_failure g' = mk_timespec 0 0 /\ os g' = os g /\ trace g' = trace g /\
   compress_init h g' = Ok 0 h g') /\
  (r <> 0 ->
   r = -1 /\ last_load_failure g' = last_load_failure g /\ errno (os g') = EINVAL).
Proof.
  unfold compress_init, bind, get_max_model.
  destruct (get_max_model_scan (compress_modules_cmds g) 0) as [mm|] eqn:Hs;
    [|discriminate].
  simpl. destruct (mm >? KNET_MAX_COMPRESS_METHODS) eqn:Hgt; simpl;
    intros E; inversion E; subst; clear E; simpl.
  - split; [reflexivity|]. split; [reflexivity|]. split; [discriminate|].
    intros _. repeat split.
  - split; [reflexivity|]. split; [reflexivity|]. split; [|intros Hn; contradiction].
    intros _. split; [reflexivity|]. split; [reflexivity|]. split; [reflexivity|].
    rewrite Hs. simpl. rewrite Hgt. reflexivity.
Qed.

(** ** Rules for [view_hoare] *)

Section ViewRules.

Context {V : Type} (view : @global W -> V) (bad : fault -> Prop).

Lemma vh_ret {A} (Pre : V -> Prop) (a : A) (Q : A -> V -> Prop) :
  (forall v, Pre v -> Q a v) -> view_hoare view bad Pre (ret a) Q.
Proof. intros HQ h g Hg. simpl. auto. Qed.

Lemma vh_bind {A B} (Pre : V -> Prop) (R : A -> V -> Prop) (Q : B -> V -> Prop)
    (m : M A) (k : A -> M B) :
  view_hoare view bad Pre m R -> (forall a, view_hoare view bad (R a) (k a) Q) ->
  view_hoare view bad Pre (bind m k) Q.
Proof.
  intros Hm Hk h g Hg. unfold bind. specialize (Hm h g Hg).
  destruct (m h g) as [a h' g'|f]; [|exact Hm].
  apply (Hk a h' g' Hm).
Qed.

Lemma vh_post {A} (Pre : V -> Prop) (R Q : A -> V -> Prop) (m : M A) :
  view_hoare view bad Pre m R -> (forall a v, R a v -> Q a v) ->
  view_hoare view bad Pre m Q.
Proof.
  intros Hm HQ h g Hg. specialize (Hm h g Hg).
  destruct (m h g); auto.
Qed.

Lemma vh_pre {A} (Pre Pre' : V -> Prop) (Q : A -> V -> Prop) (m : M A) :
  view_hoare view bad Pre' m Q -> (forall v, Pre v -> Pre' v) ->
  view_hoare view bad Pre m Q.
Proof. intros Hm HP h g Hg. apply Hm. auto. Qed.

Lemma vh_from_pre {A} (Pre : V -> Prop) (Q : A -> V -> Prop) (m : M A) :
  (forall v, Pre v -> view_hoare view bad (fun v' => v' = v) m Q) ->
  view_hoare view bad Pre m Q.
Proof. intros H h g Hg. apply (H _ Hg h g eq_refl). Qed.

Lemma vh_assoc {A B C} (Pre : V -> Prop) (Q : C -> V -> Prop)
    (m : M A) (k1 : A -> M B) (k2 : B -> M C) :
  view_hoare view bad Pre (bind m (fun a => bind (k1 a) k2)) Q ->
  view_hoare view bad Pre (bind (bind m k1) k2) Q.
Proof.
  intros H h g Hg. specialize (H h g Hg). unfold bind in *.
  destruct (m h g); exact H.
Qed.

Lemma vh_crash {A} (Pre : V -> Prop) (Q : A -> V -> Prop) (f : fault) :
  ~ bad f -> view_hoare view bad Pre (crash f) Q.
Proof. intros Hf h g _. exact Hf. Qed.

Lemma vh_keep {A} (Pre : V -> Prop) (m : M A) :
  view_keep view bad m -> view_hoare view bad Pre m (fun _ v => Pre v).
Proof.
  intros Hk h g Hg. specialize (Hk h g).
  destruct (m h g); [rewrite Hk; exact Hg | exact Hk].
Qed.

Lemma vh_returns {A} (Pre : V -> Prop) (Q : A -> V -> Prop) (m : M A)
    (h h' : knet_handle) (g g' : global) (a : A) :
  view_hoare view bad Pre m Q -> Pre (view g) -> m h g = Ok a h' g' -> Q a (view g').
Proof. intros Hm Hg E. specialize (Hm h g Hg). rewrite E in Hm. exact Hm. Qed.

Lemma vh_no_fault {A} (Pre : V -> Prop) (Q : A -> V -> Prop) (m : M A)
    (h : knet_handle) (g : global) (f : fault) :
  view_hoare view bad Pre m Q -> Pre (view g) -> m h g = Fault f -> ~ bad f.
Proof. intros Hm Hg E. specialize (Hm h g Hg). rewrite E in Hm. exact Hm. Qed.

End ViewRules.

(** One step of a forward walk, with [head] the rules of the view for the
    primitive steps. *)
Ltac primitive_step m :=
  lazymatch m with
  | check_init_lib_init _ => fail
  | check_init_lib_load _ => fail
  | check_init_lib_limit _ _ => fail
  | check_init_lib_ready _ => fail
  | check_init_lib _ _ => fail
  | compress_cfg_locked _ _ => fail
  | compress_cfg_out _ _ _ => fail
  | compress_fini_row _ => fail
  | compress_fini_loop _ _ => fail
  | _ => idtac
  end.

Ltac vh_step head :=
  lazymatch goal with
  | |- view_hoare _ _ _ (bind (bind _ _) _) _ => apply vh_assoc
  | |- view_hoare _ _ _ (bind (if ?b then _ else _) _) _ => destruct b eqn:?
  | |- view_hoare _ _ _ (bind (match ?o with Some _ => _ | None => _ end) _) _ =>
      destruct o eqn:?
  | |- view_hoare _ _ _ (bind ?m _) _ =>
      primitive_step m; eapply vh_bind; [head | intros; cbv beta]
  | |- view_hoare _ _ _ (ret _) _ => apply vh_ret; intros; cbv beta in *
  | |- view_hoare _ _ _ (if ?b then _ else _) _ => destruct b eqn:?
  | |- view_hoare _ _ _ (match ?o with Some _ => _ | None => _ end) _ =>
      destruct o eqn:?
  | |- view_hoare _ _ _ ?m _ =>
      primitive_step m; eapply vh_post; [head | intros; cbv beta in *]
  end.

(** ** The lock across a call *)

Ltac keep_by_cases :=
  intros h g; cbv beta;
  repeat match goal with
         | |- context [match ?x with _ => _ end] =>
             lazymatch x with
             | context [match _ with _ => _ end] => fail
             | _ => destruct x eqn:?
             end
         end;
  simpl; first [reflexivity | tauto].

Lemma bal_keep_emit e : lock_delta e = 0 -> view_keep (W:=W) lock_balance any_fault (emit e).
Proof. intros He h g. unfold lock_balance. simpl. rewrite He. reflexivity. Qed.
Lemma bal_keep_log_err m : view_keep (W:=W) lock_balance any_fault (log_err m).
Proof. apply bal_keep_emit. reflexivity. Qed.
Lemma bal_keep_log_debug m : view_keep (W:=W) lock_balance any_fault (log_debug m).
Proof. apply bal_keep_emit. reflexivity. Qed.
Lemma bal_keep_get_errno : view_keep (W:=W) lock_balance any_fault get_errno.
Proof. intros h g. reflexivity. Qed.
Lemma bal_keep_set_errno e : view_keep (W:=W) lock_balance any_fault (set_errno e).
Proof. intros h g. reflexivity. Qed.
Lemma bal_keep_clock_now : view_keep lock_balance any_fault clock_now.
Proof. intros h g. reflexivity. Qed.
Lemma bal_keep_get_llf : view_keep (W:=W) lock_balance any_fault get_last_load_failure.
Proof. intros h g. reflexivity. Qed.
Lemma bal_keep_set_llf t : view_keep (W:=W) lock_balance any_fault (set_last_load_failure t).
Proof. intros h g. reflexivity. Qed.
Lemma bal_keep_get_max_model_var : view_keep (W:=W) lock_balance any_fault get_max_model_var.
Proof. intros h g. reflexivity. Qed.
Lemma bal_keep_set_max_model m : view_keep (W:=W) lock_balance any_fault (set_max_model m).
Proof. intros h g. reflexivity. Qed.
Lemma bal_keep_table_length : view_keep (W:=W) lock_balance any_fault table_length.
Proof. intros h g. reflexivity. Qed.
Lemma bal_keep_get_handle : view_keep (W:=W) lock_balance any_fault get_handle.
Proof. intros h g. reflexivity. Qed.
Lemma bal_keep_put_handle h' : view_keep (W:=W) lock_balance any_fault (put_handle h').
Proof. intros h g. reflexivity. Qed.
Lemma bal_keep_get_row idx : view_keep (W:=W) lock_balance any_fault (get_row idx).
Proof. unfold get_row, any_fault. keep_by_cases. Qed.
Lemma bal_keep_set_row idx r : view_keep (W:=W) lock_balance any_fault (set_row idx r).
Proof. intros h g. reflexivity. Qed.
Lemma bal_keep_get_int_data idx : view_keep (W:=W) lock_balance any_fault (get_int_data idx).
Proof. unfold get_int_data, any_fault. keep_by_cases. Qed.
Lemma bal_keep_set_int_data idx p : view_keep (W:=W) lock_balance any_fault (set_int_data idx p).
Proof. unfold set_int_data, any_fault. keep_by_cases. Qed.
Lemma bal_keep_invoke s idx f : view_keep (W:=W) lock_balance any_fault (invoke s idx f).
Proof. unfold invoke, any_fault. keep_by_cases. Qed.
Lemma bal_keep_get_model m : view_keep (W:=W) lock_balance any_fault (get_model m).
Proof. unfold get_model, any_fault. keep_by_cases. Qed.
Lemma bal_keep_get_max_model : view_keep (W:=W) lock_balance any_fault get_max_model.
Proof. unfold get_max_model, any_fault. keep_by_cases. Qed.
Lemma bal_keep_is_valid_model m : view_keep (W:=W) lock_balance any_fault (is_valid_model m).
Proof. unfold is_valid_model, any_fault. keep_by_cases. Qed.

Create HintDb bal discriminated.
#[local] Hint Resolve bal_keep_log_err bal_keep_log_debug bal_keep_get_errno
  bal_keep_set_errno bal_keep_clock_now bal_keep_get_llf bal_keep_set_llf
  bal_keep_get_max_model_var bal_keep_set_max_model bal_keep_table_length
  bal_keep_get_handle bal_keep_put_handle bal_keep_get_row bal_keep_set_row
  bal_keep_get_int_data bal_keep_set_int_data bal_keep_invoke bal_keep_get_model
  bal_keep_get_max_model bal_keep_is_valid_model : bal.

Lemma bal_rdlock (Pre : Z -> Prop) :
  view_hoare lock_balance any_fault Pre rdlock
    (fun r v => exists v0, Pre v0 /\ v = (if r =? 0 then 1 else 0) + v0).
Proof.
  intros h g Hg. unfold rdlock. destruct (pthread_rwlock_rdlock _) as [r w].
  exists (lock_balance g). split; [exact Hg | reflexivity].
Qed.

Lemma bal_wrlock (Pre : Z -> Prop) :
  view_hoare lock_balance any_fault Pre wrlock
    (fun r v => exists v0, Pre v0 /\ v = (if r =? 0 then 1 else 0) + v0).
Proof.
  intros h g Hg. unfold wrlock. destruct (pthread_rwlock_wrlock _) as [r w].
  exists (lock_balance g). split; [exact Hg | reflexivity].
Qed.

Lemma bal_unlock (Pre : Z -> Prop) :
  view_hoare lock_balance any_fault Pre unlock
    (fun _ v => exists v0, Pre v0 /\ v = -1 + v0).
Proof. intros h g Hg. exists (lock_balance g). split; [exact Hg | reflexivity]. Qed.

Ltac bal_head :=
  first [ apply bal_rdlock | apply bal_wrlock | apply bal_unlock
        | apply vh_keep; solve [auto with bal] ].

Ltac bal_arith :=
  unpack;
  repeat match goal with
         | H : negb (?r =? 0) = _ |- _ => destruct (r =? 0); simpl in H; try discriminate
         end;
  try lia.

Lemma bal_check_init_lib_init (m v0 : Z) :
  view_hoare lock_balance any_fault (fun v => v = v0) (check_init_lib_init m)
    (fun r v => (r = 0 /\ v = v0) \/ (r = -1 /\ v = v0 - 1)).
Proof.
  unfold check_init_lib_init, libref_incr.
  repeat vh_step bal_head; bal_arith.
Qed.

Lemma bal_check_init_lib_load (m v0 : Z) :
  view_hoare lock_balance any_fault (fun v => v = v0) (check_init_lib_load m)
    (fun r v => (r = 0 /\ v = v0) \/ (r = -1 /\ v = v0 - 1)).
Proof.
  unfold check_init_lib_load, set_loaded.
  repeat vh_step bal_head; bal_arith.
  all: apply vh_from_pre; intros v Hv; bal_arith;
    eapply vh_post; [apply bal_check_init_lib_init | intros; cbv beta in *; lia].
Qed.

Lemma bal_check_init_lib (m rl v0 : Z) :
  view_hoare lock_balance any_fault (fun v => v = v0) (check_init_lib m rl)
    (fun r v => (r = 0 /\ v = v0 + 1) \/ (r = -1 /\ v = v0)).
Proof.
  unfold check_init_lib, check_init_lib_ready, check_init_lib_limit.
  repeat vh_step bal_head; bal_arith.
  all: apply vh_from_pre; intros v Hv; bal_arith;
    eapply vh_post; [apply bal_check_init_lib_load | intros; cbv beta in *; lia].
Qed.

Ltac bal_call lem :=
  apply vh_from_pre; intros; bal_arith;
  eapply vh_bind; [apply lem | intros; cbv beta].

Lemma bal_compress (buf_in : list Byte.byte) (buf_in_len buf_out buf_out_len v0 : Z) :
  view_hoare lock_balance any_fault (fun v => v = v0)
    (compress buf_in buf_in_len buf_out buf_out_len) (fun _ v => v = v0).
Proof.
  unfold compress.
  vh_step bal_head. bal_call bal_check_init_lib.
  repeat vh_step bal_head; bal_arith.
Qed.

Lemma bal_decompress (cm : Z) (buf_in : list Byte.byte)
    (buf_in_len buf_out buf_out_len v0 : Z) :
  view_hoare lock_balance any_fault (fun v => v = v0)
    (decompress cm buf_in buf_in_len buf_out buf_out_len) (fun _ v => v = v0).
Proof.
  unfold decompress.
  repeat vh_step bal_head; bal_arith.
  bal_call bal_check_init_lib.
  repeat vh_step bal_head; bal_arith.
Qed.

Lemma bal_compress_fini_row (idx v0 : Z) :
  view_hoare lock_balance any_fault (fun v => v = v0) (compress_fini_row idx)
             (fun _ v => v = v0).
Proof.
  unfold compress_fini_row, libref_decr, set_loaded.
  repeat vh_step bal_head; bal_arith.
Qed.

Lemma bal_compress_fini_loop (n : nat) (idx v0 : Z) :
  view_hoare lock_balance any_fault (fun v => v = v0) (compress_fini_loop n idx)
             (fun _ v => v = v0).
Proof.
  revert idx. induction n as [|n IH]; intros idx; simpl.
  - repeat vh_step bal_head; bal_arith.
    bal_call bal_compress_fini_row.
    apply vh_crash. intros [].
  - repeat vh_step bal_head; bal_arith.
    bal_call bal_compress_fini_row.
    eapply vh_pre; [apply IH | intros; cbv beta in *; lia].
Qed.

Lemma bal_compress_fini (v0 : Z) :
  view_hoare lock_balance any_fault (fun v => v = v0) compress_fini (fun _ v => v = v0).
Proof.
  unfold compress_fini.
  repeat vh_step bal_head; bal_arith.
  bal_call bal_compress_fini_loop.
  repeat vh_step bal_head; bal_arith.
Qed.

Lemma bal_compress_cfg_out (cfg : knet_handle_compress_cfg) (m : Z) (se : Z * Z) (v0 : Z) :
  view_hoare (W:=W) lock_balance any_fault (fun v => v = v0) (compress_cfg_out cfg m se)
             (fun r v => r = snd se /\ v = v0).
Proof.
  unfold compress_cfg_out. destruct se as [savederrno err].
  repeat vh_step bal_head; bal_arith; auto.
Qed.

Lemma bal_compress_cfg_locked (cfg : knet_handle_compress_cfg) (m v0 : Z) :
  view_hoare lock_balance any_fault (fun v => v = v0) (compress_cfg_locked cfg m)
    (fun se v => (snd se = 0 /\ v = v0 + 1) \/
                 (snd se = -1 /\ (v = v0 \/ v = v0 + 1))).
Proof.
  unfold compress_cfg_locked, val_level.
  eapply vh_bind; [apply bal_check_init_lib | intros; cbv beta].
  repeat vh_step bal_head; bal_arith; simpl; lia.
Qed.

Lemma bal_compress_cfg (cfg : knet_handle_compress_cfg) (v0 : Z) :
  view_hoare lock_balance any_fault (fun v => v = v0) (compress_cfg cfg)
    (fun r v => (r = 0 /\ v = v0) \/ (r = -1 /\ (v = v0 \/ v = v0 - 1))).
Proof.
  unfold compress_cfg.
  repeat vh_step bal_head; bal_arith.
  - apply vh_from_pre; intros; bal_arith.
    eapply vh_post; [apply bal_compress_cfg_out | intros; cbv beta in *; simpl in *; lia].
  - bal_call bal_compress_cfg_locked.
    vh_step bal_head.
    apply vh_from_pre; intros; bal_arith.
    eapply vh_post; [apply bal_compress_cfg_out | intros; cbv beta in *; simpl in *; lia].
  - apply vh_from_pre; intros; bal_arith.
    eapply vh_post; [apply bal_compress_cfg_out | intros; cbv beta in *; simpl in *; lia].
Qed.

(** [check_init_lib] returns 0 or -1: with 0 it holds the lock once more
    than when it was called (the caller has to release it), with -1 it
    holds what it held before. *)
Theorem check_init_lib_returns_with_lock (m rl r : Z) (h h' : knet_handle)
    (g g' : global) :
  check_init_lib m rl h g = Ok r h' g' ->
  (r = 0 /\ held (trace g') = held (trace g) + 1) \/
  (r = -1 /\ held (trace g') = held (trace g)).
Proof.
  intros E.
  apply (vh_returns _ _ _ _ _ _ _ _ _ _ (bal_check_init_lib m rl _) eq_refl E).
Qed.

(** compress, decompress and compress_fini release what they take: on
    every return the number of holds on the lock is what it was.  So does
    compress_cfg when it returns 0; when it returns -1 it has either done
    so or called unlock once more than it locked. *)
Theorem entry_points_release_the_lock (h h' : knet_handle) (g g' : global) :
  (forall (buf_in : list Byte.byte) (buf_in_len buf_out buf_out_len r : Z),
      compress buf_in buf_in_len buf_out buf_out_len h g = Ok r h' g' ->
      held (trace g') = held (trace g)) /\
  (forall (cm : Z) (buf_in : list Byte.byte) (buf_in_len buf_out buf_out_len r : Z),
      decompress cm buf_in buf_in_len buf_out buf_out_len h g = Ok r h' g' ->
      held (trace g') = held (trace g)) /\
  (forall u : unit,
      compress_fini h g = Ok u h' g' -> held (trace g') = held (trace g)) /\
  (forall (cfg : knet_handle_compress_cfg) (r : Z),
      compress_cfg cfg h g = Ok r h' g' ->
      (r = 0 /\ held (trace g') = held (trace g)) \/
      (r = -1 /\ (held (trace g') = held (trace g) \/
                  held (trace g') = held (trace g) - 1))).
Proof.
  split; [|split; [|split]].
  - intros buf_in buf_in_len buf_out buf_out_len r E.
    apply (vh_returns _ _ _ _ _ _ _ _ _ _ (bal_compress _ _ _ _ _) eq_refl E).
  - intros cm buf_in buf_in_len buf_out buf_out_len r E.
    apply (vh_returns _ _ _ _ _ _ _ _ _ _ (bal_decompress _ _ _ _ _ _) eq_refl E).
  - intros u E.
    apply (vh_returns _ _ _ _ _ _ _ _ _ _ (bal_compress_fini _) eq_refl E).
  - intros cfg r E.
    apply (vh_returns _ _ _ _ _ _ _ _ _ _ (bal_compress_cfg cfg _) eq_refl E).
Qed.

(** ** The static part of the table, and calls through NULL slots *)

Lemma static_eq_refl (r : row) : static_eq r r.
Proof. reflexivity. Qed.

Lemma static_eq_trans (r1 r2 r3 : row) :
  static_eq r1 r2 -> static_eq r2 r3 -> static_eq r1 r3.
Proof. unfold static_eq. congruence. Qed.

Lemma static_eq_libref (r : row) (n : Z) : static_eq r (with_libref n r).
Proof. reflexivity. Qed.

Lemma static_eq_loaded (r : row) (n : Z) : static_eq r (with_loaded n r).
Proof. reflexivity. Qed.

Lemma static_eq_fields (r1 r2 : row) :
  static_eq r1 r2 ->
  model_name r1 = model_name r2 /\ model_id r1 = model_id r2 /\
  built_in r1 = built_in r2 /\ load_lib r1 = load_lib r2 /\
  unload_lib r1 = unload_lib r2 /\ is_init r1 = is_init r2 /\
  init r1 = init r2 /\ fini r1 = fini r2 /\
  slot_val_level r1 = slot_val_level r2 /\ slot_compress r1 = slot_compress r2 /\
  slot_decompress r1 = slot_decompress r2.
Proof.
  destruct r1, r2. unfold static_eq, with_libref, with_loaded. simpl.
  intros E. inversion E. repeat split.
Qed.

Lemma static_table_refl (t : table) : static_table t t.
Proof. induction t; constructor; [reflexivity | assumption]. Qed.

Lemma static_table_set (t0 t : table) (i : nat) (r r' : row) :
  static_table t0 t -> t !! i = Some r -> static_eq r r' ->
  static_table t0 (<[i := r']> t).
Proof.
  intros Ht Hi Hr.
  destruct (Forall2_lookup_r _ _ _ _ _ Ht Hi) as (r0 & Hi0 & Hr0).
  rewrite <- (list_insert_id t0 i r0 Hi0).
  apply Forall2_insert; [exact Ht | eapply static_eq_trans; eassumption].
Qed.

Lemma static_table_row (t0 t : table) (i : nat) (r : row) :
  static_table t0 t -> t !! i = Some r ->
  exists r0 : row, t0 !! i = Some r0 /\ static_eq r0 r.
Proof. intros Ht Hi. apply (Forall2_lookup_r _ _ _ _ _ Ht Hi). Qed.

Lemma static_table_slots (t0 t : table) (i : nat) (r : row) :
  complete_rows t0 -> static_table t0 t -> t !! i = Some r -> built_in r <> 0 ->
  load_lib r <> None /\ unload_lib r <> None /\ slot_val_level r <> None /\
  slot_compress r <> None /\ slot_decompress r <> None.
Proof.
  intros Hc Ht Hi Hb.
  destruct (static_table_row _ _ _ _ Ht Hi) as (r0 & Hi0 & Hr0).
  apply static_eq_fields in Hr0 as (_ & _ & Eb & El & Eu & _ & _ & _ & Ev & Ec & Ed).
  rewrite <- El, <- Eu, <- Ev, <- Ec, <- Ed.
  apply (Hc i r0 Hi0). congruence.
Qed.

Lemma static_table_usable (t0 t : table) (m : Z) (r : row) :
  usable m t0 -> static_table t0 t -> t !! Z.to_nat m = Some r -> built_in r <> 0.
Proof.
  intros Hu Ht Hi.
  destruct (static_table_row _ _ _ _ Ht Hi) as (r0 & Hi0 & Hr0).
  apply static_eq_fields in Hr0 as (_ & _ & Eb & _).
  rewrite <- Eb. apply (Hu r0 Hi0).
Qed.

Section StaticRules.

Context (bad : fault -> Prop) (t0 : table).
Hypothesis bad_oob : forall i : Z, ~ bad (OutOfBounds i).

Local Abbreviation tbl := (@compress_modules_cmds W).

Lemma st_keep_emit e : view_keep tbl bad (emit e).
Proof. intros h g. reflexivity. Qed.
Lemma st_keep_log_err m : view_keep tbl bad (log_err m).
Proof. intros h g. reflexivity. Qed.
Lemma st_keep_log_debug m : view_keep tbl bad (log_debug m).
Proof. intros h g. reflexivity. Qed.
Lemma st_keep_get_errno : view_keep tbl bad get_errno.
Proof. intros h g. reflexivity. Qed.
Lemma st_keep_set_errno e : view_keep tbl bad (set_errno e).
Proof. intros h g. reflexivity. Qed.
Lemma st_keep_rdlock : view_keep tbl bad rdlock.
Proof. intros h g. unfold rdlock. destruct (pthread_rwlock_rdlock _). reflexivity. Qed.
Lemma st_keep_wrlock : view_keep tbl bad wrlock.
Proof. intros h g. unfold wrlock. destruct (pthread_rwlock_wrlock _). reflexivity. Qed.
Lemma st_keep_unlock : view_keep tbl bad unlock.
Proof. intros h g. reflexivity. Qed.
Lemma st_keep_clock_now : view_keep tbl bad clock_now.
Proof. intros h g. reflexivity. Qed.
Lemma st_keep_get_llf : view_keep tbl bad get_last_load_failure.
Proof. intros h g. reflexivity. Qed.
Lemma st_keep_set_llf t : view_keep tbl bad (set_last_load_failure t).
Proof. intros h g. reflexivity. Qed.
Lemma st_keep_get_max_model_var : view_keep tbl bad get_max_model_var.
Proof. intros h g. reflexivity. Qed.
Lemma st_keep_set_max_model m : view_keep tbl bad (set_max_model m).
Proof. intros h g. reflexivity. Qed.
Lemma st_keep_table_length : view_keep tbl bad table_length.
Proof. intros h g. reflexivity. Qed.
Lemma st_keep_get_handle : view_keep tbl bad get_handle.
Proof. intros h g. reflexivity. Qed.
Lemma st_keep_put_handle h' : view_keep tbl bad (put_handle h').
Proof. intros h g. reflexivity. Qed.
Lemma st_keep_get_int_data idx : view_keep tbl bad (get_int_data idx).
Proof.
  intros h g. unfold get_int_data.
  destruct (idx <? 0); [apply bad_oob|]. destruct (_ !! _); [reflexivity|apply bad_oob].
Qed.
Lemma st_keep_set_int_data idx p : view_keep tbl bad (set_int_data idx p).
Proof.
  intros h g. unfold set_int_data.
  destruct (idx <? 0); [apply bad_oob|]. destruct (_ !! _); [reflexivity|apply bad_oob].
Qed.
Lemma st_keep_get_model m : view_keep tbl bad (get_model m).
Proof.
  intros h g. unfold get_model. destruct (get_model_scan _ _); [reflexivity|apply bad_oob].
Qed.
Lemma st_keep_get_max_model : view_keep tbl bad get_max_model.
Proof.
  intros h g. unfold get_max_model.
  destruct (get_max_model_scan _ _); [reflexivity|apply bad_oob].
Qed.

Lemma st_get_row (Pre : table -> Prop) (idx : Z) :
  view_hoare tbl bad Pre (get_row idx)
             (fun r t => Pre t /\ 0 <= idx /\ t !! Z.to_nat idx = Some r).
Proof.
  intros h g Hg. unfold get_row.
  destruct (Z.ltb_spec idx 0); [apply bad_oob|].
  destruct (compress_modules_cmds g !! Z.to_nat idx) eqn:E; [|apply bad_oob].
  repeat split; assumption.
Qed.

Lemma st_is_valid_model (Pre : table -> Prop) (cm : Z) :
  view_hoare tbl bad Pre (is_valid_model cm)
             (fun v t => Pre t /\ is_valid_model_scan t cm = Some v).
Proof.
  intros h g Hg. unfold is_valid_model.
  destruct (is_valid_model_scan _ _) eqn:E; [|apply bad_oob].
  split; [assumption | exact E].
Qed.

Lemma st_set_row (Pre : table -> Prop) (idx : Z) (r : row) :
  (forall t, Pre t -> exists r0, static_table t0 t /\ t !! Z.to_nat idx = Some r0 /\
                                 static_eq r0 r) ->
  view_hoare tbl bad Pre (set_row idx r) (fun _ t => static_table t0 t).
Proof.
  intros Hs h g Hg. destruct (Hs _ Hg) as (r0 & Ht & Hi & Hr). simpl.
  eapply static_table_set; eassumption.
Qed.

Lemma st_invoke (Pre : table -> Prop) (s : op_slot) (idx : Z) (f : option bop) :
  (forall t, Pre t -> f <> None \/ ~ bad (NullCall s idx)) ->
  view_hoare tbl bad Pre (invoke s idx f) (fun _ t => Pre t).
Proof.
  intros Hs h g Hg. unfold invoke. destruct f as [f|].
  - destruct (f h (os g)) as [[r h'] o']. exact Hg.
  - destruct (Hs _ Hg) as [Hn|Hn]; [congruence | exact Hn].
Qed.

Create HintDb st discriminated.
#[local] Hint Resolve st_keep_emit st_keep_log_err st_keep_log_debug st_keep_get_errno
  st_keep_set_errno st_keep_rdlock st_keep_wrlock st_keep_unlock st_keep_clock_now
  st_keep_get_llf st_keep_set_llf st_keep_get_max_model_var st_keep_set_max_model
  st_keep_table_length st_keep_get_handle st_keep_put_handle st_keep_get_int_data
  st_keep_set_int_data st_keep_get_model st_keep_get_max_model : st.

(** The side condition of [st_set_row]: the row written is the row read,
    with other bookkeeping. *)
Ltac st_side_set :=
  intros; unpack; eexists;
  split; [eassumption | split; [eassumption |
    first [apply static_eq_libref | apply static_eq_loaded]]].

(** That a row is built in, from the test the code has just made or from
    what is known of the table at the start. *)
Ltac st_built_in :=
  first
    [ eapply static_table_usable; eassumption
    | apply Z.eqb_neq; assumption
    | repeat match goal with
             | H : (_ && _) = true |- _ => apply andb_prop in H; destruct H
             | H : (_ =? _) = true |- _ => apply Z.eqb_eq in H
             end; lia ].

(** The side condition of [st_invoke]: the slot called is not NULL, or a
    call through NULL is not excluded. *)
Ltac st_side_invoke Hs Hu :=
  intros; unpack;
  first
    [ left; discriminate
    | right; match goal with H : forall s i, ~ bad (NullCall s i) |- _ => apply H end
    | let Hany := fresh "Hany" in
      let Hc := fresh "Hc" in
      let Hus := fresh "Hus" in
      destruct Hs as [Hany|Hc]; [right; apply Hany|];
      try (destruct Hu as [Hany|Hus]; [right; apply Hany|]);
      left;
      match goal with
      | Hi : ?t !! _ = Some ?a, Ht : static_table t0 ?t |- _ =>
          let Hb := fresh "Hb" in
          assert (Hb : built_in a <> 0) by st_built_in;
          destruct (static_table_slots _ _ _ _ Hc Ht Hi Hb) as (? & ? & ? & ? & ?);
          first [ assumption
                | destruct (slot_val_level a); [discriminate | contradiction]
                | destruct (slot_compress a); [discriminate | contradiction]
                | destruct (slot_decompress a); [discriminate | contradiction] ]
      end ].

Ltac st_head Hs Hu :=
  first [ apply st_get_row
        | apply st_is_valid_model
        | apply st_set_row; st_side_set
        | apply st_invoke; st_side_invoke Hs Hu
        | apply vh_keep; solve [auto with st] ].

Ltac st_leaf := unpack; try assumption.

Ltac st_call lem :=
  eapply vh_pre; [apply lem; assumption | intros; cbv beta in *; unpack; assumption].

Section EnsureInit.

Variable m : Z.
Hypothesis Hs : (forall s i, ~ bad (NullCall s i)) \/ complete_rows t0.
Hypothesis Hu : (forall s i, ~ bad (NullCall s i)) \/ usable m t0.

Lemma st_check_init_lib_init :
  view_hoare tbl bad (static_table t0) (check_init_lib_init m)
             (fun _ t => static_table t0 t).
Proof.
  unfold check_init_lib_init, libref_incr.
  repeat vh_step ltac:(st_head Hs Hu); st_leaf.
Qed.

Lemma st_check_init_lib_load :
  view_hoare tbl bad (static_table t0) (check_init_lib_load m)
             (fun _ t => static_table t0 t).
Proof.
  unfold check_init_lib_load, set_loaded.
  repeat vh_step ltac:(st_head Hs Hu); st_leaf.
  all: st_call st_check_init_lib_init.
Qed.

Lemma st_check_init_lib (rl : Z) :
  view_hoare tbl bad (static_table t0) (check_init_lib m rl)
             (fun _ t => static_table t0 t).
Proof.
  unfold check_init_lib. vh_step ltac:(st_head Hs Hu).
  vh_step ltac:(st_head Hs Hu).
  - repeat vh_step ltac:(st_head Hs Hu); st_leaf.
  - unfold check_init_lib_ready, check_init_lib_limit.
    repeat vh_step ltac:(st_head Hs Hu); st_leaf.
    all: st_call st_check_init_lib_load.
Qed.

End EnsureInit.

Section EntryPoints.

Hypothesis Hs : (forall s i, ~ bad (NullCall s i)) \/ complete_rows t0.

Lemma st_compress_init :
  view_hoare tbl bad (static_table t0) compress_init (fun _ t => static_table t0 t).
Proof.
  unfold compress_init.
  repeat vh_step ltac:(st_head Hs Hs); st_leaf.
Qed.

Lemma st_compress_cfg_out (cfg : knet_handle_compress_cfg) (m : Z) (se : Z * Z) :
  view_hoare tbl bad (static_table t0) (compress_cfg_out cfg m se)
             (fun _ t => static_table t0 t).
Proof.
  unfold compress_cfg_out. destruct se as [savederrno err].
  repeat vh_step ltac:(st_head Hs Hs); st_leaf.
Qed.

Lemma st_compress_cfg_locked (cfg : knet_handle_compress_cfg) (m : Z) :
  (forall s i, ~ bad (NullCall s i)) \/ usable m t0 ->
  view_hoare tbl bad (static_table t0) (compress_cfg_locked cfg m)
             (fun _ t => static_table t0 t).
Proof.
  intros Hu. unfold compress_cfg_locked, val_level.
  eapply vh_bind; [apply st_check_init_lib; assumption | intros; cbv beta].
  repeat vh_step ltac:(st_head Hs Hu); st_leaf.
Qed.

Lemma usable_from_row (t : table) (m : Z) (r : row) :
  static_table t0 t -> t !! Z.to_nat m = Some r -> built_in r <> 0 -> usable m t0.
Proof.
  intros Ht Hi Hb r0 Hi0.
  destruct (static_table_row _ _ _ _ Ht Hi) as (r0' & Hi0' & Hr0).
  assert (r0' = r0) by congruence. subst r0'.
  apply static_eq_fields in Hr0 as (_ & _ & Eb & _). congruence.
Qed.

Lemma st_compress_cfg (cfg : knet_handle_compress_cfg) :
  view_hoare tbl bad (static_table t0) (compress_cfg cfg)
             (fun _ t => static_table t0 t).
Proof.
  unfold compress_cfg.
  repeat vh_step ltac:(st_head Hs Hs); st_leaf.
  - st_call st_compress_cfg_out.
  - apply vh_from_pre; intros t Ht; unpack.
    assert (Hu : (forall s i, ~ bad (NullCall s i)) \/ usable a0 t0).
    { right. eapply usable_from_row; [eassumption | eassumption |].
      apply Z.eqb_neq. assumption. }
    eapply vh_bind;
      [ eapply vh_pre; [apply (st_compress_cfg_locked cfg a0 Hu) | intros; subst; assumption]
      | intros; cbv beta ].
    vh_step ltac:(st_head Hs Hs). st_call st_compress_cfg_out.
  - st_call st_compress_cfg_out.
Qed.

Lemma st_compress_fini_row (idx : Z) :
  view_hoare tbl bad (static_table t0) (compress_fini_row idx)
             (fun _ t => static_table t0 t).
Proof.
  unfold compress_fini_row, libref_decr, set_loaded.
  vh_step ltac:(st_head Hs Hs). vh_step ltac:(st_head Hs Hs).
  - apply vh_from_pre; intros t Ht; unpack.
    assert (Hu : (forall s i, ~ bad (NullCall s i)) \/ usable idx t0).
    { right. eapply usable_from_row; [eassumption | eassumption | st_built_in]. }
    eapply vh_pre; [|intros; subst; eassumption].
    repeat vh_step ltac:(st_head Hs Hu); st_leaf.
  - repeat vh_step ltac:(st_head Hs Hs); st_leaf.
Qed.

Lemma st_compress_fini_loop (n : nat) (idx : Z) :
  view_hoare tbl bad (static_table t0) (compress_fini_loop n idx)
             (fun _ t => static_table t0 t).
Proof.
  revert idx. induction n as [|n IH]; intros idx; simpl.
  - repeat vh_step ltac:(st_head Hs Hs); st_leaf.
    eapply vh_bind; [st_call st_compress_fini_row | intros; cbv beta].
    apply vh_crash. apply bad_oob.
  - repeat vh_step ltac:(st_head Hs Hs); st_leaf.
    eapply vh_bind; [st_call st_compress_fini_row | intros; cbv beta].
    apply IH.
Qed.

Lemma st_compress_fini :
  view_hoare tbl bad (static_table t0) compress_fini (fun _ t => static_table t0 t).
Proof.
  unfold compress_fini.
  repeat vh_step ltac:(st_head Hs Hs); st_leaf.
  eapply vh_bind; [st_call st_compress_fini_loop | intros; cbv beta].
  repeat vh_step ltac:(st_head Hs Hs); st_leaf.
Qed.

Lemma is_valid_model_scan_found (t : table) (cm v : Z) :
  is_valid_model_scan t cm = Some v ->
  v = -1 \/
  (v = 0 /\ exists (i : nat) (r : row),
              t !! i = Some r /\ model_name r <> None /\ model_id r = cm /\
              built_in r = 1).
Proof.
  induction t as [|x t IH]; simpl; [discriminate|].
  destruct (model_name x) as [n|] eqn:En.
  - destruct (Z.eqb_spec cm (model_id x)) as [Hc|Hc];
      [destruct (Z.eqb_spec (built_in x) 1) as [Hb|Hb]|]; simpl.
    + intros E. injection E as <-. right. split; [reflexivity|].
      exists 0%nat, x. split; [reflexivity|]. split; [congruence|]. auto.
    + intros E. destruct (IH E) as [Hv|(Hv & i & r & Hi & Hr)]; [left; exact Hv|].
      right. split; [exact Hv|]. exists (S i), r. split; [exact Hi | exact Hr].
    + intros E. destruct (IH E) as [Hv|(Hv & i & r & Hi & Hr)]; [left; exact Hv|].
      right. split; [exact Hv|]. exists (S i), r. split; [exact Hi | exact Hr].
  - intros E. injection E as <-. left. reflexivity.
Qed.

Lemma valid_row_usable (t : table) (cm v : Z) :
  is_valid_model_scan t cm = Some v -> (v <? 0) = false ->
  ids_are_indices t0 -> static_table t0 t -> usable cm t0.
Proof.
  intros Hv Hpos Hids Ht.
  destruct (is_valid_model_scan_found _ _ _ Hv) as [->|(_ & i & r & Hi & Hn & Hid & Hb)];
    [discriminate|].
  destruct (static_table_row _ _ _ _ Ht Hi) as (r0 & Hi0 & Hr0).
  apply static_eq_fields in Hr0 as (En & Ei & Eb & _).
  assert (Hidx : model_id r0 = Z.of_nat i) by (apply (Hids i r0 Hi0); congruence).
  intros r' Hr'. replace (Z.to_nat cm) with i in Hr' by lia.
  assert (r' = r0) by congruence. subst r'. lia.
Qed.

Lemma st_decompress (cm : Z) (buf_in : list Byte.byte)
    (buf_in_len buf_out buf_out_len : Z) :
  (forall s i, ~ bad (NullCall s i)) \/ ids_are_indices t0 ->
  view_hoare tbl bad (static_table t0)
             (decompress cm buf_in buf_in_len buf_out buf_out_len)
             (fun _ t => static_table t0 t).
Proof.
  intros Hi. unfold decompress.
  repeat vh_step ltac:(st_head Hs Hs); st_leaf.
  apply vh_from_pre; intros t Ht; unpack.
  assert (Hu : (forall s i, ~ bad (NullCall s i)) \/ usable cm t0).
  { destruct Hi as [Hi|Hi]; [left; exact Hi | right].
    eapply valid_row_usable; eassumption. }
  eapply vh_bind;
    [ eapply vh_pre; [apply (st_check_init_lib cm Hs Hu) | intros; subst; assumption]
    | intros; cbv beta ].
  repeat vh_step ltac:(st_head Hs Hu); st_leaf.
Qed.

Lemma st_compress (buf_in : list Byte.byte) (buf_in_len buf_out buf_out_len : Z) :
  (forall s i, ~ bad (NullCall s i)) ->
  view_hoare tbl bad (static_table t0)
             (compress buf_in buf_in_len buf_out buf_out_len)
             (fun _ t => static_table t0 t).
Proof.
  intros Hany. unfold compress.
  assert (Ha : (forall s i, ~ bad (NullCall s i)) \/ complete_rows t0)
    by (left; exact Hany).
  vh_step ltac:(st_head Ha Ha).
  eapply vh_bind;
    [ eapply vh_pre;
      [ apply (st_check_init_lib (compress_model a) Ha);
        left; exact Hany
      | intros; cbv beta in *; assumption ]
    | intros; cbv beta ].
  repeat vh_step ltac:(st_head Ha Ha); st_leaf.
Qed.

End EntryPoints.

End StaticRules.

Lemma any_fault_oob (i : Z) : ~ any_fault (OutOfBounds i).
Proof. intros []. Qed.

Lemma any_fault_null : forall (s : op_slot) (i : Z), ~ any_fault (NullCall s i).
Proof. intros s i []. Qed.

Lemma null_call_oob (i : Z) : ~ is_null_call (OutOfBounds i).
Proof. intros []. Qed.

Lemma static_table_complete (t0 t : table) :
  static_table t0 t -> complete_rows t0 -> complete_rows t.
Proof. intros Ht Hc i r Hi Hb. eapply static_table_slots; eassumption. Qed.

Lemma static_table_ids (t0 t : table) :
  static_table t0 t -> ids_are_indices t0 -> ids_are_indices t.
Proof.
  intros Ht Hids i r Hi Hn.
  destruct (static_table_row _ _ _ _ Ht Hi) as (r0 & Hi0 & Hr0).
  apply static_eq_fields in Hr0 as (En & Ei & _).
  rewrite <- Ei. apply (Hids i r0 Hi0). congruence.
Qed.

(** Whatever an entry point does before it returns, the table keeps its
    length, and every row keeps its name, id, build flag and slots: only
    [libref] and [loaded] ever change.  Tables that differ in this way
    only have the same complete rows and the same ids at the same
    indices. *)
Theorem entry_points_keep_static_part (h h' : knet_handle) (g g' : global) :
  (forall m rl r : Z,
      check_init_lib m rl h g = Ok r h' g' ->
      static_table (compress_modules_cmds g) (compress_modules_cmds g')) /\
  (forall r : Z,
      compress_init h g = Ok r h' g' ->
      static_table (compress_modules_cmds g) (compress_modules_cmds g')) /\
  (forall (cfg : knet_handle_compress_cfg) (r : Z),
      compress_cfg cfg h g = Ok r h' g' ->
      static_table (compress_modules_cmds g) (compress_modules_cmds g')) /\
  (forall (buf_in : list Byte.byte) (buf_in_len buf_out buf_out_len r : Z),
      compress buf_in buf_in_len buf_out buf_out_len h g = Ok r h' g' ->
      static_table (compress_modules_cmds g) (compress_modules_cmds g')) /\
  (forall (cm : Z) (buf_in : list Byte.byte) (buf_in_len buf_out buf_out_len r : Z),
      decompress cm buf_in buf_in_len buf_out buf_out_len h g = Ok r h' g' ->
      static_table (compress_modules_cmds g) (compress_modules_cmds g')) /\
  (forall u : unit,
      compress_fini h g = Ok u h' g' ->
      static_table (compress_modules_cmds g) (compress_modules_cmds g')) /\
  (forall t0 t : table,
      static_table t0 t ->
      List.length t = List.length t0 /\
      (complete_rows t0 -> complete_rows t) /\
      (ids_are_indices t0 -> ids_are_indices t)).
Proof.
  pose proof any_fault_oob as Hoob.
  assert (Hs : forall t0 : table,
             (forall s i, ~ any_fault (NullCall s i)) \/ complete_rows t0)
    by (intros; left; exact any_fault_null).
  split; [|split; [|split; [|split; [|split; [|split]]]]].
  - intros m rl r E.
    refine (vh_returns _ _ _ _ _ _ _ _ _ _
              (st_check_init_lib any_fault _ Hoob m (Hs _) _ rl)
              (static_table_refl _) E).
    left. exact any_fault_null.
  - intros r E.
    exact (vh_returns _ _ _ _ _ _ _ _ _ _
             (st_compress_init any_fault _ Hoob) (static_table_refl _) E).
  - intros cfg r E.
    exact (vh_returns _ _ _ _ _ _ _ _ _ _
             (st_compress_cfg any_fault _ Hoob (Hs _) cfg) (static_table_refl _) E).
  - intros buf_in buf_in_len buf_out buf_out_len r E.
    exact (vh_returns _ _ _ _ _ _ _ _ _ _
             (st_compress any_fault _ Hoob _ _ _ _ any_fault_null)
             (static_table_refl _) E).
  - intros cm buf_in buf_in_len buf_out buf_out_len r E.
    refine (vh_returns _ _ _ _ _ _ _ _ _ _
              (st_decompress any_fault _ Hoob (Hs _) cm _ _ _ _ _)
              (static_table_refl _) E).
    left. exact any_fault_null.
  - intros u E.
    exact (vh_returns _ _ _ _ _ _ _ _ _ _
             (st_compress_fini any_fault _ Hoob (Hs _)) (static_table_refl _) E).
  - intros t0 t Ht. split; [|split].
    + symmetry. apply (Forall2_length _ _ _ Ht).
    + apply static_table_complete. exact Ht.
    + apply static_table_ids. exact Ht.
Qed.

(** With a table whose built-in rows carry their five slots, compress_cfg
    and compress_fini never call through a NULL slot, whatever the name
    asked for and whatever the handle; nor does decompress for any id,
    when ids are indices; nor does ensure-init on a row that is built
    in. *)
Theorem no_call_through_null_slot (h : knet_handle) (g : global) :
  complete_rows (compress_modules_cmds g) ->
  (forall (cfg : knet_handle_compress_cfg) (s : op_slot) (i : Z),
      compress_cfg cfg h g <> Fault (NullCall s i)) /\
  (forall (s : op_slot) (i : Z), compress_fini h g <> Fault (NullCall s i)) /\
  (ids_are_indices (compress_modules_cmds g) ->
   forall (cm : Z) (buf_in : list Byte.byte) (buf_in_len buf_out buf_out_len : Z)
          (s : op_slot) (i : Z),
     decompress cm buf_in buf_in_len buf_out buf_out_len h g <> Fault (NullCall s i)) /\
  (forall m rl : Z,
      usable m (compress_modules_cmds g) ->
      forall (s : op_slot) (i : Z), check_init_lib m rl h g <> Fault (NullCall s i)).
Proof.
  intros Hc.
  pose proof null_call_oob as Hoob.
  assert (Hs : (forall s i, ~ is_null_call (NullCall s i)) \/
               complete_rows (compress_modules_cmds g)) by (right; exact Hc).
  split; [|split; [|split]].
  - intros cfg s i E.
    exact (vh_no_fault _ _ _ _ _ _ _ _
             (st_compress_cfg is_null_call _ Hoob Hs cfg) (static_table_refl _) E I).
  - intros s i E.
    exact (vh_no_fault _ _ _ _ _ _ _ _
             (st_compress_fini is_null_call _ Hoob Hs) (static_table_refl _) E I).
  - intros Hids cm buf_in buf_in_len buf_out buf_out_len s i E.
    refine (vh_no_fault _ _ _ _ _ _ _ _
              (st_decompress is_null_call _ Hoob Hs cm _ _ _ _ _)
              (static_table_refl _) E I).
    right. exact Hids.
  - intros m rl Hu s i E.
    refine (vh_no_fault _ _ _ _ _ _ _ _
              (st_check_init_lib is_null_call _ Hoob m Hs _ rl)
              (static_table_refl _) E I).
    right. exact Hu.
Qed.

(** ** What compress_fini does to the table *)

Local Open Scope list_scope.

Lemma spec_compress_fini_row (idx : Z) (t : table) (r : row) :
  t !! Z.to_nat idx = Some r ->
  tbl_hoare (fun t' => t' = t) (compress_fini_row idx)
            (fun _ t' => t' = <[Z.to_nat idx := finalised idx r]> t).
Proof.
  intros Hr. unfold compress_fini_row, libref_decr, set_loaded.
  repeat hoare_step; unpack; same_row.
  all: repeat match goal with
         | H : <[_ := _]> _ !! _ = Some _ |- _ =>
             apply list_lookup_insert_Some in H as [(_ & <- & _) | (Hne & _)];
             [| congruence]
         end.
  all: unfold finalised;
    repeat match goal with
           | H : _ = true |- _ => rewrite H
           | H : _ = false |- _ => rewrite H
           end.
  all: simpl in *.
  all: repeat match goal with
         | H : (_ && _) = true |- _ => apply andb_prop in H; destruct H
         end.
  all: repeat match goal with
         | H : (?a =? ?b) = true |- context [?a =? ?b] => rewrite H
         | H : (?a =? ?b) = false |- context [?a =? ?b] => rewrite H
         end.
  all: try (rewrite list_insert_insert_eq; reflexivity).
  all: try (symmetry; apply list_insert_id; assumption).
  all: try reflexivity.
  all: rewrite H1, andb_true_r in Heqb0; rewrite Heqb0; reflexivity.
Qed.

Lemma spec_compress_fini_loop (post : table) (s : row) :
  model_name s = None ->
  forall (rest done : table) (n : nat),
    Forall (fun x : row => model_name x <> None) rest ->
    (List.length rest <= n)%nat ->
    tbl_hoare (fun t => t = done ++ rest ++ s :: post)
      (compress_fini_loop n (Z.of_nat (List.length done)))
      (fun _ t =>
         t = done ++ finalise_from (Z.of_nat (List.length done)) rest ++ s :: post).
Proof.
  intros Hs rest. induction rest as [|r rest IH]; intros done n Hnamed Hn.
  - assert (Hlk : forall t : table, t = done ++ [] ++ s :: post ->
                    t !! Z.to_nat (Z.of_nat (List.length done)) = Some s).
    { intros t ->. rewrite Nat2Z.id. simpl.
      rewrite lookup_app_r by lia. rewrite Nat.sub_diag. reflexivity. }
    destruct n; simpl compress_fini_loop.
    all: eapply hoare_bind; [apply hoare_get_row | intros a; cbv beta].
    all: apply hoare_from_pre; intros t [Ht Ha];
      rewrite (Hlk t Ht) in Ha; injection Ha as <-; rewrite Hs.
    all: apply hoare_ret; intros t' ->; exact Ht.
  - inversion Hnamed as [|? ? Hr Hrest]; subst.
    assert (Hlk : forall t : table, t = done ++ (r :: rest) ++ s :: post ->
                    t !! Z.to_nat (Z.of_nat (List.length done)) = Some r).
    { intros t ->. rewrite Nat2Z.id.
      rewrite lookup_app_r by lia. rewrite Nat.sub_diag. reflexivity. }
    destruct n as [|n]; [simpl in Hn; lia|]. simpl compress_fini_loop.
    eapply hoare_bind; [apply hoare_get_row | intros a; cbv beta].
    apply hoare_from_pre; intros t [Ht Ha].
    rewrite (Hlk t Ht) in Ha. injection Ha as <-.
    destruct (model_name r) as [nm|] eqn:En; [|congruence].
    eapply hoare_bind;
      [apply (spec_compress_fini_row _ t r (Hlk t Ht)) | intros u; cbv beta].
    replace (Z.of_nat (List.length done) + 1)
      with (Z.of_nat (List.length (done ++ [finalised (Z.of_nat (List.length done)) r])))
      by (rewrite length_app; simpl; lia).
    eapply hoare_post; [eapply hoare_pre|].
    + apply (IH (done ++ [finalised (Z.of_nat (List.length done)) r]) n Hrest).
      simpl in Hn. lia.
    + intros t' ->. subst t. rewrite Nat2Z.id.
      rewrite insert_app_r_alt by lia. rewrite Nat.sub_diag. simpl.
      rewrite <- app_assoc. reflexivity.
    + intros u' t' ->. rewrite <- app_assoc. simpl.
      rewrite length_app. simpl.
      replace (Z.of_nat (List.length done + 1)) with (Z.of_nat (List.length done) + 1)
        by lia.
      reflexivity.
Qed.

(** The table that compress_fini leaves, once it holds the write lock. *)
Lemma compress_fini_table (h h' : knet_handle)
    (g g' : global) (pre post : table) (s : row) (w : W) (u : unit) :
  compress_modules_cmds g = (pre ++ s :: post)%list ->
  Forall (fun x : row => model_name x <> None) pre ->
  model_name s = None ->
  pthread_rwlock_wrlock (ext (os g)) = (0, w) ->
  compress_fini h g = Ok u h' g' ->
  compress_modules_cmds g' = (finalise_from 0 pre ++ s :: post)%list.
Proof.
  intros Ht Hpre Hs Hw E.
  unfold compress_fini, bind at 1, wrlock in E. rewrite Hw in E. simpl in E.
  unfold bind at 1, table_length in E. simpl in E.
  unfold bind at 1 in E.
  match type of E with
  | context [compress_fini_loop ?n 0 h ?g1] =>
      pose proof (spec_compress_fini_loop post s Hs pre [] n Hpre) as Hl;
      destruct (compress_fini_loop n 0 h g1) as [u1 h1 g2|f] eqn:El; [|discriminate]
  end.
  assert (Hg2 : compress_modules_cmds g2 = finalise_from 0 pre ++ s :: post).
  { refine (hoare_returns _ _ _ _ _ _ _ _ (Hl _) _ El).
    - rewrite Ht, length_app. simpl. lia.
    - simpl. exact Ht. }
  unfold unlock in E. inversion E; subst. exact Hg2.
Qed.

(** Once compress_fini holds the write lock, it goes through the rows
    before the sentinel once each, and whenever it returns the table is the
    one before with every such row that is built in, loaded and below
    KNET_MAX_COMPRESS_METHODS given a [libref] one lower, and unloaded if
    that [libref] is zero; all other rows, the sentinel and what follows
    it are as before.  Whether the handle holds a charge on a row plays no
    part. *)
Theorem compress_fini_finalises_every_loaded_row (h h' : knet_handle)
    (g g' : global) (pre post : table) (s : row) (w : W) (u : unit) :
  compress_modules_cmds g = (pre ++ s :: post)%list ->
  Forall (fun x : row => model_name x <> None) pre ->
  model_name s = None ->
  pthread_rwlock_wrlock (ext (os g)) = (0, w) ->
  compress_fini h g = Ok u h' g' ->
  compress_modules_cmds g' = (finalise_from 0 pre ++ s :: post)%list.
Proof. apply compress_fini_table. Qed.

(** ** The slot that records a charge *)

Ltac exec_in E :=
  repeat (match type of E with
          | context [match ?x with _ => _ end] =>
              lazymatch x with
              | context [match _ with _ => _ end] => fail
              | _ => destruct x eqn:?
              end
          end; simpl in E; try discriminate E).

Lemma stateless_init (m r : Z) (h1 h' : knet_handle) (g1 g' : global) (p1 : row) :
  compress_modules_cmds g1 !! Z.to_nat m = Some p1 ->
  init p1 = None ->
  check_init_lib_init m h1 g1 = Ok r h' g' ->
  r = 0 /\ holds_charge h' m = true /\
  compress_modules_cmds g' =
    <[Z.to_nat m := with_libref (libref_t (libref p1 + 1)) p1]> (compress_modules_cmds g1).
Proof.
  intros Hp Hn E.
  unfold check_init_lib_init, libref_incr, bind, get_row, set_row, set_int_data, ret in E.
  destruct (m <? 0); [discriminate|].
  rewrite Hp, Hn in E. simpl in E.
  destruct (compress_int_data h1 !! Z.to_nat m) as [q|] eqn:Hq; [|discriminate].
  simpl in E. rewrite Hp in E. injection E as <- <- <-.
  split; [reflexivity|]. split; [|reflexivity].
  unfold holds_charge. simpl.
  rewrite list_lookup_insert_eq by (eapply lookup_lt_Some; eassumption). reflexivity.
Qed.

(** On a row without per-handle hooks ([is_init] and [init] NULL), for
    calls that run one after another: a successful ensure-init leaves the
    handle with a non-NULL slot for the row and the row loaded; and from
    such a state, with the read lock free, ensure-init returns 0 at once:
    it calls no back-end, leaves the handle and the table as they are and
    only takes the read lock.  The slot is tested in that first part only.
    The part that runs after the switch to the write lock does not test it
    again: run for a handle whose slot is set already, on a loaded row, it
    takes the write lock and raises [libref] once more.  So the slot keeps
    a handle from a second charge only when the test of a call comes after
    the charge of the call before. *)
Theorem stateless_slot_is_tested_under_read_lock_only (m rl : Z) (h : knet_handle)
    (g : global) (p : row) :
  compress_modules_cmds g !! Z.to_nat m = Some p ->
  is_init p = None ->
  (forall (h' : knet_handle) (g' : global),
      loaded p = 0 \/ loaded p = 1 -> init p = None ->
      check_init_lib m rl h g = Ok 0 h' g' ->
      holds_charge h' m = true /\
      exists p' : row,
        compress_modules_cmds g' !! Z.to_nat m = Some p' /\ loaded p' = 1 /\
        static_eq p p') /\
  (forall w : W,
      0 <= m -> loaded p = 1 -> holds_charge h m = true ->
      pthread_rwlock_rdlock (ext (os g)) = (0, w) ->
      check_init_lib m rl h g =
        Ok 0 h (with_event (EvRdLock 0) (with_os (mk_os (errno (os g)) w) g))) /\
  (forall w : W,
      0 <= m -> loaded p = 1 -> init p = None -> holds_charge h m = true ->
      pthread_rwlock_wrlock (pthread_rwlock_unlock (ext (os g))) = (0, w) ->
      exists (h' : knet_handle) (g' : global),
        check_init_lib_load m h g = Ok 0 h' g' /\
        holds_charge h' m = true /\
        trace g' = EvWrLock 0 :: EvUnlock :: trace g /\
        compress_modules_cmds g' =
          <[Z.to_nat m := with_libref (libref_t (libref p + 1)) p]>
            (compress_modules_cmds g)).
Proof.
  intros Hp Hi. split; [|split].
  - intros h' g' Hl Hn E.
    unfold check_init_lib, check_init_lib_ready, check_init_lib_limit,
      check_init_lib_load, set_loaded,
      bind, rdlock, wrlock, unlock, get_row, set_row, get_int_data,
      invoke, log_err, emit, set_errno, ret, clock_now, get_last_load_failure,
      set_last_load_failure in E.
    simpl in E. exec_in E.
    all: repeat match goal with
           | H : Some _ = Some _ |- _ => injection H as H; subst
           end.
    all: try congruence.
    all: match goal with
         | Hrow : compress_modules_cmds _ !! _ = Some ?pp |- _ =>
             try (injection E as <- <-; split;
                  [ unfold holds_charge;
                    match goal with
                    | H : compress_int_data _ !! _ = Some _ |- _ => rewrite H; assumption
                    end
                  | exists pp; split; [assumption|];
                    split; [apply Z.eqb_eq; assumption | reflexivity] ])
         end.
    all: match goal with
         | Hrow : compress_modules_cmds _ !! _ = Some ?pp,
           E : check_init_lib_init ?mm _ ?g1 = Ok 0 _ _ |- _ =>
             first
               [ destruct (stateless_init mm 0 _ _ g1 _ (with_loaded 1 pp)
                             ltac:(simpl; apply list_lookup_insert_eq;
                                   eapply lookup_lt_Some; eassumption)
                             Hn E) as (_ & Hc & Ht)
               | destruct (stateless_init mm 0 _ _ g1 _ pp
                             ltac:(simpl; assumption) Hn E) as (_ & Hc & Ht) ]
         end.
    all: split; [exact Hc|]; rewrite Ht; simpl.
    all: eexists; split;
      [ apply list_lookup_insert_eq; rewrite ?length_insert;
        eapply lookup_lt_Some; eassumption
      | split; [simpl | reflexivity] ].
    all: try reflexivity.
    all: destruct Hl as [Hl|Hl]; [|exact Hl].
    all: match goal with
         | H : (loaded _ =? 0) = false |- _ => rewrite Hl in H; discriminate
         end.
  - intros w H0 Hl Hc Hrd.
    unfold check_init_lib, bind at 1, rdlock. rewrite Hrd. simpl.
    unfold bind at 1, check_init_lib_ready, bind, get_row.
    replace (m <? 0) with false by (symmetry; apply Z.ltb_ge; exact H0).
    simpl. rewrite Hp, Hl, Hi. simpl.
    unfold get_int_data.
    replace (m <? 0) with false by (symmetry; apply Z.ltb_ge; exact H0).
    unfold holds_charge in Hc.
    destruct (compress_int_data h !! Z.to_nat m) as [q|]; [|discriminate].
    simpl. rewrite Hc. reflexivity.
  - intros w H0 Hl Hn Hc Hwr.
    unfold holds_charge in Hc.
    destruct (compress_int_data h !! Z.to_nat m) as [q|] eqn:Hq; [|discriminate].
    unfold check_init_lib_load, bind at 1, unlock. simpl.
    unfold bind at 1, wrlock. simpl. rewrite Hwr. simpl.
    unfold bind at 1, get_row. simpl.
    replace (m <? 0) with false by (symmetry; apply Z.ltb_ge; exact H0).
    rewrite Hp, Hl. simpl.
    unfold check_init_lib_init, libref_incr, bind, get_row, set_row, set_int_data, ret.
    simpl.
    replace (m <? 0) with false by (symmetry; apply Z.ltb_ge; exact H0).
    rewrite Hp, Hn, Hq. simpl. rewrite Hp.
    eexists _, _. split; [reflexivity|]. simpl. split; [|split; reflexivity].
    unfold holds_charge. simpl.
    rewrite list_lookup_insert_eq by (eapply lookup_lt_Some; exact Hq). reflexivity.
Qed.

(** In the table of the sources every row that is built in carries its
    five slots, whatever was built. *)
Lemma init_table_complete (b : build_config) (c : @codecs W) :
  complete_rows (compress_modules_cmds_init b c).
Proof.
  intros i r Hi Hb. unfold compress_modules_cmds_init in Hi.
  destruct b as [[] [] [] [] []];
    do 8 (try (destruct i as [|i];
               [ inversion Hi; subst; simpl in Hb;
                 first [ contradiction Hb; reflexivity
                       | repeat split; discriminate ] |]));
    discriminate.
Qed.

(** ** Locks that cannot be taken *)

(** When [pthread_rwlock_rdlock] fails, ensure-init returns -1 with the
    error of the lock in [errno] and one logged line; when
    [pthread_rwlock_wrlock] fails after the read lock was given back, the
    load part of ensure-init does the same, and compress_fini logs the
    error and returns: in all three the handle, the table and
    [last_load_failure] are left as they were, no back-end is called and
    [pthread_rwlock_unlock] is not called for the lock that was not
    taken. *)
Theorem lock_failures_are_reported (h : knet_handle) (g : global) (e : Z) (w : W) :
  e <> 0 ->
  (pthread_rwlock_rdlock (ext (os g)) = (e, w) ->
   forall m rl : Z,
     check_init_lib m rl h g =
       Ok (-1) h (rejected (UnableReadLock e) e
                    (with_event (EvRdLock e) (with_os (mk_os (errno (os g)) w) g)))) /\
  (pthread_rwlock_wrlock (pthread_rwlock_unlock (ext (os g))) = (e, w) ->
   forall m : Z,
     check_init_lib_load m h g =
       Ok (-1) h (rejected (UnableWriteLock e) e
                    (with_event (EvWrLock e)
                       (with_os (mk_os (errno (os g)) w) (with_event EvUnlock g))))) /\
  (pthread_rwlock_wrlock (ext (os g)) = (e, w) ->
   compress_fini h g =
     Ok tt h (with_event (EvErr (UnableWriteLock e))
                (with_event (EvWrLock e) (with_os (mk_os (errno (os g)) w) g)))).
Proof.
  intros He.
  assert (Hb : negb (e =? 0) = true)
    by (apply negb_true_iff, Z.eqb_neq; exact He).
  split; [|split].
  - intros Hrd m rl.
    unfold check_init_lib, bind at 1, rdlock. rewrite Hrd. simpl. rewrite Hb.
    reflexivity.
  - intros Hwr m.
    unfold check_init_lib_load, bind at 1, unlock. simpl.
    unfold bind at 1, wrlock. simpl. rewrite Hwr. simpl. rewrite Hb.
    reflexivity.
  - intros Hwr.
    unfold compress_fini, bind at 1, wrlock. rewrite Hwr. simpl. rewrite Hb.
    reflexivity.
Qed.

(** ** Configure, then finalise *)

Lemma check_init_lib_charges_unloaded (m rl r : Z) (h h' : knet_handle)
    (g g' : global) (p : row) :
  compress_modules_cmds g !! Z.to_nat m = Some p -> loaded p = 0 ->
  check_init_lib m rl h g = Ok r h' g' -> 0 <= r ->
  compress_modules_cmds g' =
    <[Z.to_nat m := with_libref (libref_t (libref p + 1)) (with_loaded 1 p)]>
      (compress_modules_cmds g).
Proof.
  intros Hp Hl E Hr.
  unfold check_init_lib, check_init_lib_ready, check_init_lib_limit,
    check_init_lib_load, set_loaded,
    bind, rdlock, wrlock, unlock, get_row, set_row, get_int_data,
    invoke, log_err, emit, set_errno, ret, clock_now, get_last_load_failure,
    set_last_load_failure in E.
  simpl in E. exec_in E.
  all: repeat match goal with
         | H : Some _ = Some _ |- _ => injection H as H; subst
         end.
  all: try congruence.
  all: try match goal with
           | H : (loaded ?x =? _) = _, H0 : loaded ?x = 0 |- _ =>
               rewrite H0 in H; discriminate H
           end.
  all: try (injection E as <- _ _; lia).
  all: match goal with
       | Hrow : compress_modules_cmds _ !! _ = Some ?pp,
         E : check_init_lib_init ?mm _ ?g1 = _ |- _ =>
           destruct (hoare_returns _ _ _ _ _ _ _ _
                       (spec_check_init_lib_init mm (compress_modules_cmds g1)
                          (with_loaded 1 pp)
                          ltac:(simpl; apply list_lookup_insert_eq;
                                eapply lookup_lt_Some; eassumption))
                       eq_refl E) as [[_ Ht]|[? _]]; [|lia]
       end.
  all: rewrite Ht; simpl; rewrite list_insert_insert_eq; reflexivity.
Qed.

Lemma get_model_scan_in (pre post : table) (s : row) (name : string) (m : Z) :
  model_name s = None ->
  get_model_scan (pre ++ s :: post) name = Some m ->
  m = -1 \/ exists (i : nat) (r : row),
              pre !! i = Some r /\ model_name r <> None /\ model_id r = m.
Proof.
  intros Hs. induction pre as [|r pre IH]; simpl; intros E.
  - rewrite Hs in E. left. congruence.
  - destruct (model_name r) as [n|] eqn:En; [|left; congruence].
    destruct (String.eqb n name).
    + right. exists 0%nat, r. split; [reflexivity|]. split; congruence.
    + destruct (IH E) as [->|(i & r' & Hi & Hn & Hm)]; [left; reflexivity|].
      right. exists (S i), r'. auto.
Qed.

Lemma finalise_from_unloaded (rows : table) (idx : Z) :
  Forall (fun x : row => loaded x = 0) rows -> finalise_from idx rows = rows.
Proof.
  intros H. revert idx. induction H as [|r rows Hr _ IH]; intros idx; simpl.
  - reflexivity.
  - rewrite IH. unfold finalised. rewrite Hr. simpl. rewrite andb_false_r. reflexivity.
Qed.

Lemma finalise_from_charged (rows : table) (idx : Z) (i : nat) (p r1 : row) :
  Forall (fun x : row => loaded x = 0) rows ->
  rows !! i = Some p ->
  finalised (idx + Z.of_nat i) r1 = p ->
  finalise_from idx (<[i := r1]> rows) = rows.
Proof.
  intros H. revert idx i. induction H as [|r rows Hr Hrest IH]; intros idx i Hi Hf.
  - discriminate.
  - destruct i as [|i].
    + injection Hi as ->. rewrite Z.add_0_r in Hf.
      change (<[0%nat := r1]> (p :: rows)) with (r1 :: rows).
      simpl finalise_from. rewrite Hf.
      rewrite (finalise_from_unloaded _ _ Hrest). reflexivity.
    + change (<[S i := r1]> (r :: rows)) with (r :: <[i := r1]> rows).
      simpl finalise_from. rewrite (IH (idx + 1) i Hi) by (rewrite <- Hf; f_equal; lia).
      f_equal. unfold finalised. rewrite Hr. simpl. rewrite andb_false_r. reflexivity.
Qed.

Lemma finalised_charged (idx : Z) (p : row) :
  built_in p = 1 -> loaded p = 0 -> libref p = 0 ->
  idx < KNET_MAX_COMPRESS_METHODS -> libref_t 0 = 0 -> libref_t 1 = 1 ->
  finalised idx (with_libref (libref_t (libref p + 1)) (with_loaded 1 p)) = p.
Proof.
  intros Hb Hl Hr Hk H0 H1. destruct p; simpl in *. subst.
  unfold finalised; simpl. rewrite !Z.add_0_l, !H1, !Z.sub_diag, !H0.
  replace (idx <? KNET_MAX_COMPRESS_METHODS) with true
    by (symmetry; apply Z.ltb_lt; exact Hk).
  reflexivity.
Qed.

(** The table after a compress_cfg that returned 0, from a table in which
    nothing is loaded: as before, or with the chosen row, which lies before
    the sentinel, loaded and charged once. *)
Lemma compress_cfg_table_from_unloaded (cfg : knet_handle_compress_cfg)
    (h h1 : knet_handle) (g g1 : global) (pre post : table) (s : row) :
  compress_modules_cmds g = pre ++ s :: post ->
  Forall (fun x : row => model_name x <> None /\ loaded x = 0) pre ->
  model_name s = None ->
  ids_are_indices pre ->
  compress_cfg cfg h g = Ok 0 h1 g1 ->
  compress_modules_cmds g1 = pre ++ s :: post \/
  exists (i : nat) (p : row),
    pre !! i = Some p /\ built_in p <> 0 /\
    compress_modules_cmds g1 =
      <[i := with_libref (libref_t (libref p + 1)) (with_loaded 1 p)]> pre ++ s :: post.
Proof.
  intros Ht Hpre Hs Hids Ec.
  destruct (get_model_scan (compress_modules_cmds g) (cfg_compress_model cfg))
    as [m|] eqn:Hm.
  2: { unfold compress_cfg, bind at 1 2, log_debug, emit, get_model in Ec.
       simpl in Ec. rewrite Hm in Ec. discriminate Ec. }
  destruct (Z.ltb_spec m 0) as [Hneg|Hnn].
  { unfold compress_cfg, bind at 1 2, log_debug, emit, get_model in Ec.
    simpl in Ec. rewrite Hm in Ec.
    replace (m <? 0) with true in Ec by (symmetry; apply Z.ltb_lt; exact Hneg).
    discriminate Ec. }
  destruct (Z.eq_dec m 0) as [->|Hm0].
  { unfold compress_cfg, bind at 1 2, log_debug, emit, get_model in Ec.
    simpl in Ec. rewrite Hm in Ec. simpl in Ec.
    injection Ec as _ <-. left. simpl. exact Ht. }
  assert (Hpos : 0 < m) by lia.
  rewrite Ht in Hm.
  destruct (get_model_scan_in pre post s _ m Hs Hm) as [->|(i & p & Hi & Hn & Hid)];
    [lia|].
  rewrite (Hids i p Hi Hn) in Hid. subst m.
  assert (Hp : compress_modules_cmds g !! Z.to_nat (Z.of_nat i) = Some p).
  { rewrite Ht, Nat2Z.id, lookup_app_l by (eapply lookup_lt_Some; exact Hi). exact Hi. }
  assert (Hl : loaded p = 0).
  { rewrite Forall_lookup in Hpre. apply (Hpre i p Hi). }
  destruct (Z.eq_dec (built_in p) 0) as [Hb|Hb].
  { unfold compress_cfg, bind at 1 2, log_debug, emit, get_model in Ec.
    simpl in Ec. rewrite Ht, Hm in Ec.
    replace (Z.of_nat i <? 0) with false in Ec by (symmetry; apply Z.ltb_ge; lia).
    replace (Z.of_nat i >? 0) with true in Ec by (symmetry; apply Z.gtb_lt; exact Hpos).
    unfold bind at 1, get_row in Ec. simpl in Ec.
    replace (Z.of_nat i <? 0) with false in Ec by (symmetry; apply Z.ltb_ge; lia).
    rewrite Hp, Hb in Ec. discriminate Ec. }
  right. exists i, p. split; [exact Hi|]. split; [exact Hb|].
  rewrite <- Ht in Hm.
  rewrite (compress_cfg_reaches_lock cfg h g _ p Hm Hpos Hp Hb) in Ec.
  unfold bind at 1 in Ec.
  destruct (compress_cfg_locked cfg (Z.of_nat i) h _) as [[se err] hb gb|] eqn:El;
    [|discriminate Ec].
  assert (Hgb : err = 0 /\ compress_modules_cmds g1 = compress_modules_cmds gb).
  { unfold bind at 1, unlock, compress_cfg_out, bind, get_handle, put_handle,
      set_errno, ret in Ec.
    destruct (err =? 0); simpl in Ec; injection Ec as -> _ <-; split; reflexivity. }
  destruct Hgb as [-> ->].
  unfold compress_cfg_locked, bind at 1 in El.
  destruct (check_init_lib (Z.of_nat i) 0 h _) as [r hc gc|] eqn:Ecl; [|discriminate El].
  destruct (r <? 0) eqn:Hr; [simpl in El; discriminate El|].
  unfold bind at 1 in El.
  destruct (val_level (Z.of_nat i) (cfg_compress_level cfg) hc gc) as [v hd gd|] eqn:Ev;
    [|discriminate El].
  assert (Hgd : compress_modules_cmds gb = compress_modules_cmds gd).
  { unfold bind, log_err, log_debug, emit, get_handle, put_handle, ret in El.
    destruct (v <? 0); [simpl in El; discriminate El|].
    destruct (cfg_compress_threshold cfg >? KNET_MAX_PACKET_SIZE);
      [simpl in El; discriminate El|].
    destruct (cfg_compress_threshold cfg =? 0); simpl in El;
      injection El as _ _ <-; reflexivity. }
  rewrite Hgd, (val_level_keeps _ _ _ _ _ _ _ Ev).
  rewrite (check_init_lib_charges_unloaded (Z.of_nat i) 0 r h hc (cfg_logged cfg g) gc
             p Hp Hl Ecl)
    by (apply Z.ltb_ge; exact Hr).
  simpl. rewrite Ht, Nat2Z.id.
  apply insert_app_l. eapply lookup_lt_Some; exact Hi.
Qed.

(** From a table in which no row before the sentinel is loaded or
    charged, a compress_cfg that returns 0 followed by a compress_fini that
    takes the write lock and returns gives back the table as it was: the
    charge and the load of the configuration call are undone.  This needs
    [built_in] to be a flag, the rows before the sentinel to fit in
    KNET_MAX_COMPRESS_METHODS, and the type of [libref] to hold 0 and 1. *)
Theorem configure_then_finalise_restores_table (cfg : knet_handle_compress_cfg)
    (h h1 h2 : knet_handle) (g g1 g2 : global) (pre post : table) (s : row)
    (w : W) (u : unit) :
  compress_modules_cmds g = pre ++ s :: post ->
  Forall (fun x : row => model_name x <> None /\ loaded x = 0) pre ->
  Forall (fun x : row => (built_in x = 0 \/ built_in x = 1) /\ libref x = 0) pre ->
  model_name s = None ->
  ids_are_indices pre ->
  Z.of_nat (List.length pre) <= KNET_MAX_COMPRESS_METHODS ->
  libref_t 0 = 0 -> libref_t 1 = 1 ->
  compress_cfg cfg h g = Ok 0 h1 g1 ->
  pthread_rwlock_wrlock (ext (os g1)) = (0, w) ->
  compress_fini h1 g1 = Ok u h2 g2 ->
  compress_modules_cmds g2 = compress_modules_cmds g.
Proof.
  intros Ht Hpre Hflag Hs Hids Hcap Hl0 Hl1 Ec Hw Ef.
  assert (Hnamed : Forall (fun x : row => model_name x <> None) pre)
    by (eapply Forall_impl; [exact Hpre | intros x [A _]; exact A]).
  assert (Hun : Forall (fun x : row => loaded x = 0) pre)
    by (eapply Forall_impl; [exact Hpre | intros x [_ A]; exact A]).
  destruct (compress_cfg_table_from_unloaded cfg h h1 g g1 pre post s
              Ht Hpre Hs Hids Ec) as [Ht1 | (i & p & Hi & Hb & Ht1)].
  - rewrite (compress_fini_table h1 h2 g1 g2 pre post s w u Ht1 Hnamed Hs Hw Ef).
    rewrite (finalise_from_unloaded pre 0 Hun). symmetry. exact Ht.
  - assert (Hlt : (i < List.length pre)%nat) by (eapply lookup_lt_Some; exact Hi).
    rewrite (compress_fini_table h1 h2 g1 g2 _ post s w u Ht1
               ltac:(apply Forall_insert; [exact Hnamed | simpl];
                     rewrite Forall_lookup in Hnamed; exact (Hnamed i p Hi))
               Hs Hw Ef).
    rewrite Forall_lookup in Hflag. destruct (Hflag i p Hi) as [[H0|H1] Hr];
      [contradiction|].
    rewrite Forall_lookup in Hpre. destruct (Hpre i p Hi) as [_ Hl].
    rewrite (finalise_from_charged pre 0 i p _ Hun Hi).
    + symmetry. exact Ht.
    + apply finalised_charged; try assumption. lia.
Qed.

(** ** The cap on the number of methods *)

Lemma finalise_from_lookup (rows : table) (idx : Z) (i : nat) (r : row) :
  rows !! i = Some r ->
  finalise_from idx rows !! i = Some (finalised (idx + Z.of_nat i) r).
Proof.
  revert idx i. induction rows as [|x rows IH]; intros idx i Hi.
  - discriminate.
  - destruct i as [|i].
    + injection Hi as ->. simpl. rewrite Z.add_0_r. reflexivity.
    + simpl finalise_from.
      change ((finalised idx x :: finalise_from (idx + 1) rows) !! S i)
        with (finalise_from (idx + 1) rows !! i).
      rewrite (IH (idx + 1) i Hi). do 2 f_equal. lia.
Qed.

Lemma length_finalise_from (rows : table) (idx : Z) :
  List.length (finalise_from idx rows) = List.length rows.
Proof.
  revert idx. induction rows as [|x rows IH]; intros idx; simpl;
    [reflexivity | rewrite IH; reflexivity].
Qed.

(** C6: a defect of the code.  compress_init compares [max_model], the
    index of the last row before the sentinel, with
    KNET_MAX_COMPRESS_METHODS, where compress_fini compares the index of a
    row with the same cap by [<].  So a table with one row more than the
    cap before the sentinel is not reported at init: compress_init returns
    0, logs nothing and caches a [max_model] equal to the cap.  The last
    row of such a table has the cap as its index, and compress_fini leaves
    it as it is whenever it returns, built in and loaded or not: a charge
    taken on that row is never given back and its library is never
    unloaded. *)
Theorem compress_init_passes_table_over_cap (h : knet_handle) (g : global)
    (pre post : table) (s r : row) :
  compress_modules_cmds g = pre ++ s :: post ->
  Forall (fun x : row => model_name x <> None) pre ->
  model_name s = None ->
  Z.of_nat (List.length pre) = KNET_MAX_COMPRESS_METHODS + 1 ->
  pre !! Z.to_nat KNET_MAX_COMPRESS_METHODS = Some r ->
  KNET_MAX_COMPRESS_METHODS < Z.of_nat (List.length pre) /\
  compress_init h g =
    Ok 0 h (with_last_load_failure (mk_timespec 0 0)
              (with_max_model KNET_MAX_COMPRESS_METHODS g)) /\
  trace (with_last_load_failure (mk_timespec 0 0)
           (with_max_model KNET_MAX_COMPRESS_METHODS g)) = trace g /\
  (forall (h' : knet_handle) (g' : global) (w : W) (u : unit),
      pthread_rwlock_wrlock (ext (os g)) = (0, w) ->
      compress_fini h g = Ok u h' g' ->
      compress_modules_cmds g' !! Z.to_nat KNET_MAX_COMPRESS_METHODS = Some r).
Proof.
  intros Ht Hpre Hs Hlen Hr.
  split; [lia|]. split; [|split; [reflexivity|]].
  - unfold compress_init, bind at 1, get_max_model.
    rewrite Ht, (get_max_model_scan_named pre post s 0 Hpre Hs).
    replace (0 + Z.of_nat (List.length pre) - 1) with KNET_MAX_COMPRESS_METHODS by lia.
    unfold bind at 1, set_max_model.
    rewrite Z.gtb_ltb, Z.ltb_irrefl.
    reflexivity.
  - intros h' g' w u Hw Ef.
    rewrite (compress_fini_table h h' g g' pre post s w u Ht Hpre Hs Hw Ef).
    assert (Hlt : (Z.to_nat KNET_MAX_COMPRESS_METHODS < List.length pre)%nat)
      by (eapply lookup_lt_Some; exact Hr).
    rewrite lookup_app_l by (rewrite length_finalise_from; exact Hlt).
    rewrite (finalise_from_lookup pre 0 _ r Hr).
    f_equal. unfold finalised.
    replace (0 + Z.of_nat (Z.to_nat KNET_MAX_COMPRESS_METHODS))
      with KNET_MAX_COMPRESS_METHODS by lia.
    rewrite Z.ltb_irrefl, andb_false_r. reflexivity.
Qed.

End Properties.

(** * The properties at work on the simulated platform *)

(** The rate limit does not apply to a handle that is ready: the handle of
    [Sim.lzma_failed] holds zlib, the load of lzma failed at time 5, and at
    time 6, one second later, [check_init_lib] for zlib on the decompress
    path takes the read lock and returns 0, not -1 with EAGAIN. *)
Lemma check_init_lib_ready_is_not_limited :
  last_load_failure (snd Sim.lzma_failed) = mk_timespec 5 0 /\
  timespec_diff (last_load_failure (snd Sim.lzma_failed))
                (clock_gettime (ext (os (Sim.at_time 6 (snd Sim.lzma_failed)))))
    = 1000000000 /\
  Sim.returned (check_init_lib 1 1 (fst Sim.lzma_failed)
                               (Sim.at_time 6 (snd Sim.lzma_failed)))
    = Some (0, Sim.ENOENT) /\
  trace (snd (Sim.after (check_init_lib 1 1)
                        (fst Sim.lzma_failed, Sim.at_time 6 (snd Sim.lzma_failed))))
    = EvRdLock 0 :: trace (snd Sim.lzma_failed).
Proof. vm_compute. repeat split. Qed.

(** [rate_limit_of_check_init_lib] after the failed load of
    [Sim.zlib_failed] at time 5: at time 7 the call is refused with EAGAIN;
    at time 20 it goes on to the load, which fails again and moves
    [last_load_failure] to time 20. *)
Lemma rate_limit_of_check_init_lib_witness :
  (exists g3 : global,
     check_init_lib 1 1 (fst Sim.zlib_failed) (Sim.at_time 7 (snd Sim.zlib_failed))
       = Ok (-1) (fst Sim.zlib_failed) g3 /\
     errno (os g3) = EAGAIN /\
     compress_modules_cmds g3 = compress_modules_cmds (snd Sim.zlib_failed) /\
     last_load_failure g3 = mk_timespec 5 0) /\
  (exists g5 : global,
     check_init_lib 1 1 (fst Sim.zlib_failed) (Sim.at_time 20 (snd Sim.zlib_failed))
       = Ok (-1) (fst Sim.zlib_failed) g5 /\
     last_load_failure g5 = mk_timespec 20 0).
Proof.
  pose (h := fst Sim.zlib_failed).
  split.
  - pose (g := Sim.at_time 7 (snd Sim.zlib_failed)).
    pose (g1 := snd (Sim.after rdlock (h, g))).
    pose (g2 := snd (Sim.after (check_init_lib_ready 1) (h, g1))).
    assert (Hrd : rdlock h g = Ok 0 h g1) by (vm_compute; reflexivity).
    assert (Hready : check_init_lib_ready 1 h g1 = Ok false h g2)
      by (vm_compute; reflexivity).
    destruct (rate_limit_of_check_init_lib 1 h h h g g1 g2 Hrd Hready) as (A & _).
    destruct A as (g3 & E & He & _ & Ht & Hl);
      [left; vm_compute; discriminate | vm_compute; reflexivity |].
    exists g3. split; [exact E|]. split; [exact He|]. split.
    + rewrite Ht. vm_compute. reflexivity.
    + rewrite Hl. vm_compute. reflexivity.
  - pose (g := Sim.at_time 20 (snd Sim.zlib_failed)).
    pose (g1 := snd (Sim.after rdlock (h, g))).
    pose (g2 := snd (Sim.after (check_init_lib_ready 1) (h, g1))).
    pose (g3 := snd (Sim.after (bind unlock (fun _ => wrlock)) (h, g2))).
    assert (Hrd : rdlock h g = Ok 0 h g1) by (vm_compute; reflexivity).
    assert (Hready : check_init_lib_ready 1 h g1 = Ok false h g2)
      by (vm_compute; reflexivity).
    destruct (rate_limit_of_check_init_lib 1 h h h g g1 g2 Hrd Hready)
      as (_ & B & _ & C).
    fold h g. rewrite B; [|right; vm_compute; discriminate].
    destruct (C h h g3 (Sim.start_row 1) Sim.load (-1)
                (mk_os Sim.ENOENT (ext (os g3))))
      as (g5 & E & L & _).
    + vm_compute; reflexivity.
    + lia.
    + vm_compute; reflexivity.
    + reflexivity.
    + reflexivity.
    + vm_compute; reflexivity.
    + lia.
    + exists g5. split; [exact E|]. rewrite L. vm_compute. reflexivity.
Defined.

Lemma init_table_static (b : build_config) (c : @codecs Sim.world) :
  Forall2 same_static (compress_modules_cmds_init b c) (compress_modules_cmds_init b c).
Proof. unfold compress_modules_cmds_init. repeat constructor. Qed.

(** [decompress_rejects_bad_model] in a process built with zlib only: id
    200 is unknown, id 2 (lz4) is known and not built in. *)
Lemma decompress_rejects_bad_model_witness :
  decompress 200 [] 0 0 0 (fst (Sim.booted Sim.only_zlib true))
             (snd (Sim.booted Sim.only_zlib true))
    = Ok (-1) (fst (Sim.booted Sim.only_zlib true))
         (rejected (UnknownModel 200) EINVAL (snd (Sim.booted Sim.only_zlib true))) /\
  decompress 2 [] 0 0 0 (fst (Sim.booted Sim.only_zlib true))
             (snd (Sim.booted Sim.only_zlib true))
    = Ok (-1) (fst (Sim.booted Sim.only_zlib true))
         (rejected (PacketNotBuiltIn (Some "lz4"%string)) EINVAL
                   (snd (Sim.booted Sim.only_zlib true))).
Proof.
  split.
  - apply (proj1 (decompress_rejects_bad_model 200 [] 0 0 0
                    (fst (Sim.booted Sim.only_zlib true))
                    (snd (Sim.booted Sim.only_zlib true)))).
    vm_compute. reflexivity.
  - apply (proj1 (proj2 (decompress_rejects_bad_model 2 [] 0 0 0
                           (fst (Sim.booted Sim.only_zlib true))
                           (snd (Sim.booted Sim.only_zlib true))))
             (empty_module (Some "lz4"%string) 2)).
    + vm_compute. discriminate.
    + lia.
    + reflexivity.
    + reflexivity.
    + apply (init_table_shape Sim.only_zlib Sim.adapters), init_table_static.
    + apply (init_table_shape Sim.only_zlib Sim.adapters), init_table_static.
Defined.

(** [decompress_none_is_rejected] at the start of a process. *)
Lemma decompress_none_is_rejected_witness :
  decompress 0 [] 0 0 0 Sim.fresh_handle (Sim.start Sim.all_built 1 true)
    = Ok (-1) Sim.fresh_handle
         (rejected (PacketNotBuiltIn (Some "none"%string)) EINVAL
                   (Sim.start Sim.all_built 1 true)).
Proof.
  apply (decompress_none_is_rejected Sim.all_built Sim.adapters).
  - apply init_table_static.
  - simpl. lia.
Defined.



(** C4: compress_fini decrements [libref] on rows the handle never
    charged.  [Sim.zlib_user] holds the only charge on zlib ([libref] 1,
    loaded); finalising a second handle that was never configured, and
    holds no charge, takes [libref] of zlib to 0 and unloads the library
    under the first handle, which still holds its charge. *)
Theorem compress_fini_releases_charge_of_other_handle :
  Sim.bookkeeping (snd Sim.zlib_user) 1 = Some (1, 1) /\
  holds_charge (fst Sim.zlib_user) 1 = true /\
  holds_charge Sim.fresh_handle 1 = false /\
  Sim.bookkeeping (snd (Sim.after compress_fini (Sim.fresh_handle, snd Sim.zlib_user))) 1
    = Some (0, 0) /\
  trace (snd (Sim.after compress_fini (Sim.fresh_handle, snd Sim.zlib_user)))
    = EvUnlock :: EvCall UnloadLib 1 :: EvDebug (UnloadingLibrary (Some "zlib"%string))
      :: EvWrLock 0 :: trace (snd Sim.zlib_user).
Proof. vm_compute. repeat split. Qed.

Lemma init_table_inv (b : build_config) (c : @codecs Sim.world) :
  table_inv (compress_modules_cmds_init b c).
Proof.
  intros i r Hi. unfold compress_modules_cmds_init in Hi.
  assert (Hr : libref r = 0 /\ loaded r = 0).
  { destruct b as [[] [] [] [] []];
      do 8 (try (destruct i as [|i]; [inversion Hi; subst; split; reflexivity|]));
      discriminate. }
  destruct Hr as [Hl Hd]. split; [left; exact Hd | rewrite Hl; lia].
Qed.

(** [libref_positive_implies_loaded] along the life of a handle: the
    invariant holds at the start, after configuring zlib, and after the
    handle is finalised.  With an lzo2 whose init hook fails
    ([Sim.refusing]): a first configuration loads the library, the hook
    fails, the call returns -1 and the row is loaded with a [libref] of 0;
    a second attempt finds the row loaded, the hook fails again and the
    table stays; the invariant holds after both. *)
Lemma libref_positive_implies_loaded_witness :
  table_inv (compress_modules_cmds (Sim.start Sim.all_built 1 true)) /\
  table_inv (compress_modules_cmds (snd Sim.zlib_user)) /\
  table_inv (compress_modules_cmds
               (snd (Sim.after compress_fini Sim.zlib_user))) /\
  Sim.returned (compress_cfg (mk_cfg "lzo2" 5 0) (fst Sim.booted_refusing)
                             (snd Sim.booted_refusing))
    = Some (-1, Sim.ENOMEM) /\
  table_inv (compress_modules_cmds (snd Sim.lzo2_refused)) /\
  (exists g5 : global,
     check_init_lib_load 4 (fst Sim.booted_refusing) (snd Sim.booted_refusing)
       = Ok (-1) (fst Sim.booted_refusing) g5 /\
     Sim.bookkeeping g5 4 = Some (0, 1)) /\
  (exists g5 : global,
     check_init_lib_load 4 (fst Sim.lzo2_refused) (snd Sim.lzo2_refused)
       = Ok (-1) (fst Sim.lzo2_refused) g5 /\
     Sim.bookkeeping g5 4 = Some (0, 1)).
Proof.
  destruct (@libref_positive_implies_loaded Sim.world Sim.sim)
    as (_ & Hinit & Hcfg & _ & _ & Hfini & _ & Hfail & Hload).
  assert (H0 : table_inv (compress_modules_cmds (Sim.start Sim.all_built 1 true)))
    by apply init_table_inv.
  assert (H1 : table_inv (compress_modules_cmds (snd (Sim.booted Sim.all_built true)))).
  { apply (Hinit 0 Sim.fresh_handle (fst (Sim.booted Sim.all_built true))
                 (Sim.start Sim.all_built 1 true)); [exact H0|].
    vm_compute. reflexivity. }
  assert (H2 : table_inv (compress_modules_cmds (snd Sim.zlib_user))).
  { apply (Hcfg (Sim.zlib_cfg 5 0) 0 (fst (Sim.booted Sim.all_built true))
                (fst Sim.zlib_user) (snd (Sim.booted Sim.all_built true)));
      [exact H1|].
    vm_compute. reflexivity. }
  assert (H3 : table_inv (compress_modules_cmds (snd Sim.booted_refusing))).
  { apply (Hinit 0 Sim.fresh_handle (fst Sim.booted_refusing)
                 (initial_global Sim.all_built Sim.refusing
                    (mk_os 0 (Sim.mk_world (mk_timespec 1 0) true))));
      [apply init_table_inv|].
    vm_compute. reflexivity. }
  split; [exact H0|]. split; [exact H2|]. split.
  { apply (Hfini tt (fst Sim.zlib_user)
                 (fst (Sim.after compress_fini Sim.zlib_user)) (snd Sim.zlib_user));
      [|exact H2].
    vm_compute. reflexivity. }
  split; [vm_compute; reflexivity|]. split.
  { apply (Hcfg (mk_cfg "lzo2" 5 0) (-1) (fst Sim.booted_refusing)
                (fst Sim.lzo2_refused) (snd Sim.booted_refusing));
      [exact H3|].
    vm_compute. reflexivity. }
  split.
  - pose (h := fst Sim.booted_refusing).
    pose (g := snd Sim.booted_refusing).
    pose (g3 := snd (Sim.after (bind unlock (fun _ => wrlock)) (h, g))).
    pose (o4 := os (snd (Sim.after (invoke LoadLib 4 (Some Sim.load)) (h, g3)))).
    assert (Hwr : bind unlock (fun _ => wrlock) h g = Ok 0 h g3)
      by (vm_compute; reflexivity).
    assert (Hm : 0 <= 4) by lia.
    assert (Hp : compress_modules_cmds g3 !! Z.to_nat 4 = Some Sim.lzo2_row)
      by (vm_compute; reflexivity).
    assert (Hle : Sim.load h (os g3) = (0, h, o4)) by (vm_compute; reflexivity).
    assert (Hrl : 0 <= 0) by lia.
    assert (He : Sim.slot_refuse 4 h o4 = (-1, h, mk_os Sim.ENOMEM (ext o4)))
      by (vm_compute; reflexivity).
    assert (Hr : -1 < 0) by lia.
    destruct (Hload 4 0 (-1) h h h h g g3 Sim.lzo2_row Sim.load Sim.slot_refuse o4
                (mk_os Sim.ENOMEM (ext o4)) Hwr Hm Hp eq_refl eq_refl Hle Hrl
                eq_refl He Hr) as (g5 & E & Ht & _).
    exists g5. split; [exact E|].
    unfold Sim.bookkeeping. rewrite Ht. vm_compute. reflexivity.
  - pose (h := fst Sim.lzo2_refused).
    pose (g := snd Sim.lzo2_refused).
    pose (g3 := snd (Sim.after (bind unlock (fun _ => wrlock)) (h, g))).
    assert (Hwr : bind unlock (fun _ => wrlock) h g = Ok 0 h g3)
      by (vm_compute; reflexivity).
    assert (Hm : 0 <= 4) by lia.
    assert (Hp : compress_modules_cmds g3 !! Z.to_nat 4
                 = Some (with_loaded 1 Sim.lzo2_row)) by (vm_compute; reflexivity).
    assert (Hld : loaded (with_loaded 1 Sim.lzo2_row) <> 0)
      by (vm_compute; discriminate).
    assert (He : Sim.slot_refuse 4 h (os g3)
                 = (-1, h, mk_os Sim.ENOMEM (ext (os g3))))
      by (vm_compute; reflexivity).
    assert (Hr : -1 < 0) by lia.
    destruct (Hfail 4 (-1) h h h g g3 (with_loaded 1 Sim.lzo2_row) Sim.slot_refuse
                (mk_os Sim.ENOMEM (ext (os g3))) Hwr Hm Hp Hld eq_refl He Hr)
      as (g5 & E & Ht).
    exists g5. split; [exact E|].
    unfold Sim.bookkeeping. rewrite Ht. vm_compute. reflexivity.
Defined.

(** The check of compress_init is on [max_model], not on the number of
    rows: with a cap of 6 methods, the table of the sources, whose 7 rows
    before the sentinel exceed the cap, passes compress_init. *)
Lemma compress_init_accepts_cap_plus_one :
  @KNET_MAX_COMPRESS_METHODS Sim.world Sim.sim6 = 6 /\
  get_max_model_scan (compress_modules_cmds (Sim.start Sim.all_built 1 true)) 0
    = Some 6 /\
  List.length (compress_modules_cmds (Sim.start Sim.all_built 1 true)) = 8%nat /\
  Sim.returned (@compress_init Sim.world Sim.sim6 Sim.fresh_handle
                               (Sim.start Sim.all_built 1 true))
    = Some (0, 0).
Proof. vm_compute. repeat split. Qed.

(** [compress_init_checks_max_model] on the same table and cap. *)
Lemma compress_init_checks_max_model_witness :
  @compress_init Sim.world Sim.sim6 Sim.fresh_handle (Sim.start Sim.all_built 1 true)
    = Ok 0 Sim.fresh_handle
         (with_last_load_failure (mk_timespec 0 0)
            (with_max_model 6 (Sim.start Sim.all_built 1 true))).
Proof.
  apply (proj1 (proj2
           (@compress_init_checks_max_model Sim.world Sim.sim6 Sim.fresh_handle
              (Sim.start Sim.all_built 1 true)
              (firstn 7 (compress_modules_cmds_init Sim.all_built Sim.adapters))
              [] (empty_module None 255) eq_refl
              ltac:(repeat constructor; discriminate) eq_refl))).
  vm_compute. discriminate.
Defined.

(** The threshold is looked at only after ensure-init and [val_level]:
    with a rejected level, a requested threshold of zero leaves the
    handle's threshold (7 here) as it was; and with a library that does
    not load, a threshold above the maximum packet size makes the call
    fail with the errno of the load, not EINVAL. *)
Lemma compress_cfg_threshold_needs_level_and_load :
  Sim.returned (compress_cfg (Sim.zlib_cfg 100 0)
                  (with_compress_threshold 7 Sim.fresh_handle)
                  (Sim.start Sim.all_built 1 true))
    = Some (-1, EINVAL) /\
  compress_threshold
    (fst (Sim.after (compress_cfg (Sim.zlib_cfg 100 0))
                    (with_compress_threshold 7 Sim.fresh_handle,
                     Sim.start Sim.all_built 1 true)))
    = 7 /\
  @KNET_COMPRESS_THRESHOLD Sim.world Sim.sim = 100 /\
  @KNET_MAX_PACKET_SIZE Sim.world Sim.sim = 65536 /\
  Sim.returned (compress_cfg (Sim.zlib_cfg 5 70000) Sim.fresh_handle
                             (Sim.start Sim.all_built 1 false))
    = Some (-1, Sim.ENOENT).
Proof. vm_compute. repeat split. Qed.

(** [compress_cfg_threshold] for zlib at level 5 with a threshold of zero:
    the handle ends with the default threshold. *)
Lemma compress_cfg_threshold_witness :
  exists g3 : global,
    compress_cfg (Sim.zlib_cfg 5 0) Sim.fresh_handle (Sim.start Sim.all_built 1 true)
      = Ok 0 (mk_handle 1 5 100 (<[1%nat := FakeRef]> (replicate 255 NULL))) g3 /\
    errno (os g3) = 0.
Proof.
  pose (g := Sim.start Sim.all_built 1 true).
  pose (hg1 := Sim.after (check_init_lib 1 0)
                 (Sim.fresh_handle,
                  with_event (EvDebug (InitCompressModule "zlib" 5 0)) g)).
  pose (hg2 := Sim.after (val_level 1 5) hg1).
  destruct (compress_cfg_threshold (Sim.zlib_cfg 5 0)
              Sim.fresh_handle (fst hg1) (fst hg2) g (snd hg1) (snd hg2)
              1 0 0 (Sim.start_row 1))
    as (_ & Hzero & _).
  - reflexivity.
  - lia.
  - reflexivity.
  - vm_compute. discriminate.
  - vm_compute. reflexivity.
  - lia.
  - vm_compute. reflexivity.
  - lia.
  - destruct Hzero as (g3 & E & He & _).
    + vm_compute. discriminate.
    + reflexivity.
    + exists g3. split; [|exact He].
      subst g. rewrite E. vm_compute. reflexivity.
Defined.

(** [compress_calls_backend] for a one-byte buffer on a handle whose
    threshold is 100: the back-end is called all the same. *)
Lemma compress_calls_backend_witness :
  compress_threshold (fst Sim.zlib_user) = 100 /\
  compress [Byte.x00] 1 0 0 (fst Sim.zlib_user) (snd Sim.zlib_user)
    = Ok 0 (fst Sim.zlib_user)
         (transformed Compress 1
            (os (snd (Sim.after (check_init_lib 1 0) Sim.zlib_user)))
            (snd (Sim.after (check_init_lib 1 0) Sim.zlib_user))).
Proof.
  split; [reflexivity|].
  pose (hg1 := Sim.after (check_init_lib 1 0) Sim.zlib_user).
  apply (compress_calls_backend [Byte.x00] 1 0 0 (fst Sim.zlib_user) (fst hg1)
           (fst Sim.zlib_user) (snd Sim.zlib_user) (snd hg1) 0 0
           (with_libref 1 (with_loaded 1 (Sim.start_row 1))) Sim.copy (os (snd hg1))).
  - vm_compute. reflexivity.
  - lia.
  - vm_compute. discriminate.
  - vm_compute. reflexivity.
  - reflexivity.
  - vm_compute. reflexivity.
Defined.

(** [compress_on_placeholder_calls_null] on a handle that was never
    configured: its model is 0, "none". *)
Lemma compress_on_placeholder_calls_null_witness :
  compress [] 0 0 0 Sim.fresh_handle (Sim.start Sim.all_built 1 true)
    = Fault (NullCall LoadLib 0).
Proof.
  apply (proj1 (compress_on_placeholder_calls_null [] 0 0 0 Sim.fresh_handle
                  (Sim.start Sim.all_built 1 true)
                  (Sim.mk_world (mk_timespec 1 0) true)
                  (Sim.mk_world (mk_timespec 1 0) true)
                  (empty_module (Some "none"%string) 0))).
  - reflexivity.
  - reflexivity.
  - simpl. lia.
  - reflexivity.
  - reflexivity.
  - reflexivity.
Defined.

(** [get_model_finds_first_name] on the table at start: "zlib" is found
    after the row "none", and "snappy", which no row carries, runs into
    the sentinel after the seven named rows. *)
Lemma get_model_finds_first_name_witness :
  get_model_scan (compress_modules_cmds (Sim.start Sim.all_built 1 true)) "zlib"
    = Some 1 /\
  get_model_scan (compress_modules_cmds (Sim.start Sim.all_built 1 true)) "snappy"
    = Some (-1).
Proof.
  pose (t := compress_modules_cmds (Sim.start Sim.all_built 1 true)).
  split.
  - refine (proj1 (get_model_finds_first_name (take 1 t) (drop 2 t) (Sim.start_row 1)
                     "zlib" _) _).
    + repeat constructor. eexists. split; [reflexivity | discriminate].
    + reflexivity.
  - refine (proj2 (get_model_finds_first_name (take 7 t) [] (Sim.start_row 7)
                     "snappy" _) _).
    + repeat constructor; eexists; (split; [reflexivity | discriminate]).
    + reflexivity.
Defined.

(** [is_valid_model_accepts_built_in_ids] in a process built with zlib
    only: id 1 is accepted because the row of zlib is built in. *)
Lemma is_valid_model_accepts_built_in_ids_witness :
  is_valid_model_scan (compress_modules_cmds (Sim.start Sim.only_zlib 1 true)) 1
    = Some 0 <->
  exists r : compress_model_t,
    r ∈ take 7 (compress_modules_cmds (Sim.start Sim.only_zlib 1 true)) /\
    model_id r = 1 /\ built_in r = 1.
Proof.
  pose (t := compress_modules_cmds (Sim.start Sim.only_zlib 1 true)).
  refine (proj1 (is_valid_model_accepts_built_in_ids (take 7 t) []
                   (empty_module None 255) 1 _ _)).
  - repeat constructor; discriminate.
  - reflexivity.
Defined.

(** [get_model_of_row_name_is_index] on the table of [Sim.zlib_user],
    where the row of zlib has been loaded and charged. *)
Lemma get_model_of_row_name_is_index_witness :
  Sim.bookkeeping (snd Sim.zlib_user) 1 = Some (1, 1) /\
  get_model_scan (compress_modules_cmds (snd Sim.zlib_user)) "zlib" = Some 1.
Proof.
  split; [reflexivity|].
  apply (get_model_of_row_name_is_index Sim.all_built Sim.adapters
           (compress_modules_cmds (snd Sim.zlib_user)) 1
           (with_libref 1 (with_loaded 1 (Sim.start_row 1))) "zlib").
  - repeat constructor.
  - reflexivity.
  - reflexivity.
Defined.


(** [compress_cfg_none_only_stores] on [Sim.zlib_user]: level 77 and
    threshold 5 are not looked at, the level is stored and the threshold is
    not, and the charge on zlib stays. *)
Lemma compress_cfg_none_only_stores_witness :
  compress_cfg (mk_cfg "none" 77 5) (fst Sim.zlib_user) (snd Sim.zlib_user)
    = Ok 0 (mk_handle 0 77 100 (compress_int_data (fst Sim.zlib_user)))
         (with_os (mk_os 0 (ext (os (snd Sim.zlib_user))))
                  (cfg_logged (mk_cfg "none" 77 5) (snd Sim.zlib_user))) /\
  Sim.bookkeeping (snd (Sim.after (compress_cfg (mk_cfg "none" 77 5)) Sim.zlib_user)) 1
    = Some (1, 1).
Proof.
  split.
  - apply (compress_cfg_none_only_stores (mk_cfg "none" 77 5) (fst Sim.zlib_user)
             (snd Sim.zlib_user)).
    reflexivity.
  - vm_compute. reflexivity.
Defined.

(** [decompress_calls_backend] on [Sim.zlib_user] for a packet tagged
    zlib (1). *)
Lemma decompress_calls_backend_witness :
  decompress 1 [Byte.x00] 1 0 0 (fst Sim.zlib_user) (snd Sim.zlib_user)
    = Ok 0 (fst Sim.zlib_user)
         (transformed Decompress 1
            (os (snd (Sim.after (check_init_lib 1 1) Sim.zlib_user)))
            (snd (Sim.after (check_init_lib 1 1) Sim.zlib_user))).
Proof.
  pose (hg1 := Sim.after (check_init_lib 1 1) Sim.zlib_user).
  refine (proj1 (decompress_calls_backend 1 [Byte.x00] 1 0 0 (fst Sim.zlib_user)
                   (fst hg1) (fst Sim.zlib_user) (snd Sim.zlib_user) (snd hg1) 0 0
                   (with_libref 1 (with_loaded 1 (Sim.start_row 1))) Sim.copy
                   (os (snd hg1)) _ _ _ _ _ _ _ _)).
  - vm_compute. discriminate.
  - vm_compute. reflexivity.
  - vm_compute. reflexivity.
  - lia.
  - lia.
  - vm_compute. reflexivity.
  - reflexivity.
  - vm_compute. reflexivity.
Defined.

(** [transforms_stop_when_ensure_init_fails] in a process whose libraries
    cannot be loaded: compress on a handle whose model is zlib, and
    decompress of a packet tagged zlib, both stop at the failed load. *)
Lemma transforms_stop_when_ensure_init_fails_witness :
  Sim.returned (compress [Byte.x00] 1 0 0 (with_compress_model 1 Sim.fresh_handle)
                         (snd (Sim.booted Sim.all_built false)))
    = Some (-1, Sim.ENOENT) /\
  Sim.returned (decompress 1 [Byte.x00] 1 0 0 Sim.fresh_handle
                           (snd (Sim.booted Sim.all_built false)))
    = Some (-1, Sim.ENOENT).
Proof.
  pose (g := snd (Sim.booted Sim.all_built false)).
  split.
  - pose (h := with_compress_model 1 Sim.fresh_handle).
    pose (hg1 := Sim.after (check_init_lib 1 0) (h, g)).
    assert (E : check_init_lib (compress_model h) 0 h g = Ok (-1) (fst hg1) (snd hg1))
      by (vm_compute; reflexivity).
    assert (Hlt : -1 < 0) by lia.
    assert (H0 : 0 <= compress_model (fst hg1)) by (vm_compute; discriminate).
    assert (Hp : compress_modules_cmds (snd hg1) !! Z.to_nat (compress_model (fst hg1))
                 = Some (Sim.start_row 1)) by (vm_compute; reflexivity).
    change (Sim.returned (compress [Byte.x00] 1 0 0 h g) = Some (-1, Sim.ENOENT)).
    rewrite (proj1 (transforms_stop_when_ensure_init_fails [Byte.x00] 1 0 0 h (fst hg1)
                      g (snd hg1) (-1) (Sim.start_row 1) Hlt) E H0 Hp).
    vm_compute. reflexivity.
  - pose (h := Sim.fresh_handle).
    pose (hg1 := Sim.after (check_init_lib 1 1) (h, g)).
    assert (E : check_init_lib 1 1 h g = Ok (-1) (fst hg1) (snd hg1))
      by (vm_compute; reflexivity).
    assert (Hlt : -1 < 0) by lia.
    assert (Hm : 1 <= max_model g) by (vm_compute; discriminate).
    assert (Hv : is_valid_model_scan (compress_modules_cmds g) 1 = Some 0)
      by (vm_compute; reflexivity).
    assert (H0 : 0 <= 1) by lia.
    assert (Hp : compress_modules_cmds (snd hg1) !! Z.to_nat 1
                 = Some (Sim.start_row 1)) by (vm_compute; reflexivity).
    change (Sim.returned (decompress 1 [Byte.x00] 1 0 0 h g) = Some (-1, Sim.ENOENT)).
    rewrite (proj2 (transforms_stop_when_ensure_init_fails [Byte.x00] 1 0 0 h (fst hg1)
                      g (snd hg1) (-1) (Sim.start_row 1) Hlt) 1 Hm Hv E H0 Hp).
    vm_compute. reflexivity.
Defined.

(** [decompress_is_rate_limited] two seconds after the failed load of
    [Sim.zlib_failed]. *)
Lemma decompress_is_rate_limited_witness :
  exists g3 : global,
    decompress 1 [] 0 0 0 (fst Sim.zlib_failed) (Sim.at_time 7 (snd Sim.zlib_failed))
      = Ok (-1) (fst Sim.zlib_failed) g3 /\
    errno (os g3) = EAGAIN /\
    compress_modules_cmds g3 = compress_modules_cmds (snd Sim.zlib_failed) /\
    last_load_failure g3 = mk_timespec 5 0.
Proof.
  pose (h := fst Sim.zlib_failed).
  pose (g := Sim.at_time 7 (snd Sim.zlib_failed)).
  pose (g1 := snd (Sim.after rdlock (h, g))).
  pose (g2 := snd (Sim.after (check_init_lib_ready 1) (h, g1))).
  assert (Hm : 1 <= max_model g) by (vm_compute; discriminate).
  assert (Hv : is_valid_model_scan (compress_modules_cmds g) 1 = Some 0)
    by (vm_compute; reflexivity).
  assert (Hrd : rdlock h g = Ok 0 h g1) by (vm_compute; reflexivity).
  assert (Hready : check_init_lib_ready 1 h g1 = Ok false h g2)
    by (vm_compute; reflexivity).
  assert (Hf : tv_sec (last_load_failure g) <> 0 \/ tv_nsec (last_load_failure g) <> 0)
    by (left; vm_compute; discriminate).
  assert (Hd : timespec_diff (last_load_failure g) (clock_gettime (ext (os g2)))
               < 10000000000) by (vm_compute; reflexivity).
  assert (H0 : 0 <= 1) by lia.
  assert (Hp : compress_modules_cmds g2 !! Z.to_nat 1 = Some (Sim.start_row 1))
    by (vm_compute; reflexivity).
  destruct (decompress_is_rate_limited 1 [] 0 0 0 h h h g g1 g2 (Sim.start_row 1)
              Hm Hv Hrd Hready Hf Hd H0 Hp) as (g3 & E & He & _ & Ht & Hl).
  exists g3. split; [exact E|]. split; [exact He|]. split.
  - rewrite Ht. vm_compute. reflexivity.
  - rewrite Hl. vm_compute. reflexivity.
Defined.

(** [compress_cfg_passes_on_ensure_init_failure] for zlib in a process
    whose libraries cannot be loaded: -1 with the [errno] of the load, no
    model stored, and the lock released once more than it was taken. *)
Lemma compress_cfg_passes_on_ensure_init_failure_witness :
  exists g3 : global,
    compress_cfg (Sim.zlib_cfg 5 0) (fst (Sim.booted Sim.all_built false))
                 (snd (Sim.booted Sim.all_built false))
      = Ok (-1) (fst (Sim.booted Sim.all_built false)) g3 /\
    errno (os g3) = Sim.ENOENT /\
    held (trace g3) = -1.
Proof.
  pose (h := fst (Sim.booted Sim.all_built false)).
  pose (g := snd (Sim.booted Sim.all_built false)).
  pose (hg1 := Sim.after (check_init_lib 1 0) (h, cfg_logged (Sim.zlib_cfg 5 0) g)).
  assert (Hs : get_model_scan (compress_modules_cmds g)
                 (cfg_compress_model (Sim.zlib_cfg 5 0)) = Some 1)
    by (vm_compute; reflexivity).
  assert (H0 : 0 < 1) by lia.
  assert (Hp : compress_modules_cmds g !! Z.to_nat 1 = Some (Sim.start_row 1))
    by (vm_compute; reflexivity).
  assert (Hb : built_in (Sim.start_row 1) <> 0) by (vm_compute; discriminate).
  assert (E : check_init_lib 1 0 h (cfg_logged (Sim.zlib_cfg 5 0) g)
              = Ok (-1) h (snd hg1)) by (vm_compute; reflexivity).
  assert (Hlt : -1 < 0) by lia.
  destruct (compress_cfg_passes_on_ensure_init_failure (Sim.zlib_cfg 5 0) h h g
              (snd hg1) 1 (-1) (Sim.start_row 1) Hs H0 Hp Hb E Hlt)
    as (g3 & E3 & He & _ & Ht & _).
  exists g3. split; [exact E3|]. split.
  - rewrite He. vm_compute. reflexivity.
  - rewrite Ht. vm_compute. reflexivity.
Defined.

(** [compress_init_is_idempotent] at start: the call returns 0, and a
    second call from the globals it leaves returns 0 and leaves them. *)
Lemma compress_init_is_idempotent_witness :
  compress_init Sim.fresh_handle (snd (Sim.booted Sim.all_built true))
    = Ok 0 Sim.fresh_handle (snd (Sim.booted Sim.all_built true)) /\
  trace (snd (Sim.booted Sim.all_built true)) = [].
Proof.
  pose (g := Sim.start Sim.all_built 1 true).
  pose (g' := snd (Sim.booted Sim.all_built true)).
  assert (E : compress_init Sim.fresh_handle g = Ok 0 Sim.fresh_handle g')
    by (vm_compute; reflexivity).
  destruct (compress_init_is_idempotent Sim.fresh_handle Sim.fresh_handle g g' 0 E)
    as (_ & _ & A & _).
  destruct (A eq_refl) as (_ & _ & Ht & E2).
  split; [exact E2 | exact Ht].
Defined.

(** [check_init_lib_returns_with_lock] on [Sim.zlib_user]: the call
    returns 0 and holds the lock once more. *)
Lemma check_init_lib_returns_with_lock_witness :
  held (trace (snd (Sim.after (check_init_lib 1 0) Sim.zlib_user)))
    = held (trace (snd Sim.zlib_user)) + 1.
Proof.
  pose (hg1 := Sim.after (check_init_lib 1 0) Sim.zlib_user).
  assert (E : check_init_lib 1 0 (fst Sim.zlib_user) (snd Sim.zlib_user)
              = Ok 0 (fst hg1) (snd hg1)) by (vm_compute; reflexivity).
  destruct (check_init_lib_returns_with_lock 1 0 0 (fst Sim.zlib_user) (fst hg1)
              (snd Sim.zlib_user) (snd hg1) E) as [[_ H]|[H _]].
  - exact H.
  - discriminate H.
Defined.

(** [entry_points_release_the_lock]: a compress on [Sim.zlib_user] and a
    compress_cfg of a level that zlib refuses both leave the lock as they
    found it. *)
Lemma entry_points_release_the_lock_witness :
  held (trace (snd (Sim.after (compress [Byte.x00] 1 0 0) Sim.zlib_user)))
    = held (trace (snd Sim.zlib_user)) /\
  (held (trace (snd (Sim.after (compress_cfg (Sim.zlib_cfg 10 0)) Sim.zlib_user)))
     = held (trace (snd Sim.zlib_user)) \/
   held (trace (snd (Sim.after (compress_cfg (Sim.zlib_cfg 10 0)) Sim.zlib_user)))
     = held (trace (snd Sim.zlib_user)) - 1).
Proof.
  split.
  - pose (hg1 := Sim.after (compress [Byte.x00] 1 0 0) Sim.zlib_user).
    assert (E : compress [Byte.x00] 1 0 0 (fst Sim.zlib_user) (snd Sim.zlib_user)
                = Ok 0 (fst hg1) (snd hg1)) by (vm_compute; reflexivity).
    exact (proj1 (entry_points_release_the_lock (fst Sim.zlib_user) (fst hg1)
                    (snd Sim.zlib_user) (snd hg1)) [Byte.x00] 1 0 0 0 E).
  - pose (hg1 := Sim.after (compress_cfg (Sim.zlib_cfg 10 0)) Sim.zlib_user).
    assert (E : compress_cfg (Sim.zlib_cfg 10 0) (fst Sim.zlib_user) (snd Sim.zlib_user)
                = Ok (-1) (fst hg1) (snd hg1)) by (vm_compute; reflexivity).
    destruct (proj2 (proj2 (proj2 (entry_points_release_the_lock (fst Sim.zlib_user)
                (fst hg1) (snd Sim.zlib_user) (snd hg1)))) (Sim.zlib_cfg 10 0) (-1) E)
      as [[H _]|[_ H]].
    + discriminate H.
    + exact H.
Defined.

(** [entry_points_keep_static_part]: configuring zlib changes the
    bookkeeping of the row of zlib and nothing else in the table, which
    keeps its complete rows. *)
Lemma entry_points_keep_static_part_witness :
  static_table (compress_modules_cmds (snd (Sim.booted Sim.all_built true)))
               (compress_modules_cmds (snd Sim.zlib_user)) /\
  complete_rows (compress_modules_cmds (snd Sim.zlib_user)).
Proof.
  pose (hg := Sim.booted Sim.all_built true).
  assert (E : compress_cfg (Sim.zlib_cfg 5 0) (fst hg) (snd hg)
              = Ok 0 (fst Sim.zlib_user) (snd Sim.zlib_user))
    by (vm_compute; reflexivity).
  destruct (entry_points_keep_static_part (fst hg) (fst Sim.zlib_user) (snd hg)
              (snd Sim.zlib_user)) as (_ & _ & A & _ & _ & _ & B).
  pose proof (A (Sim.zlib_cfg 5 0) 0 E) as Hs.
  split; [exact Hs|].
  apply (proj1 (proj2 (B _ _ Hs))).
  apply (init_table_complete Sim.all_built Sim.adapters).
Defined.

(** [no_call_through_null_slot] on the table of the sources at start:
    neither compress_cfg for "none", nor compress_fini, nor decompress of a
    packet tagged 0 ends in a call through a NULL slot, the [load_lib] of
    "none" included. *)
Lemma no_call_through_null_slot_witness :
  compress_cfg (mk_cfg "none" 1 0) Sim.fresh_handle (Sim.start Sim.all_built 1 true)
    <> Fault (NullCall LoadLib 0) /\
  compress_fini Sim.fresh_handle (Sim.start Sim.all_built 1 true)
    <> Fault (NullCall UnloadLib 0) /\
  decompress 0 [] 0 0 0 Sim.fresh_handle (Sim.start Sim.all_built 1 true)
    <> Fault (NullCall LoadLib 0).
Proof.
  destruct (no_call_through_null_slot Sim.fresh_handle (Sim.start Sim.all_built 1 true)
              (init_table_complete Sim.all_built Sim.adapters)) as (A & B & C & _).
  split; [apply A|]. split; [apply B|].
  apply C.
  apply (init_table_shape Sim.all_built Sim.adapters), init_table_static.
Defined.

(** [compress_fini_finalises_every_loaded_row] when a handle that was
    never configured is finalised in the process of [Sim.zlib_user]: the
    row of zlib, loaded and charged by the other handle, is finalised like
    any other. *)
Lemma compress_fini_finalises_every_loaded_row_witness :
  compress_modules_cmds (snd (Sim.after compress_fini
                                        (Sim.fresh_handle, snd Sim.zlib_user)))
    = (finalise_from 0 (take 7 (compress_modules_cmds (snd Sim.zlib_user)))
       ++ [empty_module None 255])%list /\
  Sim.bookkeeping (snd (Sim.after compress_fini (Sim.fresh_handle, snd Sim.zlib_user))) 1
    = Some (0, 0).
Proof.
  pose (g := snd Sim.zlib_user).
  pose (hg1 := Sim.after compress_fini (Sim.fresh_handle, g)).
  assert (E : compress_fini Sim.fresh_handle g = Ok tt (fst hg1) (snd hg1))
    by (vm_compute; reflexivity).
  split.
  - refine (compress_fini_finalises_every_loaded_row Sim.fresh_handle (fst hg1) g
              (snd hg1) (take 7 (compress_modules_cmds g)) [] (empty_module None 255)
              (ext (os g)) tt _ _ _ _ E).
    + vm_compute. reflexivity.
    + repeat constructor; discriminate.
    + reflexivity.
    + reflexivity.
  - vm_compute. reflexivity.
Defined.

(** [stateless_slot_is_tested_under_read_lock_only] for zlib: the first
    ensure-init of a fresh handle takes the charge; an ensure-init on
    [Sim.zlib_user], which holds it, only takes the read lock; and the
    write-lock part run for [Sim.zlib_user] charges zlib a second time. *)
Lemma stateless_slot_is_tested_under_read_lock_only_witness :
  holds_charge (fst (Sim.after (check_init_lib 1 0) (Sim.booted Sim.all_built true))) 1
    = true /\
  check_init_lib 1 0 (fst Sim.zlib_user) (snd Sim.zlib_user)
    = Ok 0 (fst Sim.zlib_user)
         (with_event (EvRdLock 0)
            (with_os (mk_os (errno (os (snd Sim.zlib_user)))
                            (ext (os (snd Sim.zlib_user))))
                     (snd Sim.zlib_user))) /\
  Sim.bookkeeping (snd Sim.zlib_user) 1 = Some (1, 1) /\
  exists (h' : knet_handle) (g' : global),
    check_init_lib_load 1 (fst Sim.zlib_user) (snd Sim.zlib_user) = Ok 0 h' g' /\
    Sim.bookkeeping g' 1 = Some (2, 1).
Proof.
  split; [|split; [|split; [reflexivity|]]].
  - pose (hg := Sim.booted Sim.all_built true).
    pose (hg1 := Sim.after (check_init_lib 1 0) hg).
    assert (Hp : compress_modules_cmds (snd hg) !! Z.to_nat 1 = Some (Sim.start_row 1))
      by (vm_compute; reflexivity).
    assert (E : check_init_lib 1 0 (fst hg) (snd hg) = Ok 0 (fst hg1) (snd hg1))
      by (vm_compute; reflexivity).
    exact (proj1 (proj1 (stateless_slot_is_tested_under_read_lock_only 1 0 (fst hg)
                           (snd hg) (Sim.start_row 1) Hp eq_refl)
                        (fst hg1) (snd hg1) (or_introl eq_refl) eq_refl E)).
  - pose (p := with_libref 1 (with_loaded 1 (Sim.start_row 1))).
    assert (Hp : compress_modules_cmds (snd Sim.zlib_user) !! Z.to_nat 1 = Some p)
      by (vm_compute; reflexivity).
    refine (proj1 (proj2 (stateless_slot_is_tested_under_read_lock_only 1 0
                            (fst Sim.zlib_user) (snd Sim.zlib_user) p Hp eq_refl))
              (ext (os (snd Sim.zlib_user))) _ _ _ _).
    + lia.
    + reflexivity.
    + vm_compute. reflexivity.
    + reflexivity.
  - pose (p := with_libref 1 (with_loaded 1 (Sim.start_row 1))).
    assert (Hp : compress_modules_cmds (snd Sim.zlib_user) !! Z.to_nat 1 = Some p)
      by (vm_compute; reflexivity).
    assert (H0 : 0 <= 1) by lia.
    assert (Hc : holds_charge (fst Sim.zlib_user) 1 = true)
      by (vm_compute; reflexivity).
    assert (Hw : pthread_rwlock_wrlock
                   (pthread_rwlock_unlock (ext (os (snd Sim.zlib_user))))
                 = (0, ext (os (snd Sim.zlib_user)))) by (vm_compute; reflexivity).
    destruct (proj2 (proj2 (stateless_slot_is_tested_under_read_lock_only 1 0
                              (fst Sim.zlib_user) (snd Sim.zlib_user) p Hp eq_refl))
                (ext (os (snd Sim.zlib_user))) H0 eq_refl eq_refl Hc Hw)
      as (h' & g' & E & _ & _ & Ht).
    exists h', g'. split; [exact E|].
    unfold Sim.bookkeeping. rewrite Ht. vm_compute. reflexivity.
Defined.

(** [lock_failures_are_reported] with locks that fail with EDEADLK: an
    ensure-init for zlib whose read lock fails, the load part when only the
    write lock fails, and a compress_fini whose write lock fails. *)
Lemma lock_failures_are_reported_witness :
  Sim.returned (@check_init_lib Sim.world (Sim.locked_out Sim.EDEADLK Sim.EDEADLK) 1 0
                  (fst Sim.zlib_user) (snd Sim.zlib_user))
    = Some (-1, Sim.EDEADLK) /\
  Sim.returned (@check_init_lib_load Sim.world (Sim.locked_out 0 Sim.EDEADLK) 5
                  (fst Sim.zlib_user) (snd Sim.zlib_user))
    = Some (-1, Sim.EDEADLK) /\
  @compress_fini Sim.world (Sim.locked_out Sim.EDEADLK Sim.EDEADLK)
                 (fst Sim.zlib_user) (snd Sim.zlib_user)
    = Ok tt (fst Sim.zlib_user)
         (with_event (EvErr (UnableWriteLock Sim.EDEADLK))
            (with_event (EvWrLock Sim.EDEADLK) (snd Sim.zlib_user))).
Proof.
  assert (He : Sim.EDEADLK <> 0) by (vm_compute; discriminate).
  destruct (@lock_failures_are_reported Sim.world
              (Sim.locked_out Sim.EDEADLK Sim.EDEADLK)
              (fst Sim.zlib_user) (snd Sim.zlib_user) Sim.EDEADLK
              (ext (os (snd Sim.zlib_user))) He) as (A & _ & C).
  destruct (@lock_failures_are_reported Sim.world (Sim.locked_out 0 Sim.EDEADLK)
              (fst Sim.zlib_user) (snd Sim.zlib_user) Sim.EDEADLK
              (ext (os (snd Sim.zlib_user))) He) as (_ & B & _).
  split; [|split].
  - rewrite (A eq_refl 1 0). reflexivity.
  - rewrite (B eq_refl 5). reflexivity.
  - rewrite (C eq_refl). vm_compute. reflexivity.
Defined.

(** [configure_then_finalise_restores_table] for [Sim.zlib_user]:
    configuring zlib from the table at start and finalising the handle
    gives the table at start. *)
Lemma configure_then_finalise_restores_table_witness :
  Sim.bookkeeping (snd Sim.zlib_user) 1 = Some (1, 1) /\
  compress_modules_cmds (snd (Sim.after compress_fini Sim.zlib_user))
    = compress_modules_cmds (snd (Sim.booted Sim.all_built true)).
Proof.
  split; [reflexivity|].
  pose (hg := Sim.booted Sim.all_built true).
  pose (hg2 := Sim.after compress_fini Sim.zlib_user).
  assert (Ec : compress_cfg (Sim.zlib_cfg 5 0) (fst hg) (snd hg)
               = Ok 0 (fst Sim.zlib_user) (snd Sim.zlib_user))
    by (vm_compute; reflexivity).
  assert (Ef : compress_fini (fst Sim.zlib_user) (snd Sim.zlib_user)
               = Ok tt (fst hg2) (snd hg2)) by (vm_compute; reflexivity).
  refine (configure_then_finalise_restores_table (Sim.zlib_cfg 5 0) (fst hg)
            (fst Sim.zlib_user) (fst hg2) (snd hg) (snd Sim.zlib_user) (snd hg2)
            (take 7 (compress_modules_cmds (snd hg))) [] (empty_module None 255)
            (ext (os (snd Sim.zlib_user))) tt _ _ _ _ _ _ _ _ Ec _ Ef).
  - vm_compute. reflexivity.
  - repeat constructor; discriminate.
  - repeat (constructor 2;
            [split; [first [left; reflexivity | right; reflexivity] | reflexivity]|]).
    constructor 1.
  - reflexivity.
  - intros i r Hi Hn.
    do 7 (destruct i as [|i]; [inversion Hi; reflexivity|]). discriminate.
  - vm_compute. discriminate.
  - reflexivity.
  - reflexivity.
  - reflexivity.
Defined.

(** [compress_init_passes_table_over_cap] with a cap of six methods and
    the table of the sources, whose seven rows before the sentinel exceed
    it: compress_init returns 0; bzip2, the row of index 6, is configured,
    which loads and charges it; and compress_fini on that handle leaves
    the row loaded and charged. *)
Lemma compress_init_passes_table_over_cap_witness :
  @KNET_MAX_COMPRESS_METHODS Sim.world Sim.sim6 = 6 /\
  List.length (take 7 (compress_modules_cmds (Sim.start Sim.all_built 1 true)))
    = 7%nat /\
  @compress_init Sim.world Sim.sim6 Sim.fresh_handle (Sim.start Sim.all_built 1 true)
    = Ok 0 Sim.fresh_handle
         (with_last_load_failure (mk_timespec 0 0)
            (with_max_model 6 (Sim.start Sim.all_built 1 true))) /\
  Sim.bookkeeping (snd Sim.bzip2_user6) 6 = Some (1, 1) /\
  Sim.bookkeeping
    (snd (Sim.after (@compress_fini Sim.world Sim.sim6) Sim.bzip2_user6)) 6
    = Some (1, 1).
Proof.
  split; [reflexivity|]. split; [reflexivity|]. split.
  - pose (g := Sim.start Sim.all_built 1 true).
    refine (proj1 (proj2
              (@compress_init_passes_table_over_cap Sim.world Sim.sim6
                 Sim.fresh_handle g (take 7 (compress_modules_cmds g)) []
                 (empty_module None 255) (Sim.start_row 6) _ _ _ _ _))).
    + vm_compute. reflexivity.
    + repeat constructor; discriminate.
    + reflexivity.
    + reflexivity.
    + reflexivity.
  - split; [vm_compute; reflexivity|].
    pose (h := fst Sim.bzip2_user6).
    pose (g := snd Sim.bzip2_user6).
    pose (hg2 := Sim.after (@compress_fini Sim.world Sim.sim6) Sim.bzip2_user6).
    pose (r := with_libref 1 (with_loaded 1 (Sim.start_row 6))).
    assert (Ht : compress_modules_cmds g
                 = (take 7 (compress_modules_cmds g) ++ [empty_module None 255])%list)
      by (vm_compute; reflexivity).
    assert (Hn : Forall (fun x : compress_model_t => model_name x <> None)
                        (take 7 (compress_modules_cmds g)))
      by (repeat constructor; discriminate).
    assert (Hr : take 7 (compress_modules_cmds g)
                   !! Z.to_nat (@KNET_MAX_COMPRESS_METHODS Sim.world Sim.sim6)
                 = Some r) by (vm_compute; reflexivity).
    assert (Ef : @compress_fini Sim.world Sim.sim6 h g = Ok tt (fst hg2) (snd hg2))
      by (vm_compute; reflexivity).
    pose proof (proj2 (proj2 (proj2
                  (@compress_init_passes_table_over_cap Sim.world Sim.sim6 h g
                     (take 7 (compress_modules_cmds g)) [] (empty_module None 255) r
                     Ht Hn eq_refl eq_refl Hr)))
                  (fst hg2) (snd hg2) (ext (os g)) tt eq_refl Ef) as Hrow.
    change (Sim.bookkeeping (snd hg2) 6 = Some (1, 1)).
    unfold Sim.bookkeeping.
    change (compress_modules_cmds (snd hg2) !! 6%nat)
      with (compress_modules_cmds (snd hg2)
              !! Z.to_nat (@KNET_MAX_COMPRESS_METHODS Sim.world Sim.sim6)).
    rewrite Hrow. reflexivity.
Defined.
